(** * CI/CD pipeline health dashboard backend: ingestion, metrics, broadcast

    A shallow embedding of the backend of the dashboard
    ([backend/schemas.py], [backend/collectors/*.py],
    [dipesh/backend/main.py], [dipesh/backend/ws.py],
    [dipesh/backend/alerting.py]) and the properties its specification
    states about it, followed by further properties of the code.

    Conventions of the embedding.
    - A Python [float] is a rational number; every arithmetic operation
      rounds its exact result to the nearest binary64 value, ties to even
      ([Binary64.round64]).  Infinities and NaN are not represented: the
      quantities computed here stay far below the overflow threshold.
    - A [datetime] is its wall clock, a count of microseconds since
      0001-01-01T00:00:00, together with its timezone awareness and the
      offset of its timezone; a [timedelta] is a count of microseconds.
      The table keeps the wall clock of a timestamp only, and gives back a
      naive datetime.  Parsing of ISO-8601 text into a [datetime] is done
      by the web framework and is not modelled.
    - Strings are sequences of one-byte characters; window strings are read
      as ASCII.
    - Handlers run in a monad with an environment (clock, behaviour of the
      database, of the sockets and of the alert channels, environment
      variables), a state (stored rows, registered sockets, a log of the
      observable effects) and exceptions.  A handler runs to completion
      without interleaving with another one. *)

From Stdlib Require Import ZArith QArith Qround Qcanon Qpower Lia Lqa Floats.
From Stdlib Require Import Ascii String DecimalString.
From stdpp Require Import base gmap strings list sorting.

Local Open Scope Z_scope.

(** ** Binary64 arithmetic *)

Module Binary64.

Definition float := Q.

Definition prec : Z := 53.
Definition emin : Z := -1074.

(** [pow2 e] is 2^e for any integer [e]. *)
Definition pow2 (e : Z) : Q :=
  match e with
  | Z0 => 1%Q
  | Zpos p => inject_Z (2 ^ Zpos p)
  | Zneg p => (1 # (2 ^ p)%positive)%Q
  end.

(** [ilog2 a b] is the integer part of the binary logarithm of a/b,
    for positive [a] and [b]. *)
Definition ilog2 (a : Z) (b : positive) : Z :=
  let d := Z.log2 a - Z.log2 (Zpos b) in
  if a * 2 ^ Z.max 0 (- d) <? Zpos b * 2 ^ Z.max 0 d then d - 1 else d.

(** Exponent of the last place of the binary64 value nearest to a/b. *)
Definition cexp (a : Z) (b : positive) : Z :=
  Z.max (ilog2 a b - (prec - 1)) emin.

(** [rne a b] is a/b rounded to the nearest integer, ties to even. *)
Definition rne (a : Z) (b : positive) : Z :=
  let q := a / Zpos b in
  let r := a mod Zpos b in
  match 2 * r ?= Zpos b with
  | Lt => q
  | Gt => q + 1
  | Eq => if Z.even q then q else q + 1
  end.

Definition round_pos (a : Z) (b : positive) : Q :=
  let e := cexp a b in
  let m := rne (a * 2 ^ Z.max 0 (- e)) (b * Z.to_pos (2 ^ Z.max 0 e)) in
  Qred (inject_Z m * pow2 e).

(** Round to nearest, ties to even, 53 bits of precision, gradual
    underflow.  Results are reduced fractions, so that equal floats are
    equal terms. *)
Definition round64 (x : Q) : float :=
  match Qnum x with
  | Z0 => 0%Q
  | Zpos a => round_pos (Zpos a) (Qden x)
  | Zneg a => (- round_pos (Zpos a) (Qden x))%Q
  end.

Definition fadd (x y : float) : float := round64 (x + y).
Definition fmul (x y : float) : float := round64 (x * y).
Definition fdiv (x y : float) : float := round64 (x / y).

(** [float(n)] for a Python integer. *)
Definition of_Z (n : Z) : float := round64 (inject_Z n).

(** [a / b] for two Python integers: the exact quotient, rounded once. *)
Definition int_truediv (a b : Z) : float := round64 (inject_Z a / inject_Z b).

End Binary64.

Import Binary64.

(** ** Exceptions and fallible computations *)

Inductive exn : Type :=
  | TypeError
  | ValueError
  | OverflowError
  | StoreError
  | TransportError.

Definition result (A : Type) : Type := exn + A.

Definition ok {A} (a : A) : result A := inr a.
Definition raise {A} (e : exn) : result A := inl e.

#[global] Instance result_ret : MRet result := @ok.
#[global] Instance result_bind : MBind result := fun A B k r =>
  match r with
  | inl e => inl e
  | inr a => k a
  end.

(** ** datetime and timedelta *)

Module Datetime.

(** A datetime is its wall clock (the year, month, ... fields), counted in
    microseconds since 0001-01-01T00:00:00, whether it carries a tzinfo,
    and the offset of that tzinfo from UTC, in microseconds. *)
Record datetime : Type := mk_datetime_tz {
  dt_us : Z;          (* the wall clock *)
  dt_aware : bool;    (* carries a tzinfo *)
  dt_offset : Z       (* [utcoffset()] of an aware datetime *)
}.

(** A naive datetime, or an aware one in UTC. *)
Definition mk_datetime (us : Z) (aware : bool) : datetime :=
  mk_datetime_tz us aware 0.

(** The instant of an aware datetime, in UTC; the wall clock of a naive
    one. *)
Definition utc_us (d : datetime) : Z :=
  if dt_aware d then dt_us d - dt_offset d else dt_us d.

(** The datetime read back from a [DateTime] column of SQLite: the text
    stored is the wall clock, without the offset. *)
Definition naive (d : datetime) : datetime := mk_datetime (dt_us d) false.

Definition timedelta := Z.

Definition US_PER_SECOND : Z := 1000000.
Definition US_PER_HOUR : Z := 3600 * US_PER_SECOND.
Definition US_PER_DAY : Z := 86400 * US_PER_SECOND.

(** [timedelta.max] is 999999999 days, 23:59:59.999999 and
    [timedelta.min] is -999999999 days. *)
Definition MAX_DELTA_DAYS : Z := 999999999.

(** [datetime.max] is 9999-12-31T23:59:59.999999, day 3652059. *)
Definition MAX_ORDINAL : Z := 3652059.
Definition DT_MAX_US : Z := MAX_ORDINAL * US_PER_DAY - 1.

(** The [timedelta] constructor normalises to days, seconds and
    microseconds and refuses a day count beyond [MAX_DELTA_DAYS]. *)
Definition timedelta_of_us (us : Z) : result timedelta :=
  if (- MAX_DELTA_DAYS <=? us / US_PER_DAY) && (us / US_PER_DAY <=? MAX_DELTA_DAYS)
  then ok us else raise OverflowError.

Definition timedelta_hours (n : Z) : result timedelta :=
  timedelta_of_us (n * US_PER_HOUR).

Definition timedelta_days (n : Z) : result timedelta :=
  timedelta_of_us (n * US_PER_DAY).

(** [d - td]: the wall clock moves, the tzinfo is kept; the result has to
    be a representable date. *)
Definition datetime_sub_delta (d : datetime) (td : timedelta) : result datetime :=
  let us := dt_us d - td in
  if (0 <=? us) && (us <=? DT_MAX_US)
  then ok (mk_datetime_tz us (dt_aware d) (dt_offset d)) else raise OverflowError.

(** [a - b]: naive and aware datetimes do not mix; two aware ones are
    subtracted as instants. *)
Definition datetime_sub (a b : datetime) : result timedelta :=
  if Bool.eqb (dt_aware a) (dt_aware b)
  then ok (utc_us a - utc_us b) else raise TypeError.

(** [td.total_seconds()] divides the integer microsecond count by 10**6. *)
Definition total_seconds (td : timedelta) : float :=
  int_truediv td US_PER_SECOND.

(** [a >= b] and [a > b] on the wall clock: the comparison of SQLite on the
    stored texts, and of Python on the naive datetimes read back from the
    table. *)
Definition datetime_geb (a b : datetime) : bool := dt_us b <=? dt_us a.
Definition datetime_gtb (a b : datetime) : bool := dt_us b <? dt_us a.

End Datetime.

Import Datetime.

(** ** Python built-ins on strings *)

Module Py.

Definition ascii_code (c : ascii) : Z := Z.of_nat (nat_of_ascii c).

(** [s.endswith(c)] for a one-character suffix [c]. *)
Fixpoint endswith_char (s : string) (c : ascii) : bool :=
  match s with
  | EmptyString => false
  | String a EmptyString => bool_decide (a = c)
  | String _ rest => endswith_char rest c
  end.

(** [s[:-1]]: the string without its last character. *)
Fixpoint drop_last (s : string) : string :=
  match s with
  | EmptyString => EmptyString
  | String _ EmptyString => EmptyString
  | String a rest => String a (drop_last rest)
  end.

(** Characters skipped by [int] around the literal:
    tab, line feed, vertical tab, form feed, carriage return, space. *)
Definition is_space (c : ascii) : bool :=
  let n := ascii_code c in
  ((9 <=? n) && (n <=? 13)) || (n =? 32).

Definition is_digit (c : ascii) : bool :=
  let n := ascii_code c in
  (48 <=? n) && (n <=? 57).

Definition digit_value (c : ascii) : Z := ascii_code c - 48.

Definition is_underscore (c : ascii) : bool := ascii_code c =? 95.

Fixpoint lstrip (l : list ascii) : list ascii :=
  match l with
  | c :: l' => if is_space c then lstrip l' else l
  | [] => []
  end.

Definition strip (l : list ascii) : list ascii :=
  rev (lstrip (rev (lstrip l))).

(** Interpreter limit on the length of a decimal literal
    ([sys.int_info.default_max_str_digits]). *)
Definition MAX_STR_DIGITS : nat := 4300.

(** Digits following the first one; a single underscore may separate
    two digits.  Returns the value and the number of digits read. *)
Fixpoint scan_digits (acc : Z) (count : nat) (l : list ascii) : option (Z * nat) :=
  match l with
  | [] => Some (acc, count)
  | c :: l' =>
      if is_digit c then scan_digits (10 * acc + digit_value c) (S count) l'
      else if is_underscore c then
        match l' with
        | d :: l'' =>
            if is_digit d
            then scan_digits (10 * acc + digit_value d) (S count) l''
            else None
        | [] => None
        end
      else None
  end.

Definition parse_unsigned (l : list ascii) : option Z :=
  match l with
  | c :: l' =>
      if is_digit c then
        match scan_digits (digit_value c) 1 l' with
        | Some (v, count) => if (count <=? MAX_STR_DIGITS)%nat then Some v else None
        | None => None
        end
      else None
  | [] => None
  end.

(** [int(s)] in base ten. *)
Definition int (s : string) : result Z :=
  let body := strip (list_ascii_of_string s) in
  let parsed :=
    match body with
    | "+"%char :: l => parse_unsigned l
    | "-"%char :: l => Z.opp <$> parse_unsigned l
    | _ => parse_unsigned body
    end in
  match parsed with
  | Some n => ok n
  | None => raise ValueError
  end.

(** [sub in s] for two texts. *)
Fixpoint contains (s sub : string) : bool :=
  String.prefix sub s
  || match s with
     | EmptyString => false
     | String _ s' => contains s' sub
     end.

End Py.

(** ** backend/schemas.py *)

Module Schemas.

(** [IngestBase] / [IngestRequest]. *)
Record IngestRequest : Type := {
  pipeline : string;
  repo : string;
  branch : string;
  status : string;
  started_at : datetime;
  completed_at : option datetime;
  duration_seconds : option float;
  url : option string;
  logs : option string
}.

(** The decoded JSON body of an ingestion call: each field is absent or
    holds a value of the declared type. *)
Record Payload : Type := {
  raw_pipeline : option string;
  raw_repo : option string;
  raw_branch : option string;
  raw_status : option string;
  raw_started_at : option datetime;
  raw_completed_at : option datetime;
  raw_duration_seconds : option float;
  raw_url : option string;
  raw_logs : option string
}.

Inductive FieldError : Type :=
  | Missing (field : string)
  | PatternMismatch (field : string).

(** [Field(pattern="^(success|failure|cancelled|in_progress)$")]. *)
Definition status_pattern (s : string) : bool :=
  bool_decide (s = "success") || bool_decide (s = "failure")
  || bool_decide (s = "cancelled") || bool_decide (s = "in_progress").

Definition required {A} (field : string) (v : option A) : list FieldError :=
  match v with
  | Some _ => []
  | None => [Missing field]
  end.

Definition check_status (v : option string) : list FieldError :=
  match v with
  | Some s => if status_pattern s then [] else [PatternMismatch "status"]
  | None => [Missing "status"]
  end.

(** Validation of a body against [IngestRequest]: the fields without a
    default are required, the optional ones default to [None]; the errors
    of all fields are reported together, in field order. *)
Definition validate (p : Payload) : list FieldError + IngestRequest :=
  match raw_pipeline p, raw_repo p, raw_branch p, raw_status p, raw_started_at p with
  | Some pl, Some rp, Some br, Some st, Some t0 =>
      if status_pattern st then
        inr {| pipeline := pl; repo := rp; branch := br; status := st;
               started_at := t0;
               completed_at := raw_completed_at p;
               duration_seconds := raw_duration_seconds p;
               url := raw_url p;
               logs := raw_logs p |}
      else inl [PatternMismatch "status"]
  | _, _, _, _, _ =>
      inl (required "pipeline" (raw_pipeline p) ++ required "repo" (raw_repo p)
           ++ required "branch" (raw_branch p) ++ check_status (raw_status p)
           ++ required "started_at" (raw_started_at p))
  end.

Record SummaryOut : Type := {
  window : string;
  success_rate : float;
  failure_rate : float;
  avg_build_time : option float;
  last_status_by_pipeline : gmap string string
}.

End Schemas.

(** ** dipesh/backend/models.py *)

Module Models.

Record Build : Type := {
  id : option Z;
  provider : string;
  pipeline : string;
  repo : string;
  branch : string;
  status : string;
  started_at : datetime;
  completed_at : option datetime;
  duration_seconds : option float;
  url : option string;
  logs : option string;
  created_at : option datetime
}.

End Models.

Abbreviation Build := Models.Build.
Abbreviation IngestRequest := Schemas.IngestRequest.
Abbreviation SummaryOut := Schemas.SummaryOut.

(** ** backend/collectors *)

(** A value read from a JSON object by a key. *)
Module Json.

Inductive member (A : Type) : Type :=
  | Absent
  | Null
  | Given (a : A).
Arguments Absent {A}.
Arguments Null {A}.
Arguments Given {A} a.

(** [d.get(key)]; [None] is Python's [None]. *)
Definition get {A} (m : member A) : option A :=
  match m with
  | Given a => Some a
  | _ => None
  end.

(** [d.get(key, default)]. *)
Definition get_or {A} (default : A) (m : member A) : option A :=
  match m with
  | Absent => Some default
  | Null => None
  | Given a => Some a
  end.

(** What an f-string prints of an optional text. *)
Definition fstr (v : option string) : string := default "None" v.

End Json.

Module GitHubCollector.

Definition _map_conclusion_to_status (conclusion : option string) : string :=
  if bool_decide (conclusion = Some "success") then "success"
  else if bool_decide (conclusion = Some "failure") then "failure"
  else if bool_decide (conclusion = Some "cancelled") then "cancelled"
  else "in_progress".

(** A workflow run of the GitHub API, by the keys the collector reads.
    [run.get("created_at")] is [None] for an absent key or a null; a text is
    held by the datetime it denotes ([fromisoformat] after the replacement of
    Z, and the ingestion schema when it decodes the body), [Some None] for a
    text that denotes none, the empty one included.  [run_number] is held
    by the text [str] gives of it. *)
Record Run : Type := {
  name : Json.member string;
  head_branch : Json.member string;
  conclusion : Json.member string;
  created_at : option (option datetime);
  updated_at : option (option datetime);
  html_url : option string;
  run_number : Json.member string
}.

(** The JSON body the collector posts to the dashboard; [None] is null. *)
Record Body : Type := {
  pipeline : option string;
  repo : string;
  branch : option string;
  status : string;
  started_at : option (option datetime);
  completed_at : option (option datetime);
  duration_seconds : option float;
  url : option string;
  logs : string
}.

Definition _calculate_duration (run : Run) : option float :=
  match created_at run, updated_at run with
  | Some created, Some updated =>
      match created, updated with
      | Some start, Some end_ =>
          match datetime_sub end_ start with
          | inr td => Some (total_seconds td)
          | inl _ => None          (* [except (ValueError, TypeError)] *)
          end
      | _, _ => None               (* [not created_at], or [ValueError] *)
      end
  | _, _ => None
  end.

Definition transform_workflow_run (run : Run) (repo_name : string) : Body :=
  {| pipeline := Json.get_or "unknown" (name run);
     repo := repo_name;
     branch := Json.get_or "main" (head_branch run);
     status := _map_conclusion_to_status (Json.get (conclusion run));
     started_at := created_at run;
     completed_at := updated_at run;
     duration_seconds := _calculate_duration run;
     url := html_url run;
     logs := "GitHub Actions run #" +:+ Json.fstr (Json.get_or "unknown" (run_number run))
             +:+ " - " +:+ Json.fstr (Json.get_or "unknown" (conclusion run)) |}.

(** [run.get("conclusion") in ["success", "failure", "cancelled"]]. *)
Definition is_completed (run : Run) : bool :=
  bool_decide (Json.get (conclusion run) = Some "success")
  || bool_decide (Json.get (conclusion run) = Some "failure")
  || bool_decide (Json.get (conclusion run) = Some "cancelled").

(** The inner loop of [collect_organization_data] over the runs of one
    repository.  [send n data] tells whether the request number [n] of
    the collection, carrying [data], was answered with success
    ([send_to_dashboard]); [posted] is the log of the bodies sent so far
    and [total_runs] the counter of the source. *)
Fixpoint collect_runs (send : nat -> Body -> bool) (repo_name : string)
    (runs : list Run) (posted : list Body) (total_runs : nat) : list Body * nat :=
  match runs with
  | [] => (posted, total_runs)
  | run :: rest =>
      if is_completed run then
        let data := transform_workflow_run run repo_name in
        collect_runs send repo_name rest (posted ++ [data])
          (if send (length posted) data then S total_runs else total_runs)
      else collect_runs send repo_name rest posted total_runs
  end.

(** The outer loop, over the repositories (by their [full_name]) with the
    runs fetched for each ([get_repositories], [get_workflow_runs]; a failed
    fetch is an empty list). *)
Fixpoint collect_repos (send : nat -> Body -> bool)
    (repos : list (string * list Run)) (posted : list Body) (total_runs : nat)
    : list Body * nat :=
  match repos with
  | [] => (posted, total_runs)
  | (repo_name, runs) :: rest =>
      let '(posted', total_runs') := collect_runs send repo_name runs posted total_runs in
      collect_repos send rest posted' total_runs'
  end.

Definition collect_organization_data (send : nat -> Body -> bool)
    (repos : list (string * list Run)) : list Body * nat :=
  collect_repos send repos [] 0%nat.

(** The body as the ingestion endpoint decodes it, when every field holds a
    value of the declared type or is absent: a null [pipeline], [branch] or
    [started_at] and a timestamp text that denotes no datetime have no
    decoded body (the endpoint refuses them); a null [completed_at] is the
    default of the field. *)
Definition decoded (data : Body) : option Schemas.Payload :=
  pl ← pipeline data;
  br ← branch data;
  started ← started_at data ≫= id;
  completed ← match completed_at data with
              | None => Some None
              | Some None => None
              | Some (Some d) => Some (Some d)
              end;
  Some {| Schemas.raw_pipeline := Some pl;
          Schemas.raw_repo := Some (repo data);
          Schemas.raw_branch := Some br;
          Schemas.raw_status := Some (status data);
          Schemas.raw_started_at := Some started;
          Schemas.raw_completed_at := completed;
          Schemas.raw_duration_seconds := duration_seconds data;
          Schemas.raw_url := url data;
          Schemas.raw_logs := Some (logs data) |}.

End GitHubCollector.

Module JenkinsCollector.

Definition _map_result_to_status (result : option string) : string :=
  if bool_decide (result = Some "SUCCESS") then "success"
  else if bool_decide (result = Some "FAILURE") then "failure"
  else if bool_decide (result = Some "ABORTED") then "cancelled"
  else "in_progress".

(** A build of the Jenkins API, by the keys the collector reads.  The
    messages of [changeSet.items] are listed, [None] for an item without
    [msg]; an absent [changeSet] or [items] lists none.  [number] is held by
    the text [str] gives of it. *)
Record JBuild : Type := {
  number : Json.member string;
  build_url : option string;
  result_ : Json.member string;
  timestamp : option Z;
  duration : Json.member Z;
  changeSet_items : list (option string)
}.

(** The JSON body the collector posts; a timestamp text is the [isoformat]
    of an aware datetime, held by that datetime. *)
Record Body : Type := {
  pipeline : string;
  repo : string;
  branch : string;
  status : string;
  started_at : datetime;
  completed_at : datetime;
  duration_seconds : option float;
  url : option string;
  logs : string
}.

(** What [transform_build] raises: [TypeError] for an operand [None] of the
    sum of timestamp and duration, and the error of [fromtimestamp] for an
    instant outside of years 1 to 9999 ([ValueError], [OverflowError] or
    [OSError], by how far outside). *)
Inductive error : Type :=
  | NoneOperand
  | OutOfRange.

Definition _extract_repo_info (build : JBuild) : string * string :=
  match changeSet_items build with
  | first_item :: _ =>
      let msg := default "" first_item in
      if Py.contains msg "github.com" || Py.contains msg "gitlab.com"
      then ("extracted-from-commit", "main")
      else ("unknown", "main")
  | [] => ("unknown", "main")
  end.

(** 1970-01-01 is day 719163 of the calendar. *)
Definition EPOCH_US : Z := 719162 * US_PER_DAY.

(** [modf]: the integral part of a float, towards zero. *)
Definition trunc (x : float) : Z :=
  if Qle_bool 0 x then Qfloor x else Qceiling x.

(** [datetime.fromtimestamp(t, tz=timezone.utc)]: the fractional part is
    scaled to microseconds in floating point and rounded half to even, with
    a carry into the seconds. *)
Definition fromtimestamp_utc (t : float) : error + datetime :=
  let intpart := trunc t in
  let floatpart := fmul (t - inject_Z intpart)%Q (inject_Z US_PER_SECOND) in
  let us := rne (Qnum floatpart) (Qden floatpart) in
  let '(secs, us) :=
    if US_PER_SECOND <=? us then (intpart + 1, us - US_PER_SECOND)
    else if us <? 0 then (intpart - 1, us + US_PER_SECOND)
    else (intpart, us) in
  let total := EPOCH_US + secs * US_PER_SECOND + us in
  if (0 <=? total) && (total <=? DT_MAX_US)
  then inr (mk_datetime total true) else inl OutOfRange.

(** [now] is the clock, in microseconds, at the time of the call. *)
Definition _timestamp_to_iso (now : Z) (timestamp : option Z) : error + datetime :=
  match timestamp with
  | None | Some 0 => inr (mk_datetime now true)
  | Some ts => fromtimestamp_utc (int_truediv ts 1000)
  end.

Definition _duration_to_seconds (duration : option Z) : option float :=
  match duration with
  | None => None
  | Some d => Some (fdiv (of_Z d) (inject_Z 1000))
  end.

(** [now] and [now'] are the clock at the two calls of
    [_timestamp_to_iso]. *)
Definition transform_build (now now' : Z) (build : JBuild) (job_name : string)
    : error + Body :=
  let repo_info := _extract_repo_info build in
  match _timestamp_to_iso now (timestamp build) with
  | inl e => inl e
  | inr started =>
      match timestamp build, Json.get_or 0 (duration build) with
      | Some ts, Some d =>
          match _timestamp_to_iso now' (Some (ts + d)) with
          | inl e => inl e
          | inr completed =>
              inr {| pipeline := job_name;
                     repo := repo_info.1;
                     branch := repo_info.2;
                     status := _map_result_to_status (Json.get (result_ build));
                     started_at := started;
                     completed_at := completed;
                     duration_seconds := _duration_to_seconds (Json.get (duration build));
                     url := build_url build;
                     logs := "Jenkins build #"
                             +:+ Json.fstr (Json.get_or "unknown" (number build))
                             +:+ " - "
                             +:+ Json.fstr (Json.get_or "unknown" (result_ build)) |}
          end
      | _, _ => inl NoneOperand
      end
  end.

(** [build.get("result") in ["SUCCESS", "FAILURE", "ABORTED"]]. *)
Definition is_completed (build : JBuild) : bool :=
  bool_decide (Json.get (result_ build) = Some "SUCCESS")
  || bool_decide (Json.get (result_ build) = Some "FAILURE")
  || bool_decide (Json.get (result_ build) = Some "ABORTED").

(** The inner loop of [collect_jenkins_data] over the builds of one job.
    [clock n] is the clock at the call number [n] of [_timestamp_to_iso],
    [send n data] tells whether the request number [n] was answered with
    success, [posted] is the log of the bodies sent so far.  An error of
    [transform_build] ends the collection. *)
Fixpoint collect_builds (clock : nat -> Z) (send : nat -> Body -> bool)
    (job_name : string) (builds : list JBuild) (posted : list Body)
    (total_builds : nat) : list Body * (error + nat) :=
  match builds with
  | [] => (posted, inr total_builds)
  | build :: rest =>
      if is_completed build then
        let n := length posted in
        match transform_build (clock (2 * n)%nat) (clock (2 * n + 1)%nat) build job_name with
        | inl e => (posted, inl e)
        | inr data =>
            collect_builds clock send job_name rest (posted ++ [data])
              (if send n data then S total_builds else total_builds)
        end
      else collect_builds clock send job_name rest posted total_builds
  end.

Fixpoint collect_jobs (clock : nat -> Z) (send : nat -> Body -> bool)
    (jobs : list (string * list JBuild)) (posted : list Body)
    (total_builds : nat) : list Body * (error + nat) :=
  match jobs with
  | [] => (posted, inr total_builds)
  | (job_name, builds) :: rest =>
      match collect_builds clock send job_name builds posted total_builds with
      | (posted', inr total_builds') =>
          collect_jobs clock send rest posted' total_builds'
      | stopped => stopped
      end
  end.

Definition collect_jenkins_data (clock : nat -> Z) (send : nat -> Body -> bool)
    (jobs : list (string * list JBuild)) : list Body * (error + nat) :=
  collect_jobs clock send jobs [] 0%nat.

(** The body as the ingestion endpoint decodes it. *)
Definition decoded (data : Body) : Schemas.Payload :=
  {| Schemas.raw_pipeline := Some (pipeline data);
     Schemas.raw_repo := Some (repo data);
     Schemas.raw_branch := Some (branch data);
     Schemas.raw_status := Some (status data);
     Schemas.raw_started_at := Some (started_at data);
     Schemas.raw_completed_at := Some (completed_at data);
     Schemas.raw_duration_seconds := duration_seconds data;
     Schemas.raw_url := url data;
     Schemas.raw_logs := Some (logs data) |}.

End JenkinsCollector.

(** ** The handler monad *)

(** A socket is known by its identity. *)
Definition WebSocket := nat.

(** The JSON message of a [build_ingested] notification. *)
Record Message : Type := {
  msg_event : string;
  msg_pipeline : string;
  msg_repo : string;
  msg_status : string;
  msg_provider : string
}.

(** What a handler does to the outside world, in the order it does it. *)
Inductive Effect : Type :=
  | Committed (b : Build)
  | Alerted (pipeline repo url logs : string)
  | Accepted (ws : WebSocket)
  | Delivered (ws : WebSocket) (m : Message).

(** What the outside world does to a handler. *)
Record Env : Type := {
  now : datetime;                    (* [datetime.now(timezone.utc)] *)
  now_later : datetime;              (* the same, at a second reading *)
  db_now : Z;                        (* [CURRENT_TIMESTAMP] of the database:
                                        whole seconds, as a wall clock *)
  store_up : bool;                   (* the database accepts a commit *)
  accept_fails : WebSocket -> bool;  (* [accept] raises on this socket *)
  send_fails : WebSocket -> bool;    (* [send_json] raises on this socket *)
  getenv : string -> option string;  (* [os.getenv] *)
  slack_post : string -> option Z;   (* the status code of a request to the
                                        Slack webhook, [None] when the
                                        request raises *)
  smtp_session : string -> Z -> bool -> bool
                                     (* an SMTP session with this host and
                                        port, with or without login, runs
                                        without an exception *)
}.

Record State : Type := {
  db_rows : list Build;       (* table [builds], in insertion order *)
  active : list WebSocket;    (* [manager.active] *)
  trace : list Effect
}.

Definition M (A : Type) : Type := Env -> State -> result A * State.

#[global] Instance M_ret : MRet M := fun A a _ s => (ok a, s).
#[global] Instance M_bind : MBind M := fun A B k m E s =>
  match m E s with
  | (inl e, s') => (inl e, s')
  | (inr a, s') => k a E s'
  end.

Definition throw {A} (e : exn) : M A := fun _ s => (raise e, s).
Definition lift {A} (r : result A) : M A := fun _ s => (r, s).
Definition ask : M Env := fun E s => (ok E, s).
Definition get : M State := fun _ s => (ok s, s).
Definition put (s : State) : M unit := fun _ _ => (ok tt, s).
Definition emit (e : Effect) : M unit := fun _ s =>
  (ok tt, {| db_rows := db_rows s; active := active s; trace := trace s ++ [e] |}).

(** [try: m except Exception as e: h e]. *)
Definition try_except {A} (m : M A) (h : exn -> M A) : M A := fun E s =>
  match m E s with
  | (inl e, s') => h e E s'
  | (inr a, s') => (inr a, s')
  end.

(** ** dipesh/backend/ws.py *)

Module Ws.

(** [l.remove(x)]: drops the first entry equal to [x]. *)
Fixpoint list_remove (x : WebSocket) (l : list WebSocket) : list WebSocket :=
  match l with
  | [] => []
  | y :: l' => if decide (x = y) then l' else y :: list_remove x l'
  end.

Definition set_active (l : list WebSocket) : M unit :=
  s ← get;
  put {| db_rows := db_rows s; active := l; trace := trace s |}.

(** The transport: [websocket.accept()] and [websocket.send_json(message)]. *)
Definition accept (websocket : WebSocket) : M unit :=
  E ← ask;
  if accept_fails E websocket then throw TransportError
  else emit (Accepted websocket).

Definition send_json (websocket : WebSocket) (message : Message) : M unit :=
  E ← ask;
  if send_fails E websocket then throw TransportError
  else emit (Delivered websocket message).

Definition connect (websocket : WebSocket) : M unit :=
  accept websocket;;
  s ← get;
  set_active (active s ++ [websocket]).

Definition disconnect (websocket : WebSocket) : M unit :=
  s ← get;
  if bool_decide (websocket ∈ active s)
  then set_active (list_remove websocket (active s))
  else mret tt.

(** First loop of [broadcast]: one send per entry, a failed one is noted
    in [to_drop]. *)
Fixpoint send_each (message : Message) (l : list WebSocket)
    (to_drop : list WebSocket) : M (list WebSocket) :=
  match l with
  | [] => mret to_drop
  | ws :: l' =>
      to_drop' ← try_except (send_json ws message;; mret to_drop)
                            (fun _ => mret (to_drop ++ [ws]));
      send_each message l' to_drop'
  end.

(** Second loop of [broadcast]. *)
Fixpoint disconnect_each (to_drop : list WebSocket) : M unit :=
  match to_drop with
  | [] => mret tt
  | ws :: l' => disconnect ws;; disconnect_each l'
  end.

Definition broadcast (message : Message) : M unit :=
  s ← get;
  to_drop ← send_each message (active s) [];
  disconnect_each to_drop.

End Ws.

(** ** dipesh/backend/alerting.py *)

Module Alerting.

(** The variables the module reads from the environment; [None] is an
    unset variable. *)
Record Environ : Type := {
  ALERT_SLACK_WEBHOOK : option string;
  SMTP_HOST : option string;
  SMTP_PORT : option string;
  SMTP_USER : option string;
  SMTP_PASS : option string;
  ALERT_EMAIL_FROM : option string;
  ALERT_EMAIL_TO : option string
}.

(** The truth value of an optional text. *)
Definition truthy (v : option string) : bool :=
  match v with
  | Some s => negb (String.eqb s "")
  | None => false
  end.

(** The answer to the request to the Slack webhook: a status code, or an
    exception of the request. *)
Inductive Reply : Type :=
  | Status (code : Z)
  | Failed.

Definition _send_slack_alert (env : Environ) (post : string -> Reply) : bool :=
  if negb (truthy (ALERT_SLACK_WEBHOOK env)) then false
  else
    match post (default "" (ALERT_SLACK_WEBHOOK env)) with
    | Status code => code =? 200
    | Failed => false                (* [except Exception] *)
    end.

(** [session host port login] tells whether the SMTP session (connection,
    [starttls], [login] when asked for, [sendmail]) ran without an
    exception.  The port is parsed before the configuration is looked at,
    outside of the [try]. *)
Definition _send_email_alert (env : Environ)
    (session : string -> Z -> bool -> bool) : result bool :=
  smtp_port ← Py.int (default "587" (SMTP_PORT env));
  if negb (truthy (SMTP_HOST env) && truthy (ALERT_EMAIL_FROM env)
           && truthy (ALERT_EMAIL_TO env))
  then ok false
  else ok (session (default "" (SMTP_HOST env)) smtp_port
                   (truthy (SMTP_USER env) && truthy (SMTP_PASS env))).

(** The sending part of [alert_failure]: what was sent by Slack and by
    email. *)
Definition send_alerts (env : Environ) (post : string -> Reply)
    (session : string -> Z -> bool -> bool) : result (bool * bool) :=
  let slack_sent := _send_slack_alert env post in
  email_sent ← _send_email_alert env session;
  ok (slack_sent, email_sent).

(** The variables as [os.getenv] gives them; the Slack webhook is read
    when the module is loaded and the others at each call, from an
    environment that does not change in between. *)
Definition environ (getenv : string -> option string) : Environ :=
  {| ALERT_SLACK_WEBHOOK := getenv "ALERT_SLACK_WEBHOOK";
     SMTP_HOST := getenv "SMTP_HOST";
     SMTP_PORT := getenv "SMTP_PORT";
     SMTP_USER := getenv "SMTP_USER";
     SMTP_PASS := getenv "SMTP_PASS";
     ALERT_EMAIL_FROM := getenv "ALERT_EMAIL_FROM";
     ALERT_EMAIL_TO := getenv "ALERT_EMAIL_TO" |}.

Definition reply (answer : option Z) : Reply :=
  match answer with
  | Some code => Status code
  | None => Failed
  end.

(** What the sending of an alert comes to in the world of a handler. *)
Definition delivery (E : Env) : result (bool * bool) :=
  send_alerts (environ (getenv E)) (fun url => reply (slack_post E url))
    (smtp_session E).

(** [alert_failure]: the call is recorded, the messages are composed and
    the two channels are tried, Slack first.  The delivery errors are
    handled by the channels; the error of an unreadable [SMTP_PORT] is not,
    and leaves the call. *)
Definition alert_failure (pipeline repo url logs : string) : M unit :=
  emit (Alerted pipeline repo url logs);;
  E ← ask;
  sent ← lift (delivery E);
  mret tt.

End Alerting.

(** ** dipesh/backend/main.py *)

Module Main.

(** [db.add(b); db.commit(); db.refresh(b)]: the row receives its key and
    its insertion timestamp and is read back from the table, where the
    timestamps are kept as wall clocks without offset; or the commit
    raises and nothing is stored. *)
Definition db_add_commit_refresh (b : Build) : M Build :=
  E ← ask;
  s ← get;
  if store_up E then
    let b' := {| Models.id := Some (Z.of_nat (length (db_rows s)) + 1);
                 Models.provider := Models.provider b;
                 Models.pipeline := Models.pipeline b;
                 Models.repo := Models.repo b;
                 Models.branch := Models.branch b;
                 Models.status := Models.status b;
                 Models.started_at := naive (Models.started_at b);
                 Models.completed_at := naive <$> Models.completed_at b;
                 Models.duration_seconds := Models.duration_seconds b;
                 Models.url := Models.url b;
                 Models.logs := Models.logs b;
                 Models.created_at :=
                   Some (mk_datetime (db_now E * US_PER_SECOND) false) |} in
    put {| db_rows := db_rows s ++ [b']; active := active s; trace := trace s |};;
    emit (Committed b');;
    mret b'
  else throw StoreError.

Definition _persist (provider : string) (data : IngestRequest) : M Build :=
  dur ← match Schemas.duration_seconds data, Schemas.completed_at data with
        | None, Some completed =>
            td ← lift (datetime_sub completed (Schemas.started_at data));
            mret (Some (total_seconds td))
        | dur, _ => mret dur
        end;
  db_add_commit_refresh
    {| Models.id := None;
       Models.provider := provider;
       Models.pipeline := Schemas.pipeline data;
       Models.repo := Schemas.repo data;
       Models.branch := Schemas.branch data;
       Models.status := Schemas.status data;
       Models.started_at := Schemas.started_at data;
       Models.completed_at := Schemas.completed_at data;
       Models.duration_seconds := dur;
       Models.url := Schemas.url data;
       Models.logs := Schemas.logs data;
       Models.created_at := None |}.

(** [x or ""]. *)
Definition or_empty (x : option string) : string := default "" x.

Definition build_ingested (b : Build) : Message :=
  {| msg_event := "build_ingested";
     msg_pipeline := Models.pipeline b;
     msg_repo := Models.repo b;
     msg_status := Models.status b;
     msg_provider := Models.provider b |}.

(** The part every ingestion path runs once the row is stored. *)
Definition alert_and_broadcast (b : Build) : M unit :=
  (if bool_decide (Models.status b = "failure")
   then Alerting.alert_failure (Models.pipeline b) (Models.repo b)
          (or_empty (Models.url b)) (or_empty (Models.logs b))
   else mret tt);;
  Ws.broadcast (build_ingested b).

Definition ingest_github (payload : IngestRequest) : M Build :=
  b ← _persist "github" payload;
  alert_and_broadcast b;;
  mret b.

Definition ingest_jenkins (payload : IngestRequest) : M Build :=
  b ← _persist "jenkins" payload;
  alert_and_broadcast b;;
  mret b.

(** The framework validates the body before it calls the handler. *)
Inductive Response (A : Type) : Type :=
  | Ok200 (a : A)
  | Unprocessable422 (errors : list Schemas.FieldError).
Arguments Ok200 {A} a.
Arguments Unprocessable422 {A} errors.

Definition post (handler : IngestRequest -> M Build) (body : Schemas.Payload)
    : M (Response Build) :=
  match Schemas.validate body with
  | inl errors => mret (Unprocessable422 errors)
  | inr payload => b ← handler payload; mret (Ok200 b)
  end.

Definition post_ingest_github : Schemas.Payload -> M (Response Build) :=
  post ingest_github.
Definition post_ingest_jenkins : Schemas.Payload -> M (Response Build) :=
  post ingest_jenkins.

(** *** Webhooks *)

(** The fields the webhook handlers read from the body; [None] is an
    absent key.  Timestamps are held already parsed.  The default of each
    timestamp is computed whether or not the key is there, so the clock is
    read twice. *)
Record WorkflowRun : Type := {
  wr_name : option string;
  wr_conclusion : option string;
  wr_head_branch : option string;
  wr_created_at : option datetime;
  wr_updated_at : option datetime;
  wr_html_url : option string;
  wr_run_number : option string
}.

Record WebhookPayload : Type := {
  wh_action : option string;
  wh_workflow_run : WorkflowRun;
  wh_full_name : option string
}.

Inductive WebhookReply : Type :=
  | Processed
  | Ignored
  | Failed (e : exn).

(** ["success" if workflow_run.get("conclusion") == "success" else "failure"]. *)
Definition webhook_status (conclusion : option string) : string :=
  if bool_decide (conclusion = Some "success") then "success" else "failure".

Definition webhook_request (E : Env) (default_branch : option string)
    (label : string) (payload : WebhookPayload) : IngestRequest :=
  let workflow_run := wh_workflow_run payload in
  {| Schemas.pipeline := default "unknown" (wr_name workflow_run);
     Schemas.repo := default "unknown" (wh_full_name payload);
     Schemas.branch := default "main" default_branch;
     Schemas.status := webhook_status (wr_conclusion workflow_run);
     Schemas.started_at := default (now E) (wr_created_at workflow_run);
     Schemas.completed_at := Some (default (now_later E) (wr_updated_at workflow_run));
     Schemas.duration_seconds := None;
     Schemas.url := wr_html_url workflow_run;
     Schemas.logs := Some (label +:+ default "unknown" (wr_run_number workflow_run)) |}.

Definition webhook_jenkins (payload : WebhookPayload) : M WebhookReply :=
  try_except
    (E ← ask;
     let ingest_data := webhook_request E None "Jenkins build #" payload in
     build ← _persist "jenkins" ingest_data;
     alert_and_broadcast build;;
     mret Processed)
    (fun e => mret (Failed e)).

Definition webhook_github (payload : WebhookPayload) : M WebhookReply :=
  try_except
    (if bool_decide (wh_action payload ≠ Some "completed") then mret Ignored
     else
       E ← ask;
       let ingest_data :=
         webhook_request E (wr_head_branch (wh_workflow_run payload))
           "GitHub Actions run #" payload in
       build ← _persist "github" ingest_data;
       alert_and_broadcast build;;
       mret Processed)
    (fun e => mret (Failed e)).

(** *** Metrics *)

(** Lines 118-122: the default is set first and replaced when the window
    string ends in [h] or [d]. *)
Definition window_delta (window : string) : result timedelta :=
  delta ← timedelta_days 7;
  if Py.endswith_char window "h" then
    n ← Py.int (Py.drop_last window); timedelta_hours n
  else if Py.endswith_char window "d" then
    n ← Py.int (Py.drop_last window); timedelta_days n
  else mret delta.

(** [since = now - delta]. *)
Definition window_since (window : string) (now : datetime) : result datetime :=
  delta ← window_delta window;
  datetime_sub_delta now delta.

(** [select(Build).where(Build.started_at >= since)], in stored order. *)
Definition rows_since (since : datetime) (rows : list Build) : list Build :=
  List.filter (fun r => datetime_geb (Models.started_at r) since) rows.

(** [sum(1 for r in rows if r.status == st)]. *)
Definition count_status (st : string) (rows : list Build) : Z :=
  Z.of_nat (length (List.filter (fun r => bool_decide (Models.status r = st)) rows)).

(** [[r.duration_seconds for r in rows if r.duration_seconds is not None]]. *)
Definition durations_of (rows : list Build) : list float :=
  omap Models.duration_seconds rows.

(** [sum(durations)]: additions from left to right, starting at 0. *)
Definition fsum (durations : list float) : float :=
  fold_left fadd durations 0%Q.

Definition last_by_pipeline_step (last_by_pipeline : gmap string Build) (r : Build)
    : gmap string Build :=
  let key := Models.pipeline r in
  match last_by_pipeline !! key with
  | None => <[key := r]> last_by_pipeline
  | Some prev =>
      if datetime_gtb (Models.started_at r) (Models.started_at prev)
      then <[key := r]> last_by_pipeline
      else last_by_pipeline
  end.

Definition last_by_pipeline (rows : list Build) : gmap string Build :=
  fold_left last_by_pipeline_step rows ∅.

Definition rate (count total : Z) : float :=
  if total =? 0 then 0%Q else fmul (int_truediv count total) 100%Q.

(** Lines 128-147. *)
Definition summarize (window : string) (rows : list Build) : SummaryOut :=
  let total := Z.of_nat (length rows) in
  let succ := count_status "success" rows in
  let fail := count_status "failure" rows in
  let durations := durations_of rows in
  let avg :=
    match durations with
    | [] => None
    | _ => Some (fdiv (fsum durations) (of_Z (Z.of_nat (length durations))))
    end in
  {| Schemas.window := window;
     Schemas.success_rate := rate succ total;
     Schemas.failure_rate := rate fail total;
     Schemas.avg_build_time := avg;
     Schemas.last_status_by_pipeline := Models.status <$> last_by_pipeline rows |}.

(** [GET /metrics/summary]; an omitted query parameter takes the default
    ["7d"] of the signature. *)
Definition metrics_summary (window : option string) : M SummaryOut :=
  let window := default "7d" window in
  E ← ask;
  since ← lift (window_since window (now E));
  s ← get;
  mret (summarize window (rows_since since (db_rows s))).

(** *** Listings *)

(** [desc(Build.started_at)]: the row [a] may stand before the row [b]. *)
Definition started_desc (a b : Build) : Prop :=
  dt_us (Models.started_at b) <= dt_us (Models.started_at a).

#[global] Instance started_desc_dec (a b : Build) : Decision (started_desc a b) :=
  Z_le_dec (dt_us (Models.started_at b)) (dt_us (Models.started_at a)).

(** [ORDER BY started_at DESC]; the order among rows of equal
    [started_at] is the database's choice, here that of a merge sort. *)
Definition order_by_started_at_desc (rows : list Build) : list Build :=
  merge_sort started_desc rows.

(** [LIMIT n]; the bound is sent as a 64-bit integer, which a larger
    one overflows; SQLite reads a negative bound as no bound. *)
Definition sql_limit (limit : Z) (rows : list Build) : result (list Build) :=
  if (- 2 ^ 63 <=? limit) && (limit <? 2 ^ 63) then
    ok (if limit <? 0 then rows else take (Z.to_nat limit) rows)
  else raise OverflowError.

(** [GET /builds]; an omitted [limit] is 50. *)
Definition list_builds (limit : option Z) : M (list Build) :=
  let limit := default 50 limit in
  s ← get;
  lift (sql_limit limit (order_by_started_at_desc (db_rows s))).

(** [if pipeline:] holds for a present, non-empty string. *)
Definition truthy (x : option string) : bool :=
  match x with
  | Some v => negb (bool_decide (v = ""))
  | None => false
  end.

(** [GET /builds/latest]. *)
Definition latest_build (pipeline : option string) : M (option Build) :=
  s ← get;
  let q := db_rows s in
  let q := if truthy pipeline
           then List.filter (fun r => bool_decide (Some (Models.pipeline r) = pipeline)) q
           else q in
  rows ← lift (sql_limit 1 (order_by_started_at_desc q));
  mret (head rows).

(** *** The socket endpoint *)

(** [/ws]: the socket is registered, its texts are read and ignored until
    the transport raises ([texts] are those read before that), and the
    socket is unregistered on the way out.  [connect] stands outside the
    [try]: when [accept] raises, [disconnect] is not reached. *)
Definition websocket_endpoint (ws : WebSocket) (texts : list string) : M unit :=
  Ws.connect ws;;
  Ws.disconnect ws.

End Main.

(** ** Auxiliary definitions: observations, sample data *)

Definition with_trace (s : State) (t : list Effect) : State :=
  {| db_rows := db_rows s; active := active s; trace := t |}.

Definition with_active (s : State) (l : list WebSocket) : State :=
  {| db_rows := db_rows s; active := l; trace := trace s |}.

Definition emitted (s s' : State) : list Effect :=
  drop (length (trace s)) (trace s').

Definition is_delivery_to (ws : WebSocket) (e : Effect) : bool :=
  match e with
  | Delivered ws' _ => bool_decide (ws' = ws)
  | _ => false
  end.

Definition deliveries_to (ws : WebSocket) (t : list Effect) : nat :=
  length (List.filter (is_delivery_to ws) t).

Definition failing (E : Env) (l : list WebSocket) : list WebSocket :=
  List.filter (send_fails E) l.

Definition surviving (E : Env) (l : list WebSocket) : list WebSocket :=
  List.filter (fun ws => negb (send_fails E ws)) l.

Inductive RegistryCall : Type :=
  | Register (ws : WebSocket)
  | Unregister (ws : WebSocket).

Definition registry_call (c : RegistryCall) : M unit :=
  match c with
  | Register ws => Ws.connect ws
  | Unregister ws => Ws.disconnect ws
  end.

Fixpoint registry_calls (l : list RegistryCall) : M unit :=
  match l with
  | [] => mret tt
  | c :: l' => registry_call c;; registry_calls l'
  end.

Definition empty_state : State :=
  {| db_rows := []; active := []; trace := [] |}.

Definition utc (us : Z) : datetime := mk_datetime us true.

(** An environment in which the database is up and no socket fails;
    the clock shows 2025-01-01T00:00:00Z; no alert channel is configured. *)
Definition calm : Env :=
  {| now := utc (739251 * US_PER_DAY);
     now_later := utc (739251 * US_PER_DAY + 1);
     db_now := 739251 * 86400;
     store_up := true;
     accept_fails := fun _ => false;
     send_fails := fun _ => false;
     getenv := fun _ => None;
     slack_post := fun _ => None;
     smtp_session := fun _ _ _ => false |}.

Definition sample_message : Message :=
  {| msg_event := "build_ingested"; msg_pipeline := "ci"; msg_repo := "org/app";
     msg_status := "success"; msg_provider := "github" |}.

(** The duration [_persist] stores. *)
Definition derived_duration (data : IngestRequest) : result (option float) :=
  match Schemas.duration_seconds data, Schemas.completed_at data with
  | None, Some completed =>
      td ← datetime_sub completed (Schemas.started_at data);
      mret (Some (total_seconds td))
  | dur, _ => mret dur
  end.

(** The row [_persist] returns once the commit went through. *)
Definition stored_row (provider : string) (data : IngestRequest)
    (dur : option float) (E : Env) (s : State) : Build :=
  {| Models.id := Some (Z.of_nat (length (db_rows s)) + 1);
     Models.provider := provider;
     Models.pipeline := Schemas.pipeline data;
     Models.repo := Schemas.repo data;
     Models.branch := Schemas.branch data;
     Models.status := Schemas.status data;
     Models.started_at := naive (Schemas.started_at data);
     Models.completed_at := naive <$> Schemas.completed_at data;
     Models.duration_seconds := dur;
     Models.url := Schemas.url data;
     Models.logs := Schemas.logs data;
     Models.created_at := Some (mk_datetime (db_now E * US_PER_SECOND) false) |}.

Definition alerts_in (t : list Effect) : list (string * string * string * string) :=
  omap (fun e => match e with
                 | Alerted p r u l => Some (p, r, u, l)
                 | _ => None
                 end) t.

Definition expected_alerts (b : Build) : list (string * string * string * string) :=
  if bool_decide (Models.status b = "failure")
  then [(Models.pipeline b, Models.repo b,
         Main.or_empty (Models.url b), Main.or_empty (Models.logs b))]
  else [].

(** A request that completes ten seconds before it starts. *)
Definition backwards_request : IngestRequest :=
  {| Schemas.pipeline := "ci"; Schemas.repo := "org/app"; Schemas.branch := "main";
     Schemas.status := "success";
     Schemas.started_at := utc (739251 * US_PER_DAY + 10 * US_PER_SECOND);
     Schemas.completed_at := Some (utc (739251 * US_PER_DAY));
     Schemas.duration_seconds := None;
     Schemas.url := None; Schemas.logs := None |}.

Definition timely_request : IngestRequest :=
  {| Schemas.pipeline := "ci"; Schemas.repo := "org/app"; Schemas.branch := "main";
     Schemas.status := "success";
     Schemas.started_at := utc (739251 * US_PER_DAY);
     Schemas.completed_at := Some (utc (739251 * US_PER_DAY + 120 * US_PER_SECOND));
     Schemas.duration_seconds := None;
     Schemas.url := None; Schemas.logs := None |}.

Definition sample_build (st : string) : Build :=
  {| Models.id := None; Models.provider := "github"; Models.pipeline := "ci";
     Models.repo := "org/app"; Models.branch := "main"; Models.status := st;
     Models.started_at := utc (739251 * US_PER_DAY);
     Models.completed_at := None; Models.duration_seconds := None;
     Models.url := None; Models.logs := None; Models.created_at := None |}.

(** Two successes and nine failures. *)
Definition two_of_eleven : State :=
  {| db_rows := replicate 2 (sample_build "success")
                ++ replicate 9 (sample_build "failure");
     active := []; trace := [] |}.

(** [b], stored at position [i], is the first of the latest events of
    pipeline [p] in [rows]. *)
Definition first_latest (rows : list Build) (p : string) (i : nat) (b : Build) : Prop :=
  rows !! i = Some b
  /\ Models.pipeline b = p
  /\ (forall j r, rows !! j = Some r -> Models.pipeline r = p ->
        dt_us (Models.started_at r) <= dt_us (Models.started_at b))
  /\ (forall j r, (j < i)%nat -> rows !! j = Some r -> Models.pipeline r = p ->
        dt_us (Models.started_at r) < dt_us (Models.started_at b)).

Definition build_at (p st : string) (us : Z) : Build :=
  {| Models.id := None; Models.provider := "github"; Models.pipeline := p;
     Models.repo := "org/app"; Models.branch := "main"; Models.status := st;
     Models.started_at := utc us;
     Models.completed_at := None; Models.duration_seconds := None;
     Models.url := None; Models.logs := None; Models.created_at := None |}.

(** Pipeline A at T (a failure) and at T + 1h (a success), the later one
    stored first. *)
Definition later_first : State :=
  {| db_rows := [build_at "A" "success" (739251 * US_PER_DAY + US_PER_HOUR);
                 build_at "A" "failure" (739251 * US_PER_DAY)];
     active := []; trace := [] |}.

(** The number a string of decimal digits denotes. *)
Definition decimal_value (ds : list ascii) : Z :=
  fold_left (fun acc c => 10 * acc + Py.digit_value c) ds 0.

Definition all_digits (ds : list ascii) : Prop :=
  forall c, c ∈ ds -> Py.is_digit c = true.

(** A body with everything but the pipeline name. *)
Definition no_pipeline : Schemas.Payload :=
  {| Schemas.raw_pipeline := None;
     Schemas.raw_repo := Some "org/app";
     Schemas.raw_branch := Some "main";
     Schemas.raw_status := Some "success";
     Schemas.raw_started_at := Some (utc (739251 * US_PER_DAY));
     Schemas.raw_completed_at := None;
     Schemas.raw_duration_seconds := None;
     Schemas.raw_url := None;
     Schemas.raw_logs := None |}.

Definition full_body : Schemas.Payload :=
  {| Schemas.raw_pipeline := Some "ci";
     Schemas.raw_repo := Some "org/app";
     Schemas.raw_branch := Some "main";
     Schemas.raw_status := Some "success";
     Schemas.raw_started_at := Some (utc (739251 * US_PER_DAY));
     Schemas.raw_completed_at := None;
     Schemas.raw_duration_seconds := None;
     Schemas.raw_url := None;
     Schemas.raw_logs := None |}.

(** A completed GitHub run that timed out. *)
Definition timed_out_run : Main.WebhookPayload :=
  {| Main.wh_action := Some "completed";
     Main.wh_workflow_run :=
       {| Main.wr_name := Some "CI Pipeline";
          Main.wr_conclusion := Some "timed_out";
          Main.wr_head_branch := Some "main";
          Main.wr_created_at := Some (utc (739251 * US_PER_DAY));
          Main.wr_updated_at := Some (utc (739251 * US_PER_DAY + US_PER_HOUR));
          Main.wr_html_url := None;
          Main.wr_run_number := Some "123" |};
     Main.wh_full_name := Some "org/app" |}.

(** The effects of one ingestion that stored [b]: the commit, the alert
    the row calls for, the notifications. *)
(** The error that leaves the alert of a stored row, if any. *)
Definition alert_error (E : Env) (b : Build) : option exn :=
  if bool_decide (Models.status b = "failure") then
    match Alerting.delivery E with
    | inl e => Some e
    | inr _ => None
    end
  else None.

(** The sockets that are sent the notification of a stored row, and the
    registry after that: when the alert raised the broadcast is not
    reached. *)
Definition notified (E : Env) (s : State) (b : Build) : list WebSocket :=
  match alert_error E b with
  | Some _ => []
  | None => surviving E (active s)
  end.

Definition registry_after (E : Env) (s : State) (b : Build) : list WebSocket :=
  match alert_error E b with
  | Some _ => active s
  | None => surviving E (active s)
  end.

Definition ingestion_effects (E : Env) (s : State) (b : Build) : list Effect :=
  Committed b
  :: map (fun '(p, rp, u, l) => Alerted p rp u l) (expected_alerts b)
  ++ map (fun ws => Delivered ws (Main.build_ingested b)) (notified E s b).

(** What a run from [s] to [s'] that stored [stored] has done. *)
Definition alerts_once_after_commit (E : Env) (s s' : State) (stored : option Build)
    : Prop :=
  match stored with
  | Some b =>
      db_rows s' = db_rows s ++ [b]
      /\ emitted s s' = ingestion_effects E s b
      /\ alerts_in (emitted s s') = expected_alerts b
  | None => db_rows s' = db_rows s /\ emitted s s' = []
  end.

(** The rational a finite binary64 value of the kernel stands for. *)
Definition sf_value (f : spec_float) : option Q :=
  match f with
  | S754_zero _ => Some 0%Q
  | S754_finite sign m e =>
      Some (Qred ((if sign then -1 else 1) * inject_Z (Zpos m) * pow2 e))
  | _ => None
  end.

(** [count / total * 100.0] in the kernel's primitive floats. *)
Definition primitive_rate (count total : PrimFloat.float) : spec_float :=
  Prim2SF (PrimFloat.mul (PrimFloat.div count total) 100%float).

(** The registry after the broadcasts of [l], each with the environment it
    runs in. *)
Definition after_broadcasts (l : list (Env * Message)) (s : State) : State :=
  fold_left (fun s em => (Ws.broadcast em.2 em.1 s).2) l s.

(** No send to [ws] fails in any environment of [l]. *)
Definition survives_all (l : list (Env * Message)) (ws : WebSocket) : bool :=
  forallb (fun em => negb (send_fails (em.1 : Env) ws)) l.

(** The status is one of the four names of the data model. *)
Definition canonical_status (st : string) : Prop :=
  st = "success" \/ st = "failure" \/ st = "cancelled" \/ st = "in_progress".


(** An environment in which the database is up and every send fails. *)
Definition stormy : Env :=
  {| now := utc (739251 * US_PER_DAY);
     now_later := utc (739251 * US_PER_DAY + 1);
     db_now := 739251 * 86400;
     store_up := true;
     accept_fails := fun _ => false;
     send_fails := fun _ => true;
     getenv := fun _ => None;
     slack_post := fun _ => None;
     smtp_session := fun _ _ _ => false |}.

Definition two_listeners : State :=
  {| db_rows := []; active := [1%nat; 2%nat]; trace := [] |}.

(** A failure reported through the ingestion endpoint. *)
Definition failed_request : IngestRequest :=
  {| Schemas.pipeline := "ci"; Schemas.repo := "org/app";
     Schemas.branch := "main"; Schemas.status := "failure";
     Schemas.started_at := utc (739251 * US_PER_DAY);
     Schemas.completed_at := None;
     Schemas.duration_seconds := None;
     Schemas.url := None; Schemas.logs := None |}.

Definition canonical_rows (rows : list Build) : Prop :=
  forall b, b ∈ rows -> canonical_status (Models.status b).

(** What a webhook leaves in the table when it answers "success". *)
Definition webhook_row (b : Build) (payload : Main.WebhookPayload) : Prop :=
  (Models.status b = "success" \/ Models.status b = "failure")
  /\ (Models.status b = "success" <->
      Main.wr_conclusion (Main.wh_workflow_run payload) = Some "success")
  /\ Models.pipeline b = default "unknown" (Main.wr_name (Main.wh_workflow_run payload))
  /\ Models.repo b = default "unknown" (Main.wh_full_name payload)
  /\ is_Some (Models.completed_at b)
  /\ is_Some (Models.duration_seconds b).

(** A run that was only requested. *)
Definition requested_run : Main.WebhookPayload :=
  {| Main.wh_action := Some "requested";
     Main.wh_workflow_run :=
       {| Main.wr_name := Some "CI Pipeline";
          Main.wr_conclusion := None;
          Main.wr_head_branch := Some "main";
          Main.wr_created_at := Some (utc (739251 * US_PER_DAY));
          Main.wr_updated_at := Some (utc (739251 * US_PER_DAY));
          Main.wr_html_url := None;
          Main.wr_run_number := Some "123" |};
     Main.wh_full_name := Some "org/app" |}.

(** From [s] to [s'] the table kept its rows and gained at most one. *)
Definition appends_at_most_one (s s' : State) : Prop :=
  db_rows s' = db_rows s \/ exists b, db_rows s' = db_rows s ++ [b].

(** The bodies a collection of GitHub runs is to post: one for each run
    with a terminal conclusion, in the order of the repositories and of
    their runs. *)
Definition terminal_bodies (repos : list (string * list GitHubCollector.Run))
    : list GitHubCollector.Body :=
  concat (map (fun repo =>
                 map (fun run => GitHubCollector.transform_workflow_run run repo.1)
                     (List.filter GitHubCollector.is_completed repo.2))
              repos).

(** How many of the requests [posted], numbered from [n], were answered
    with success. *)
Fixpoint accepted_from {A} (send : nat -> A -> bool) (n : nat) (posted : list A) : nat :=
  match posted with
  | [] => 0
  | data :: rest => (if send n data then 1 else 0) + accepted_from send (S n) rest
  end.

(** A finished run as GitHub reports it, and one still running. *)
Definition finished_run : GitHubCollector.Run :=
  {| GitHubCollector.name := Json.Given "CI Pipeline";
     GitHubCollector.head_branch := Json.Given "main";
     GitHubCollector.conclusion := Json.Given "failure";
     GitHubCollector.created_at := Some (Some (utc (739251 * US_PER_DAY)));
     GitHubCollector.updated_at :=
       Some (Some (utc (739251 * US_PER_DAY + 90 * US_PER_SECOND)));
     GitHubCollector.html_url := None;
     GitHubCollector.run_number := Json.Given "123" |}.

Definition running_run : GitHubCollector.Run :=
  {| GitHubCollector.name := Json.Given "CI Pipeline";
     GitHubCollector.head_branch := Json.Given "main";
     GitHubCollector.conclusion := Json.Null;
     GitHubCollector.created_at := Some (Some (utc (739251 * US_PER_DAY)));
     GitHubCollector.updated_at := Some (Some (utc (739251 * US_PER_DAY)));
     GitHubCollector.html_url := None;
     GitHubCollector.run_number := Json.Given "124" |}.

(** The body posted for [finished_run], decoded. *)
Definition finished_body : Schemas.Payload :=
  {| Schemas.raw_pipeline := Some "CI Pipeline";
     Schemas.raw_repo := Some "org/app";
     Schemas.raw_branch := Some "main";
     Schemas.raw_status := Some "failure";
     Schemas.raw_started_at := Some (utc (739251 * US_PER_DAY));
     Schemas.raw_completed_at :=
       Some (utc (739251 * US_PER_DAY + 90 * US_PER_SECOND));
     Schemas.raw_duration_seconds := Some 90%Q;
     Schemas.raw_url := None;
     Schemas.raw_logs := Some "GitHub Actions run #123 - failure" |}.

(** A build Jenkins reports as failed, started 2025-01-01T00:00:00Z, which
    ran for a minute and a half; and one of which Jenkins gave no start. *)
Definition failed_build : JenkinsCollector.JBuild :=
  {| JenkinsCollector.number := Json.Given "17";
     JenkinsCollector.build_url := None;
     JenkinsCollector.result_ := Json.Given "FAILURE";
     JenkinsCollector.timestamp := Some 1735689600000;
     JenkinsCollector.duration := Json.Given 90000;
     JenkinsCollector.changeSet_items := [Some "Merge https://github.com/org/app#12"] |}.

Definition undated_build : JenkinsCollector.JBuild :=
  {| JenkinsCollector.number := Json.Given "18";
     JenkinsCollector.build_url := None;
     JenkinsCollector.result_ := Json.Given "SUCCESS";
     JenkinsCollector.timestamp := None;
     JenkinsCollector.duration := Json.Given 90000;
     JenkinsCollector.changeSet_items := [] |}.

(** A clock that stands at 2025-01-01T00:00:00Z, and a dashboard that
    answers every request with success. *)
Definition still_clock (n : nat) : Z := 739251 * US_PER_DAY.
Definition always_accepted {A} (n : nat) (data : A) : bool := true.

(** An environment without any alert channel configured, but for a port
    that is no number. *)
Definition bad_port : Alerting.Environ :=
  {| Alerting.ALERT_SLACK_WEBHOOK := None;
     Alerting.SMTP_HOST := None;
     Alerting.SMTP_PORT := Some "smtp";
     Alerting.SMTP_USER := None;
     Alerting.SMTP_PASS := None;
     Alerting.ALERT_EMAIL_FROM := None;
     Alerting.ALERT_EMAIL_TO := None |}.

(** The three settings without which no email is sent. *)
Definition email_configured (env : Alerting.Environ) : bool :=
  Alerting.truthy (Alerting.SMTP_HOST env)
  && Alerting.truthy (Alerting.ALERT_EMAIL_FROM env)
  && Alerting.truthy (Alerting.ALERT_EMAIL_TO env).

(** The environment [calm] with a port for the mail that is no number. *)
Definition misconfigured : Env :=
  {| now := now calm; now_later := now_later calm; db_now := db_now calm;
     store_up := true;
     accept_fails := fun _ => false;
     send_fails := fun _ => false;
     getenv := fun name => if String.eqb name "SMTP_PORT" then Some "smtp" else None;
     slack_post := fun _ => None;
     smtp_session := fun _ _ _ => false |}.

(** The environment [calm] a week later: 2025-01-08T00:00:00Z. *)
Definition next_week : Env :=
  {| now := utc (739258 * US_PER_DAY);
     now_later := utc (739258 * US_PER_DAY + 1);
     db_now := 739258 * 86400;
     store_up := true;
     accept_fails := fun _ => false;
     send_fails := fun _ => false;
     getenv := fun _ => None;
     slack_post := fun _ => None;
     smtp_session := fun _ _ _ => false |}.

(** A failure that started at 2025-01-01T04:00:00+05:30, which is
    2024-12-31T22:30:00Z. *)
Definition offset_request : IngestRequest :=
  {| Schemas.pipeline := "ci"; Schemas.repo := "org/app";
     Schemas.branch := "main"; Schemas.status := "failure";
     Schemas.started_at :=
       mk_datetime_tz (739251 * US_PER_DAY + 4 * US_PER_HOUR) true
         (19800 * US_PER_SECOND);
     Schemas.completed_at := None;
     Schemas.duration_seconds := None;
     Schemas.url := None; Schemas.logs := None |}.

(** * Properties *)

(** ** Running a handler *)

Lemma state_eta (s : State) :
  {| db_rows := db_rows s; active := active s; trace := trace s |} = s.
Proof. by destruct s. Qed.

Lemma bind_ok {A B} (m : M A) (k : A -> M B) E s a s' :
  m E s = (ok a, s') -> (m ≫= k) E s = k a E s'.
Proof. intros H. unfold mbind, M_bind. by rewrite H. Qed.

Lemma bind_raise {A B} (m : M A) (k : A -> M B) E s e s' :
  m E s = (raise e, s') -> (m ≫= k) E s = (raise e, s').
Proof. intros H. unfold mbind, M_bind. by rewrite H. Qed.

Ltac run :=
  unfold mbind, mret, M_bind, M_ret, ask, get, put, emit, throw, lift,
    try_except, ok, raise; simpl.

(** ** The registry *)

Section Registry.

Variable E : Env.

Lemma send_each_run (message : Message) (l to_drop : list WebSocket) (s : State) :
  Ws.send_each message l to_drop E s =
    (ok (to_drop ++ failing E l),
     with_trace s (trace s ++ map (fun ws => Delivered ws message) (surviving E l))).
Proof.
  revert to_drop s. induction l as [|ws l IH]; intros to_drop s.
  - simpl. run. rewrite !app_nil_r. unfold with_trace. by rewrite state_eta.
  - simpl. unfold failing, surviving in *.
    unfold mbind at 1, M_bind at 1.
    unfold try_except, Ws.send_json. run.
    destruct (send_fails E ws) eqn:Hf; simpl.
    + rewrite IH. simpl. by rewrite <- app_assoc.
    + rewrite IH. simpl. unfold with_trace. simpl.
      by rewrite <- app_assoc.
Qed.

Lemma list_remove_middle (x : WebSocket) (pre l : list WebSocket) :
  x ∉ pre -> Ws.list_remove x (pre ++ x :: l) = pre ++ l.
Proof.
  induction pre as [|y pre IH]; intros Hx; simpl.
  - by rewrite decide_True.
  - rewrite decide_False by (intros ->; apply Hx; left).
    f_equal. apply IH. intros H. apply Hx. by right.
Qed.

Lemma disconnect_each_run (l pre : list WebSocket) (s : State) :
  (forall ws, ws ∈ pre -> send_fails E ws = false) ->
  active s = pre ++ l ->
  Ws.disconnect_each (failing E l) E s =
    (ok tt, with_active s (pre ++ surviving E l)).
Proof.
  revert pre s. induction l as [|ws l IH]; intros pre s Hpre Hs.
  - simpl. run. unfold with_active. rewrite <- Hs. by rewrite state_eta.
  - simpl. unfold failing, surviving in *. destruct (send_fails E ws) eqn:Hf; simpl.
    + unfold mbind at 1, M_bind at 1. unfold Ws.disconnect, Ws.set_active. run.
      rewrite Hs. rewrite bool_decide_true by set_solver.
      rewrite list_remove_middle.
      2:{ intros Hin. specialize (Hpre _ Hin). congruence. }
      rewrite (IH pre); [done| done | done].
    + rewrite (IH (pre ++ [ws])).
      * by rewrite <- app_assoc.
      * intros x [Hx | Hx%list_elem_of_singleton]%elem_of_app; [by apply Hpre | by subst].
      * by rewrite <- app_assoc.
Qed.

(** What one call of [broadcast] does: it returns normally, delivers to
    every entry whose send succeeds, in order, and keeps exactly those
    entries registered. *)
Lemma broadcast_run (message : Message) (s : State) :
  Ws.broadcast message E s =
    (ok tt,
     {| db_rows := db_rows s;
        active := surviving E (active s);
        trace := trace s ++
          map (fun ws => Delivered ws message) (surviving E (active s)) |}).
Proof.
  unfold Ws.broadcast.
  unfold mbind at 1, M_bind at 1. unfold get at 1. simpl.
  unfold mbind at 1, M_bind at 1. rewrite send_each_run. simpl.
  rewrite (disconnect_each_run (active s) []); [done | | done].
  intros ws Hws. by apply elem_of_nil in Hws.
Qed.

End Registry.

Lemma emitted_app (s s' : State) (t : list Effect) :
  trace s' = trace s ++ t -> emitted s s' = t.
Proof. intros H. unfold emitted. rewrite H. apply drop_app_length. Qed.

Lemma broadcast_emitted (E : Env) (message : Message) (s : State) :
  emitted s (Ws.broadcast message E s).2 =
    map (fun ws => Delivered ws message) (surviving E (active s)).
Proof. rewrite broadcast_run. by apply emitted_app. Qed.

Lemma broadcast_active (E : Env) (message : Message) (s : State) :
  active (Ws.broadcast message E s).2 = surviving E (active s).
Proof. by rewrite broadcast_run. Qed.

Lemma elem_of_surviving (E : Env) (l : list WebSocket) (ws : WebSocket) :
  ws ∈ surviving E l <-> ws ∈ l /\ send_fails E ws = false.
Proof.
  unfold surviving. rewrite !list_elem_of_In, filter_In.
  by rewrite negb_true_iff.
Qed.

Lemma failing_surviving_length (E : Env) (l : list WebSocket) :
  (length (failing E l) + length (surviving E l))%nat = length l.
Proof.
  unfold failing, surviving. induction l as [|ws l IH]; simpl; [done|].
  destruct (send_fails E ws); simpl; lia.
Qed.

(** C6: a broadcast over the registered sockets, of which those in the set
    K (the sockets on which [send_json] raises) fail, returns normally;
    every socket outside K receives the message and stays registered;
    every socket of K is dropped from the registry, which is left with
    N - |K| entries; and a later broadcast delivers only to sockets that
    were registered and outside K, to all N - |K| of them when no send
    fails. *)
Theorem C6_broadcast_isolates_failures (E : Env) (message : Message) (s : State) :
  let r := Ws.broadcast message E s in
  r.1 = ok tt
  /\ (forall ws, ws ∈ active s -> send_fails E ws = false ->
        Delivered ws message ∈ emitted s r.2 /\ ws ∈ active r.2)
  /\ (forall ws, send_fails E ws = true ->
        (ws ∉ active r.2) /\ (Delivered ws message ∉ emitted s r.2))
  /\ (length (active r.2) = length (active s) - length (failing E (active s)))%nat
  /\ (forall E2 message2,
        let r2 := Ws.broadcast message2 E2 r.2 in
        r2.1 = ok tt
        /\ (forall ws, Delivered ws message2 ∈ emitted r.2 r2.2 ->
              ws ∈ active s /\ send_fails E ws = false)
        /\ ((forall ws, send_fails E2 ws = false) ->
              emitted r.2 r2.2 =
                map (fun ws => Delivered ws message2) (surviving E (active s))
              /\ length (emitted r.2 r2.2) =
                   (length (active s) - length (failing E (active s)))%nat)).
Proof.
  cbv zeta.
  assert (Hmem : forall (E' : Env) m l ws,
             Delivered ws m ∈ map (fun ws => Delivered ws m) (surviving E' l)
             <-> ws ∈ l /\ send_fails E' ws = false).
  { intros E' m l ws. rewrite list_elem_of_fmap. split.
    - intros (x & [= ->] & Hx). by apply elem_of_surviving.
    - intros H. exists ws. split; [done|]. by apply elem_of_surviving. }
  assert (Hlen : length (surviving E (active s))
                 = (length (active s) - length (failing E (active s)))%nat).
  { pose proof (failing_surviving_length E (active s)). lia. }
  repeat split.
  - by rewrite broadcast_run.
  - rewrite broadcast_emitted. by apply Hmem.
  - rewrite broadcast_active. by apply elem_of_surviving.
  - rewrite broadcast_active, elem_of_surviving. intros [_ ?]. congruence.
  - rewrite broadcast_emitted, Hmem. intros [_ ?]. congruence.
  - by rewrite broadcast_active.
  - by rewrite broadcast_run.
  - rewrite broadcast_emitted in H. apply Hmem in H as [H _].
    rewrite broadcast_active in H. by apply elem_of_surviving in H as [? _].
  - rewrite broadcast_emitted in H. apply Hmem in H as [H _].
    rewrite broadcast_active in H. by apply elem_of_surviving in H as [_ ?].
  - rewrite broadcast_emitted, broadcast_active. f_equal.
    unfold surviving at 1. apply forallb_filter_id.
    apply forallb_forall. intros x _. by rewrite H.
  - rewrite broadcast_emitted, broadcast_active, length_map.
    rewrite <- Hlen. f_equal.
    unfold surviving at 1. apply forallb_filter_id.
    apply forallb_forall. intros x _. by rewrite H.
Qed.

(** ** Registration *)

Lemma connect_run (E : Env) (ws : WebSocket) (s : State) :
  Ws.connect ws E s =
    if accept_fails E ws then (raise TransportError, s)
    else (ok tt, {| db_rows := db_rows s; active := active s ++ [ws];
                    trace := trace s ++ [Accepted ws] |}).
Proof.
  unfold Ws.connect, Ws.accept, Ws.set_active. run.
  by destruct (accept_fails E ws).
Qed.

Lemma disconnect_run (E : Env) (ws : WebSocket) (s : State) :
  Ws.disconnect ws E s =
    (ok tt, with_active s (if bool_decide (ws ∈ active s)
                           then Ws.list_remove ws (active s) else active s)).
Proof.
  unfold Ws.disconnect, Ws.set_active, with_active. run.
  case_bool_decide; simpl; [done|]. by rewrite state_eta.
Qed.

Lemma list_remove_sublist (x : WebSocket) (l : list WebSocket) :
  sublist (Ws.list_remove x l) l.
Proof.
  induction l as [|y l IH]; simpl; [done|].
  case_decide; [by apply sublist_cons | by apply sublist_skip].
Qed.

Lemma list_filter_sublist {A} (f : A -> bool) (l : list A) :
  sublist (List.filter f l) l.
Proof.
  induction l as [|y l IH]; simpl; [done|].
  destruct (f y); [by apply sublist_skip | by apply sublist_cons].
Qed.

Lemma deliveries_to_map (message : Message) (ws : WebSocket) (l : list WebSocket) :
  deliveries_to ws (map (fun ws' => Delivered ws' message) l) = count_occ Nat.eq_dec l ws.
Proof.
  unfold deliveries_to. induction l as [|x l IH]; simpl; [done|].
  destruct (Nat.eq_dec x ws) as [->|Hne].
  - rewrite bool_decide_true by done. simpl. by rewrite IH.
  - rewrite bool_decide_false by done. done.
Qed.

Lemma count_occ_surviving (E : Env) (ws : WebSocket) (l : list WebSocket) :
  count_occ Nat.eq_dec (surviving E l) ws =
    if send_fails E ws then 0%nat else count_occ Nat.eq_dec l ws.
Proof.
  unfold surviving. induction l as [|x l IH]; simpl.
  - by destruct (send_fails E ws).
  - destruct (send_fails E x) eqn:Hx; simpl.
    + destruct (Nat.eq_dec x ws) as [->|Hne]; [by rewrite IH, Hx | done].
    + destruct (Nat.eq_dec x ws) as [->|Hne]; [by rewrite IH, Hx | done].
Qed.

(** C9 (as the code has it): in one call of [broadcast] a socket whose
    send succeeds receives the message once per entry it has in the
    registry, and a failing one never; hence at most once when the
    registry holds no socket twice.  [connect] appends without looking,
    so the registry stays free of repetitions only as long as no socket
    that is still registered is registered again; [disconnect] and
    [broadcast] keep it free of repetitions. *)
Theorem C9_one_delivery_per_registry_entry (E : Env) (message : Message)
    (s : State) (ws : WebSocket) :
  deliveries_to ws (emitted s (Ws.broadcast message E s).2)
    = (if send_fails E ws then 0%nat else count_occ Nat.eq_dec (active s) ws)
  /\ (NoDup (active s) ->
        (deliveries_to ws (emitted s (Ws.broadcast message E s).2) <= 1)%nat)
  /\ (NoDup (active s) -> NoDup (active (Ws.broadcast message E s).2))
  /\ (NoDup (active s) -> NoDup (active (Ws.disconnect ws E s).2))
  /\ (NoDup (active s) -> ws ∉ active s -> NoDup (active (Ws.connect ws E s).2))
  /\ (accept_fails E ws = false ->
        count_occ Nat.eq_dec (active (Ws.connect ws E s).2) ws
          = S (count_occ Nat.eq_dec (active s) ws)).
Proof.
  assert (Hcount : deliveries_to ws (emitted s (Ws.broadcast message E s).2)
    = (if send_fails E ws then 0%nat else count_occ Nat.eq_dec (active s) ws)).
  { by rewrite broadcast_emitted, deliveries_to_map, count_occ_surviving. }
  split; [exact Hcount|]. repeat split.
  - intros Hnd. rewrite Hcount. destruct (send_fails E ws); [lia|].
    rewrite NoDup_ListNoDup in Hnd.
    by apply (proj1 (NoDup_count_occ Nat.eq_dec (active s))).
  - intros Hnd. rewrite broadcast_active.
    eapply sublist_NoDup; [exact Hnd|]. apply list_filter_sublist.
  - intros Hnd. rewrite disconnect_run. simpl.
    case_bool_decide; [|done].
    eapply sublist_NoDup; [exact Hnd | apply list_remove_sublist].
  - intros Hnd Hnin. rewrite connect_run.
    destruct (accept_fails E ws); simpl; [done|].
    apply NoDup_app. repeat split; [done| |apply NoDup_singleton].
    intros x Hx ->%list_elem_of_singleton. contradiction.
  - intros Hacc. rewrite connect_run, Hacc. simpl.
    rewrite count_occ_app. simpl. destruct (Nat.eq_dec ws ws); [|done].
    apply Nat.add_1_r.
Qed.

(** C9 (as stated) fails: a socket registered twice receives one
    broadcast twice. *)
Lemma C9_registered_twice_receives_twice :
  let s := (registry_calls [Register 1%nat; Register 1%nat] calm empty_state).2 in
  active s = [1%nat; 1%nat]
  /\ deliveries_to 1%nat (emitted s (Ws.broadcast sample_message calm s).2) = 2%nat
  /\ ~ (deliveries_to 1%nat (emitted s (Ws.broadcast sample_message calm s).2) <= 1)%nat.
Proof.
  cbv zeta. split; [reflexivity|]. split; [reflexivity|].
  vm_compute. lia.
Qed.

(** ** Rounding *)

Section Rounding.

Local Open Scope Z_scope.

Lemma rne_le (a n : Z) (b : positive) : a <= n * Zpos b -> rne a b <= n.
Proof.
  intros H. unfold rne.
  pose proof (Z.div_mod a (Zpos b) ltac:(lia)) as Hdm.
  pose proof (Z.mod_pos_bound a (Zpos b) ltac:(lia)) as Hr.
  set (q := a / Zpos b) in *. set (r := a mod Zpos b) in *.
  assert (q <= n) by nia.
  destruct (Z.compare_spec (2 * r) (Zpos b)).
  - destruct (Z.even q); [lia|]. nia.
  - lia.
  - nia.
Qed.

Lemma rne_ge (a n : Z) (b : positive) : n * Zpos b <= a -> n <= rne a b.
Proof.
  intros H. unfold rne.
  pose proof (Z.div_mod a (Zpos b) ltac:(lia)) as Hdm.
  pose proof (Z.mod_pos_bound a (Zpos b) ltac:(lia)) as Hr.
  set (q := a / Zpos b) in *. set (r := a mod Zpos b) in *.
  assert (n <= q) by nia.
  destruct (2 * r ?= Zpos b); [destruct (Z.even q)| |]; lia.
Qed.

Lemma rne_exact (n : Z) (b : positive) : rne (n * Zpos b) b = n.
Proof.
  apply Z.le_antisymm; [apply rne_le | apply rne_ge]; lia.
Qed.

(** The binary logarithm is not over-estimated. *)
Lemma ilog2_lower (a k : Z) (b : positive) :
  0 < a -> 0 <= k <= ilog2 a b -> 2 ^ k * Zpos b <= a.
Proof.
  intros Ha [Hk Hkl]. unfold ilog2 in Hkl.
  set (d := Z.log2 a - Z.log2 (Zpos b)) in *.
  destruct (Z.log2_spec a Ha) as [Hla _].
  destruct (Z.log2_spec (Zpos b) ltac:(lia)) as [_ Hlb].
  pose proof (Z.log2_nonneg a) as Hna. pose proof (Z.log2_nonneg (Zpos b)) as Hnb.
  assert (Hpk : 0 < 2 ^ k) by (apply Z.pow_pos_nonneg; lia).
  destruct (Z.ltb_spec (a * 2 ^ Z.max 0 (- d)) (Zpos b * 2 ^ Z.max 0 d)) as [Hlt|Hge].
  - (* k <= d - 1 *)
    assert (Hd : 0 <= d - 1) by lia.
    assert (H1 : 2 ^ Z.log2 a = 2 ^ (d - 1) * 2 ^ Z.succ (Z.log2 (Zpos b))).
    { rewrite <- Z.pow_add_r by lia. f_equal. unfold d. lia. }
    assert (H2 : 2 ^ (d - 1) = 2 ^ k * 2 ^ (d - 1 - k)).
    { rewrite <- Z.pow_add_r by lia. f_equal. lia. }
    assert (0 < 2 ^ (d - 1 - k)) by (apply Z.pow_pos_nonneg; lia).
    assert (0 < 2 ^ (d - 1)) by (apply Z.pow_pos_nonneg; lia).
    nia.
  - rewrite (Z.max_r 0 d), (Z.max_l 0 (- d)) in Hge by lia.
    rewrite Z.pow_0_r in Hge.
    assert (H2 : 2 ^ d = 2 ^ k * 2 ^ (d - k)).
    { rewrite <- Z.pow_add_r by lia. f_equal. lia. }
    assert (0 < 2 ^ (d - k)) by (apply Z.pow_pos_nonneg; lia).
    nia.
Qed.

Lemma cexp_nonpos (a c : Z) (b : positive) :
  0 < a -> a <= c * Zpos b -> c < 2 ^ prec -> cexp a b <= 0.
Proof.
  intros Ha Hc Hc53. unfold cexp, emin.
  destruct (Z.le_gt_cases (ilog2 a b) (prec - 1)) as [|Hbig]; [lia|].
  exfalso.
  pose proof (ilog2_lower a prec b Ha ltac:(unfold prec in *; lia)).
  assert (0 < Zpos b) by lia. nia.
Qed.

Lemma pow2_nonpos_scale (m n e : Z) :
  e <= 0 -> m <= n * 2 ^ (- e) -> (inject_Z m * pow2 e <= inject_Z n)%Q.
Proof.
  intros He H. destruct e as [|p|p]; [| lia |].
  - simpl in *. unfold Qle. simpl. lia.
  - simpl. unfold Qle. simpl.
    change (- Z.neg p) with (Z.pos p) in H.
    rewrite Pos.mul_1_l, Pos2Z.inj_pow. lia.
Qed.

Lemma pow2_nonpos_scale_ge (m n e : Z) :
  e <= 0 -> n * 2 ^ (- e) <= m -> (inject_Z n <= inject_Z m * pow2 e)%Q.
Proof.
  intros He H. destruct e as [|p|p]; [| lia |].
  - simpl in *. unfold Qle. simpl. lia.
  - simpl. unfold Qle. simpl.
    change (- Z.neg p) with (Z.pos p) in H.
    rewrite Pos.mul_1_l, Pos2Z.inj_pow. lia.
Qed.

Lemma round_pos_unfold_nonpos (a : Z) (b : positive) :
  cexp a b <= 0 ->
  round_pos a b = Qred (inject_Z (rne (a * 2 ^ (- cexp a b)) b) * pow2 (cexp a b)).
Proof.
  intros He. unfold round_pos.
  rewrite (Z.max_r 0 (- cexp a b)) by lia.
  rewrite (Z.max_l 0 (cexp a b)) by lia.
  simpl (Z.to_pos (2 ^ 0)). by rewrite Pos.mul_1_r.
Qed.

Lemma round_pos_le (a c : Z) (b : positive) :
  0 < a -> a <= c * Zpos b -> c < 2 ^ prec ->
  (round_pos a b <= inject_Z c)%Q.
Proof.
  intros Ha Hc Hc53.
  pose proof (cexp_nonpos a c b Ha Hc Hc53) as He.
  rewrite round_pos_unfold_nonpos by done. rewrite Qred_correct.
  apply pow2_nonpos_scale; [done|].
  apply rne_le.
  assert (0 < 2 ^ (- cexp a b)) by (apply Z.pow_pos_nonneg; lia). nia.
Qed.

Lemma round_pos_ge (a c : Z) (b : positive) :
  0 < a -> 0 <= c -> c * Zpos b <= a -> cexp a b <= 0 ->
  (inject_Z c <= round_pos a b)%Q.
Proof.
  intros Ha Hc0 Hc He.
  rewrite round_pos_unfold_nonpos by done. rewrite Qred_correct.
  apply pow2_nonpos_scale_ge; [done|].
  apply rne_ge.
  assert (0 < 2 ^ (- cexp a b)) by (apply Z.pow_pos_nonneg; lia). nia.
Qed.

End Rounding.

Section Round64.

Local Open Scope Z_scope.

Lemma pow2_pos (e : Z) : (0 < pow2 e)%Q.
Proof.
  destruct e as [|p|p]; [done| |done].
  unfold pow2, Qlt, inject_Z, Qnum, Qden.
  pose proof (Z.pow_pos_nonneg 2 (Z.pos p) ltac:(lia) ltac:(lia)). lia.
Qed.

Lemma round_pos_nonneg (a : Z) (b : positive) :
  0 <= a -> (0 <= round_pos a b)%Q.
Proof.
  intros Ha. unfold round_pos. rewrite Qred_correct.
  apply Qmult_le_0_compat; [|apply Qlt_le_weak, pow2_pos].
  change 0%Q with (inject_Z 0). rewrite <- Zle_Qle.
  apply rne_ge. assert (0 <= 2 ^ Z.max 0 (- cexp a b)) by (apply Z.pow_nonneg; lia).
  nia.
Qed.

Lemma round64_nonneg (x : Q) : (0 <= x)%Q -> (0 <= round64 x)%Q.
Proof.
  destruct x as [n d]. unfold Qle, round64. simpl. intros Hn.
  destruct n as [|a|a]; [done| |lia].
  apply round_pos_nonneg. lia.
Qed.

Lemma round64_nonpos (x : Q) : (x <= 0)%Q -> (round64 x <= 0)%Q.
Proof.
  destruct x as [n d]. unfold Qle at 1, round64. simpl. intros Hn.
  destruct n as [|a|a]; [done|lia|].
  pose proof (round_pos_nonneg (Z.pos a) d ltac:(lia)) as H.
  apply Qopp_le_compat in H. exact H.
Qed.

(** Rounding does not cross an integer below 2^53. *)
Lemma round64_le (x : Q) (c : Z) :
  0 <= c < 2 ^ prec -> (x <= inject_Z c)%Q -> (round64 x <= inject_Z c)%Q.
Proof.
  intros [Hc0 Hc] Hx.
  destruct x as [n d]. destruct n as [|a|a].
  - unfold round64. simpl. change 0%Q with (inject_Z 0). by rewrite <- Zle_Qle.
  - unfold round64. simpl. apply round_pos_le; [lia| |done].
    unfold Qle in Hx. simpl in Hx. lia.
  - apply Qle_trans with 0%Q.
    + apply round64_nonpos. unfold Qle. simpl. lia.
    + change 0%Q with (inject_Z 0). by rewrite <- Zle_Qle.
Qed.

(** An integer below 2^53 is a float. *)
Lemma round_pos_int (a k : Z) (b : positive) :
  0 < k < 2 ^ prec -> a = k * Zpos b -> round_pos a b = inject_Z k.
Proof.
  intros [Hk0 Hk] ->.
  assert (He : cexp (k * Zpos b) b <= 0) by (apply (cexp_nonpos _ k); [nia|lia|done]).
  rewrite round_pos_unfold_nonpos by done.
  set (e := cexp (k * Z.pos b) b) in *.
  replace (k * Z.pos b * 2 ^ (- e)) with (k * 2 ^ (- e) * Z.pos b) by lia.
  rewrite rne_exact.
  transitivity (Qred (inject_Z k)).
  - apply Qred_complete. destruct e as [|p|p]; [|lia|].
    + simpl. rewrite Z.mul_1_r. apply Qmult_1_r.
    + change (- Z.neg p) with (Z.pos p). simpl. unfold Qeq. simpl.
      rewrite Pos.mul_1_l, Pos2Z.inj_pow. change (Z.pow_pos 2 p) with (2 ^ Z.pos p). lia.
  - apply Qred_identity. simpl. apply Z.gcd_1_r.
Qed.

Lemma round64_int (x : Q) (k : Z) :
  Z.abs k < 2 ^ prec -> (x == inject_Z k)%Q -> round64 x = inject_Z k.
Proof.
  intros Hk Hx. destruct x as [n d]. unfold Qeq in Hx. simpl in Hx.
  rewrite Z.mul_1_r in Hx. unfold round64. simpl.
  destruct n as [|a|a].
  - assert (k = 0) by nia. by subst.
  - apply round_pos_int; [|done]. split; [nia|lia].
  - rewrite (round_pos_int (Z.pos a) (- k) d); [| split; [nia|lia] | lia].
    unfold inject_Z, Qopp. simpl. f_equal. lia.
Qed.

End Round64.

(** ** Persistence *)

Lemma persist_run (provider : string) (data : IngestRequest) (E : Env) (s : State) :
  Main._persist provider data E s =
    match derived_duration data with
    | inl e => (inl e, s)
    | inr dur =>
        if store_up E then
          (ok (stored_row provider data dur E s),
           {| db_rows := db_rows s ++ [stored_row provider data dur E s];
              active := active s;
              trace := trace s ++ [Committed (stored_row provider data dur E s)] |})
        else (raise StoreError, s)
    end.
Proof.
  unfold Main._persist, derived_duration, Main.db_add_commit_refresh, stored_row.
  destruct (Schemas.duration_seconds data) as [d|];
    [|destruct (Schemas.completed_at data) as [c|];
      [destruct (datetime_sub c (Schemas.started_at data)) as [e|td] eqn:Hsub|]];
    run; try rewrite Hsub; simpl; try done; by destruct (store_up E).
Qed.

Lemma alerts_in_deliveries (message : Message) (l : list WebSocket) :
  alerts_in (map (fun ws => Delivered ws message) l) = [].
Proof. induction l; [done|]. simpl. unfold alerts_in in *. simpl. done. Qed.

Lemma alert_failure_run (p r u l : string) (E : Env) (s : State) :
  Alerting.alert_failure p r u l E s =
    (match Alerting.delivery E with
     | inl e => inl e
     | inr _ => ok tt
     end,
     {| db_rows := db_rows s; active := active s;
        trace := trace s ++ [Alerted p r u l] |}).
Proof.
  unfold Alerting.alert_failure. run. by destruct (Alerting.delivery E).
Qed.

Lemma alert_and_broadcast_run (b : Build) (E : Env) (s : State) :
  Main.alert_and_broadcast b E s =
    (match alert_error E b with
     | Some e => inl e
     | None => ok tt
     end,
     {| db_rows := db_rows s;
        active := registry_after E s b;
        trace := trace s
          ++ (if bool_decide (Models.status b = "failure")
              then [Alerted (Models.pipeline b) (Models.repo b)
                      (Main.or_empty (Models.url b)) (Main.or_empty (Models.logs b))]
              else [])
          ++ map (fun ws => Delivered ws (Main.build_ingested b))
                 (notified E s b) |}).
Proof.
  unfold Main.alert_and_broadcast, notified, registry_after, alert_error.
  case_bool_decide.
  - unfold mbind at 1, M_bind at 1. rewrite alert_failure_run.
    destruct (Alerting.delivery E) as [e|sent]; [done|].
    rewrite broadcast_run. simpl. by rewrite <- app_assoc.
  - unfold mbind at 1, M_bind at 1. unfold mret at 1, M_ret at 1. simpl.
    rewrite broadcast_run. by simpl.
Qed.

Lemma ingest_run {A} (f : Build -> A) (provider : string) (data : IngestRequest)
    (E : Env) (s : State) :
  (b ← Main._persist provider data; Main.alert_and_broadcast b;; mret (f b)) E s =
    match derived_duration data with
    | inl e => (inl e, s)
    | inr dur =>
        if store_up E then
          let b := stored_row provider data dur E s in
          (match alert_error E b with
           | Some e => inl e
           | None => ok (f b)
           end,
           {| db_rows := db_rows s ++ [b];
              active := registry_after E s b;
              trace := trace s ++ Committed b ::
                (if bool_decide (Models.status b = "failure")
                 then [Alerted (Models.pipeline b) (Models.repo b)
                         (Main.or_empty (Models.url b)) (Main.or_empty (Models.logs b))]
                 else [])
                ++ map (fun ws => Delivered ws (Main.build_ingested b))
                       (notified E s b) |})
        else (raise StoreError, s)
    end.
Proof.
  unfold mbind at 1, M_bind at 1. rewrite persist_run.
  destruct (derived_duration data) as [e|dur]; [done|].
  destruct (store_up E); [|done].
  unfold ok at 1. cbv beta iota.
  unfold mbind at 1, M_bind at 1. rewrite alert_and_broadcast_run.
  unfold notified, registry_after. cbv zeta. cbn [db_rows active trace].
  destruct (alert_error E _); unfold mret, M_ret, ok; by rewrite <- app_assoc.
Qed.

Lemma alert_error_value (E : Env) (b : Build) (e : exn) :
  alert_error E b = Some e ->
  e = ValueError /\ Models.status b = "failure"
  /\ exists p, getenv E "SMTP_PORT" = Some p /\ Py.int p = raise ValueError.
Proof.
  unfold alert_error. case_bool_decide as Hst; [|done].
  unfold Alerting.delivery, Alerting.send_alerts, Alerting._send_email_alert.
  cbn [Alerting.SMTP_PORT Alerting.environ].
  destruct (getenv E "SMTP_PORT") as [p|] eqn:Hp.
  - simpl (default _ _). destruct (Py.int p) as [e'|port] eqn:Hint.
    + intros [= <-].
      assert (e' = ValueError) as ->.
      { revert Hint. unfold Py.int. cbv zeta.
        match goal with
        | |- match ?x with _ => _ end = _ -> _ => destruct x
        end; [discriminate|by intros [= <-]]. }
      split; [done|]. split; [done|]. by exists p.
    + simpl. by destruct (negb _).
  - simpl. by destruct (negb _).
Qed.

Lemma alerts_in_ingestion_effects (E : Env) (s : State) (b : Build) :
  alerts_in (ingestion_effects E s b) = expected_alerts b.
Proof.
  unfold ingestion_effects, expected_alerts.
  destruct (bool_decide (Models.status b = "failure")).
  - unfold alerts_in. cbn [map app omap list_omap]. f_equal.
    apply alerts_in_deliveries.
  - unfold alerts_in. cbn [map app omap list_omap].
    apply alerts_in_deliveries.
Qed.

Lemma ingest_emitted (E : Env) (s : State) (b : Build) (rows : list Build)
    (sockets : list WebSocket) :
  emitted s
    {| db_rows := rows; active := sockets;
       trace := trace s ++ Committed b ::
         (if bool_decide (Models.status b = "failure")
          then [Alerted (Models.pipeline b) (Models.repo b)
                  (Main.or_empty (Models.url b)) (Main.or_empty (Models.logs b))]
          else [])
         ++ map (fun ws => Delivered ws (Main.build_ingested b)) (notified E s b) |}
  = ingestion_effects E s b.
Proof.
  apply emitted_app. cbn [trace]. unfold ingestion_effects, expected_alerts.
  by destruct (bool_decide (Models.status b = "failure")).
Qed.

(** Every path that stores an event follows the same discipline: the
    event is committed, the alert is called once when its status is
    failure, and the notifications follow unless the alert raised. *)
Lemma ingest_paths_alert_once {A} (f : Build -> A) (provider : string)
    (data : IngestRequest) (E : Env) (s : State) :
  let r := (b ← Main._persist provider data;
            Main.alert_and_broadcast b;; mret (f b)) E s in
  (exists b, (Main._persist provider data E s).1 = ok b
             /\ r.1 = match alert_error E b with
                      | Some e => raise e
                      | None => ok (f b)
                      end
             /\ Models.status b = Schemas.status data
             /\ alerts_once_after_commit E s r.2 (Some b))
  \/ (exists e, (Main._persist provider data E s).1 = raise e
                /\ r.1 = raise e /\ alerts_once_after_commit E s r.2 None).
Proof.
  cbv zeta. rewrite ingest_run, persist_run.
  destruct (derived_duration data) as [e|dur]; cbn [fst snd].
  { right. exists e. repeat split. unfold emitted. by rewrite drop_all. }
  destruct (store_up E); cbv zeta; cbn [fst snd].
  2:{ right. exists StoreError. repeat split. unfold emitted. by rewrite drop_all. }
  left. eexists. split; [reflexivity|]. split; [reflexivity|]. split; [reflexivity|].
  unfold alerts_once_after_commit. rewrite ingest_emitted.
  split; [done|]. split; [done|]. apply alerts_in_ingestion_effects.
Qed.

(** C7: [ingest_github] stores the event first; the run then calls
    [alert_failure] exactly once, with the stored row's pipeline, repo,
    url and logs (an absent url or logs passed as the empty string), when
    the stored status is ["failure"] and not at all otherwise, the call
    coming right after the commit and before the notifications.  The
    handler returns the stored row, unless the alert itself raises (which
    only an unreadable [SMTP_PORT] makes it do, on a failure): the event
    is then stored and alerted once all the same, and no notification is
    sent.  When the event cannot be stored the handler raises and nothing
    is alerted, stored or sent. *)
Theorem C7_alert_once_after_commit (payload : IngestRequest) (E : Env) (s : State) :
  let r := Main.ingest_github payload E s in
  match (Main._persist "github" payload E s).1 with
  | inr b =>
      Models.status b = Schemas.status payload
      /\ db_rows r.2 = db_rows s ++ [b]
      /\ alerts_in (emitted s r.2) = expected_alerts b
      /\ (alerts_in (emitted s r.2) <> [] <-> Models.status b = "failure")
      /\ emitted s r.2 =
           Committed b
           :: map (fun '(p, rp, u, l) => Alerted p rp u l) (expected_alerts b)
           ++ map (fun ws => Delivered ws (Main.build_ingested b)) (notified E s b)
      /\ r.1 = match alert_error E b with
               | Some e => raise e
               | None => ok b
               end
      /\ (forall e, alert_error E b = Some e ->
            e = ValueError /\ Models.status b = "failure" /\ notified E s b = [])
      /\ (alert_error E b = None -> notified E s b = surviving E (active s))
  | inl e => r.1 = raise e /\ emitted s r.2 = [] /\ db_rows r.2 = db_rows s
  end.
Proof.
  cbv zeta. unfold Main.ingest_github.
  destruct (ingest_paths_alert_once (fun b => b) "github" payload E s)
    as [(b & Hp & Hr & Hst & Hrows & Hem & Hal)|(e & Hp & Hr & Hrows & Hem)];
    cbv zeta in *; rewrite Hp.
  - rewrite Hem in *. repeat split; try done.
    + rewrite Hal. unfold expected_alerts. case_bool_decide; [done|]. by intros [].
    + intros Hf. rewrite Hal. unfold expected_alerts. by rewrite bool_decide_true.
    + by apply alert_error_value in H as (? & _).
    + by apply alert_error_value in H as (_ & ? & _).
    + unfold notified. by rewrite H.
    + intros H. unfold notified. by rewrite H.
  - done.
Qed.

Lemma ingest_jenkins_alert_once (payload : IngestRequest) (E : Env) (s : State) :
  let r := Main.ingest_jenkins payload E s in
  (exists b, (Main._persist "jenkins" payload E s).1 = ok b
             /\ r.1 = match alert_error E b with
                      | Some e => raise e
                      | None => ok b
                      end
             /\ Models.status b = Schemas.status payload
             /\ alerts_once_after_commit E s r.2 (Some b))
  \/ (exists e, (Main._persist "jenkins" payload E s).1 = raise e
                /\ r.1 = raise e /\ alerts_once_after_commit E s r.2 None).
Proof. apply (ingest_paths_alert_once (fun b => b)). Qed.

(** The alert can raise: with [SMTP_PORT] set to a text that is no number
    the ingestion of a failure raises [ValueError] after the event is
    stored and the alert called, and the listeners are not notified. *)
Lemma ingest_alert_raises_after_commit :
  exists b s',
    Main.ingest_github failed_request misconfigured two_listeners
      = (raise ValueError, s')
    /\ db_rows s' = [b]
    /\ emitted two_listeners s' = [Committed b; Alerted "ci" "org/app" "" ""]
    /\ active s' = active two_listeners.
Proof. eexists _, _. split; [vm_compute; reflexivity|]. by vm_compute. Qed.

(** The handler of the webhooks keeps what the run has done when it
    catches an error. *)
Lemma try_except_state {A} (m : M A) (h : exn -> A) (E : Env) (s : State) :
  (try_except m (fun e => mret (h e)) E s).2 = (m E s).2.
Proof. unfold try_except. by destruct (m E s) as [[e|a] s']. Qed.

Lemma webhooks_alert_once (payload : Main.WebhookPayload) (E : Env) (s : State) :
  (exists stored,
     alerts_once_after_commit E s (Main.webhook_jenkins payload E s).2 stored)
  /\ (exists stored,
        alerts_once_after_commit E s (Main.webhook_github payload E s).2 stored).
Proof.
  split.
  - unfold Main.webhook_jenkins. rewrite try_except_state.
    unfold mbind at 1, M_bind at 1, ask at 1. unfold ok at 1. cbv beta iota zeta.
    destruct (ingest_paths_alert_once (fun _ => Main.Processed) "jenkins"
                (Main.webhook_request E None "Jenkins build #" payload) E s)
      as [(b & _ & _ & _ & Hb)|(e & _ & _ & Hn)]; cbv zeta in *.
    + by exists (Some b).
    + by exists None.
  - unfold Main.webhook_github. rewrite try_except_state.
    case_bool_decide.
    { exists None. simpl. split; [done|]. unfold emitted. by rewrite drop_all. }
    unfold mbind at 1, M_bind at 1, ask at 1. unfold ok at 1. cbv beta iota zeta.
    destruct (ingest_paths_alert_once (fun _ => Main.Processed) "github"
                (Main.webhook_request E (Main.wr_head_branch (Main.wh_workflow_run payload))
                   "GitHub Actions run #" payload) E s)
      as [(b & _ & _ & _ & Hb)|(e & _ & _ & Hn)]; cbv zeta in *.
    + by exists (Some b).
    + by exists None.
Qed.

(** ** Duration *)

(** C3 (as stated) fails: a negative difference is stored as it is, not
    replaced by null. *)
Lemma C3_negative_delta_is_stored :
  exists b s',
    Main._persist "github" backwards_request calm empty_state = (ok b, s')
    /\ db_rows s' = [b]
    /\ Models.duration_seconds b = Some (-10)%Q
    /\ Models.duration_seconds b <> None.
Proof.
  eexists _, _. split; [vm_compute; reflexivity|]. by vm_compute.
Qed.

Lemma total_seconds_sign (td : timedelta) :
  (0 <= td -> (0 <= total_seconds td)%Q) /\ (td <= 0 -> (total_seconds td <= 0)%Q).
Proof.
  unfold total_seconds, int_truediv, US_PER_SECOND. split; intros H.
  - apply round64_nonneg. unfold Qle, Qdiv, Qmult, Qinv, inject_Z. simpl. lia.
  - apply round64_nonpos. unfold Qle, Qdiv, Qmult, Qinv, inject_Z. simpl. lia.
Qed.

Lemma total_seconds_whole (k : Z) :
  Z.abs k < 2 ^ 53 -> total_seconds (k * US_PER_SECOND) = inject_Z k.
Proof.
  intros Hk. unfold total_seconds, int_truediv. apply round64_int; [done|].
  unfold US_PER_SECOND, Qeq, Qdiv, Qmult, Qinv, inject_Z. simpl. lia.
Qed.

(** C3 (as the code has it): for a request with [started_at] and
    [completed_at] of the same awareness and no explicit duration, the
    stored row's [duration_seconds] is the float of [completed_at -
    started_at] in seconds (the difference of the two instants, when the
    timestamps carry offsets), of the sign of the difference (a negative
    one is kept), and exactly the number of seconds when the difference is
    a whole number of them. *)
Theorem C3_duration_is_timestamp_delta (provider : string) (data : IngestRequest)
    (completed : datetime) (E : Env) (s : State) :
  store_up E = true ->
  Schemas.completed_at data = Some completed ->
  Schemas.duration_seconds data = None ->
  dt_aware completed = dt_aware (Schemas.started_at data) ->
  let delta := utc_us completed - utc_us (Schemas.started_at data) in
  exists b,
    (Main._persist provider data E s).1 = ok b
    /\ db_rows (Main._persist provider data E s).2 = db_rows s ++ [b]
    /\ Models.duration_seconds b = Some (round64 (inject_Z delta / inject_Z US_PER_SECOND))
    /\ (0 <= delta -> exists d, Models.duration_seconds b = Some d /\ (0 <= d)%Q)
    /\ (delta <= 0 -> exists d, Models.duration_seconds b = Some d /\ (d <= 0)%Q)
    /\ (forall k, delta = k * US_PER_SECOND -> Z.abs k < 2 ^ 53 ->
          Models.duration_seconds b = Some (inject_Z k)).
Proof.
  intros Hup Hc Hd Haw delta.
  assert (Hdur : derived_duration data = ok (Some (total_seconds delta))).
  { unfold derived_duration. rewrite Hd, Hc. unfold datetime_sub.
    rewrite Haw, Bool.eqb_reflx. done. }
  exists (stored_row provider data (Some (total_seconds delta)) E s).
  rewrite persist_run, Hdur, Hup. unfold ok. cbn [fst snd].
  repeat split; cbn [Models.duration_seconds stored_row].
  - intros H. eexists. split; [done|]. by apply total_seconds_sign.
  - intros H. eexists. split; [done|]. by apply total_seconds_sign.
  - intros k -> Hk. f_equal. by apply total_seconds_whole.
Qed.

Lemma C3_duration_witness :
  exists b,
    (Main._persist "github" timely_request calm empty_state).1 = ok b
    /\ Models.duration_seconds b = Some 120%Q.
Proof.
  destruct (C3_duration_is_timestamp_delta "github" timely_request
              (utc (739251 * US_PER_DAY + 120 * US_PER_SECOND)) calm empty_state
              eq_refl eq_refl eq_refl eq_refl) as (b & Hb & _ & _ & _ & _ & Hk).
  exists b. split; [exact Hb|].
  apply (Hk 120); [reflexivity | reflexivity].
Defined.

(** ** Metrics *)

Lemma metrics_summary_run (window : option string) (E : Env) (s : State) :
  Main.metrics_summary window E s =
    match Main.window_since (default "7d" window) (now E) with
    | inl e => (inl e, s)
    | inr since =>
        (ok (Main.summarize (default "7d" window) (Main.rows_since since (db_rows s))), s)
    end.
Proof.
  unfold Main.metrics_summary. run.
  by destruct (Main.window_since (default "7d" window) (now E)).
Qed.

Lemma durations_of_nil (rows : list Build) :
  Main.durations_of rows = [] <->
  forall r, r ∈ rows -> Models.duration_seconds r = None.
Proof.
  unfold Main.durations_of. induction rows as [|r rows IH]; simpl.
  - split; [|done]. intros _ r Hr. by apply elem_of_nil in Hr.
  - destruct (Models.duration_seconds r) as [d|] eqn:Hd; simpl.
    + split; [done|]. intros H. specialize (H r ltac:(left)). congruence.
    + rewrite IH. split.
      * intros H x [->|Hx]%elem_of_cons; [done|by apply H].
      * intros H x Hx. apply H. by right.
Qed.

Lemma summarize_avg_none (window : string) (rows : list Build) :
  Schemas.avg_build_time (Main.summarize window rows) = None <->
  forall r, r ∈ rows -> Models.duration_seconds r = None.
Proof.
  rewrite <- durations_of_nil. unfold Main.summarize. simpl.
  by destruct (Main.durations_of rows).
Qed.

(** C8: when the window resolves, the query returns a snapshot; with no
    event in the window both rates are 0.0; and the average build time is
    null exactly when no event of the window has a duration, in particular
    when there is no event at all. *)
Theorem C8_empty_window_snapshot (window : option string) (E : Env) (s : State)
    (since : datetime) :
  Main.window_since (default "7d" window) (now E) = ok since ->
  exists out,
    Main.metrics_summary window E s = (ok out, s)
    /\ (Main.rows_since since (db_rows s) = [] ->
          Schemas.success_rate out = 0%Q
          /\ Schemas.failure_rate out = 0%Q
          /\ Schemas.avg_build_time out = None
          /\ Schemas.last_status_by_pipeline out = ∅)
    /\ (Schemas.avg_build_time out = None <->
          forall r, r ∈ Main.rows_since since (db_rows s) ->
                    Models.duration_seconds r = None).
Proof.
  intros Hsince. eexists. rewrite metrics_summary_run, Hsince. unfold ok.
  split; [reflexivity|]. split.
  - intros ->. unfold Main.summarize. simpl. by repeat split.
  - apply summarize_avg_none.
Qed.

Lemma C8_empty_window_witness :
  exists out,
    Main.metrics_summary None calm empty_state = (ok out, empty_state)
    /\ Schemas.success_rate out = 0%Q
    /\ Schemas.failure_rate out = 0%Q
    /\ Schemas.avg_build_time out = None.
Proof.
  destruct (C8_empty_window_snapshot None calm empty_state
              (utc (739244 * US_PER_DAY)) eq_refl) as (out & Hrun & Hempty & _).
  exists out. split; [exact Hrun|].
  destruct (Hempty eq_refl) as (Hs & Hf & Ha & _). auto.
Defined.

Lemma quotient_bounds (c t : Z) :
  0 <= c <= t -> 0 < t -> (0 <= inject_Z c / inject_Z t <= 1)%Q.
Proof.
  intros [Hc Hct] Ht.
  assert (Htq : (0 < inject_Z t)%Q) by (change 0%Q with (inject_Z 0); by rewrite <- Zlt_Qlt).
  split.
  - apply Qle_shift_div_l; [done|]. rewrite Qmult_0_l.
    change 0%Q with (inject_Z 0). by rewrite <- Zle_Qle.
  - apply Qle_shift_div_r; [done|]. rewrite Qmult_1_l. by rewrite <- Zle_Qle.
Qed.

Lemma rate_bounds (c t : Z) :
  0 <= c <= t -> (0 <= Main.rate c t <= 100)%Q.
Proof.
  intros Hc. unfold Main.rate. destruct (Z.eqb_spec t 0) as [->|Ht]; [done|].
  destruct (quotient_bounds c t Hc ltac:(lia)) as [Hq0 Hq1].
  unfold fmul, int_truediv.
  set (q := round64 (inject_Z c / inject_Z t)).
  assert (Hr0 : (0 <= q)%Q) by (by apply round64_nonneg).
  assert (Hr1 : (q <= 1)%Q) by (by apply (round64_le _ 1)).
  split.
  - apply round64_nonneg. by apply Qmult_le_0_compat.
  - apply (round64_le _ 100); [done|].
    change (inject_Z 100) with (1 * 100)%Q.
    by apply Qmult_le_compat_r.
Qed.

Lemma count_status_bounds (st : string) (rows : list Build) :
  0 <= Main.count_status st rows <= Z.of_nat (length rows).
Proof.
  unfold Main.count_status. split; [lia|].
  apply Nat2Z.inj_le. apply List.filter_length_le.
Qed.

(** A row counts as a success or as a failure, not as both. *)
Lemma count_success_failure (rows : list Build) :
  Main.count_status "success" rows + Main.count_status "failure" rows
    <= Z.of_nat (length rows).
Proof.
  unfold Main.count_status. induction rows as [|r rows IH]; simpl; [done|].
  destruct (decide (Models.status r = "success")) as [Hs|Hs].
  - rewrite (bool_decide_true _ Hs).
    rewrite bool_decide_false by (rewrite Hs; discriminate).
    simpl length. lia.
  - rewrite (bool_decide_false _ Hs).
    destruct (bool_decide (Models.status r = "failure")); simpl length; lia.
Qed.

(** C10 (as stated) fails by rounding: with two successes and nine
    failures the rates are 18.181818181818183 and 81.81818181818183, whose
    sum is above 100, also when it is taken in floats. *)
Lemma C10_rates_sum_above_100 :
  exists out,
    Main.metrics_summary None calm two_of_eleven = (ok out, two_of_eleven)
    /\ Schemas.success_rate out = (5117726849284655 # 281474976710656)%Q
    /\ Schemas.failure_rate out = (5757442705445237 # 70368744177664)%Q
    /\ (100 < Schemas.success_rate out + Schemas.failure_rate out)%Q
    /\ (100 < fadd (Schemas.success_rate out) (Schemas.failure_rate out))%Q.
Proof.
  eexists. split; [vm_compute; reflexivity|].
  split; [vm_compute; reflexivity|]. split; [vm_compute; reflexivity|].
  split; vm_compute; reflexivity.
Qed.

(** ** Size of the rounding error *)

(** [round64] computes what the kernel's binary64 arithmetic computes. *)
Lemma rate_agrees_with_primitive_floats :
  sf_value (primitive_rate 2 11) = Some (Main.rate 2 11)
  /\ sf_value (primitive_rate 9 11) = Some (Main.rate 9 11)
  /\ sf_value (primitive_rate 1 6) = Some (Main.rate 1 6)
  /\ sf_value (primitive_rate 1 3) = Some (Main.rate 1 3)
  /\ sf_value (primitive_rate 7 7) = Some (Main.rate 7 7)
  /\ sf_value (Prim2SF (2 / 11 * 100 + 9 / 11 * 100)%float)
       = Some (fadd (Main.rate 2 11) (Main.rate 9 11))
  /\ sf_value (Prim2SF (100000 / 1000000)%float) = Some (total_seconds 100000).
Proof. repeat split; vm_compute; reflexivity. Qed.

Section RoundingError.

Local Open Scope Z_scope.

Lemma rne_upper_error (a : Z) (b : positive) :
  2 * (rne a b * Zpos b) <= 2 * a + Zpos b.
Proof.
  unfold rne.
  pose proof (Z.div_mod a (Zpos b) ltac:(lia)) as Hdm.
  pose proof (Z.mod_pos_bound a (Zpos b) ltac:(lia)) as Hr.
  set (q := a / Zpos b) in *. set (r := a mod Zpos b) in *.
  destruct (Z.compare_spec (2 * r) (Zpos b)); [destruct (Z.even q)| |]; nia.
Qed.

Lemma cexp_upper (a j : Z) (b : positive) :
  0 < a -> 1 <= j <= prec -> a < 2 ^ j * Zpos b -> cexp a b <= j - prec.
Proof.
  intros Ha Hj Hlt. unfold cexp, emin, prec in *.
  destruct (Z.le_gt_cases j (ilog2 a b)) as [Hbig|]; [|lia].
  pose proof (ilog2_lower a j b Ha ltac:(lia)). lia.
Qed.

Lemma pow2_nonpos_eq (e : Z) :
  e <= 0 -> pow2 e = (1 # Z.to_pos (2 ^ (- e)))%Q.
Proof.
  intros He. destruct e as [|p|p]; [done|lia|].
  unfold pow2. f_equal. change (- Z.neg p) with (Z.pos p).
  rewrite <- Pos2Z.inj_pow. by rewrite Pos2Z.id.
Qed.

Lemma round_pos_upper_error (a : Z) (b p : positive) :
  0 < a -> cexp a b <= 1 - Zpos p ->
  (round_pos a b <= (a # b) + (1 # 2 ^ p))%Q.
Proof.
  intros Ha He.
  rewrite round_pos_unfold_nonpos by lia. rewrite Qred_correct.
  rewrite pow2_nonpos_eq by lia.
  set (e := cexp a b) in *.
  pose proof (rne_upper_error (a * 2 ^ (- e)) b) as Hrne.
  set (m := rne (a * 2 ^ (- e)) b) in *.
  assert (HP : 0 < 2 ^ (- e)) by (apply Z.pow_pos_nonneg; lia).
  assert (HD : 2 ^ Zpos p <= 2 * 2 ^ (- e)).
  { replace (2 * 2 ^ (- e)) with (2 ^ (1 + - e)).
    - apply Z.pow_le_mono_r; lia.
    - rewrite Z.pow_add_r by lia. done. }
  assert (HDpos : 0 < 2 ^ Zpos p) by (apply Z.pow_pos_nonneg; lia).
  unfold Qle, Qplus, Qmult, inject_Z. cbn [Qnum Qden].
  rewrite !Pos2Z.inj_mul, Pos2Z.inj_pow, Z2Pos.id by done.
  set (P := 2 ^ (- e)) in *. set (D := 2 ^ Z.pos p) in *.
  assert (Hb : 0 < Zpos b) by lia. set (B := Zpos b) in *.
  assert (H1 : 2 * m * B * D <= (2 * a * P + B) * D) by nia.
  assert (H2 : B * D <= 2 * P * B) by nia.
  assert (H3 : m * B * D <= a * P * D + B * P) by nia.
  nia.
Qed.

Lemma round64_upper_error (x : Q) (j : Z) :
  1 <= j <= prec -> (0 <= x)%Q -> (x < inject_Z (2 ^ j))%Q ->
  (round64 x <= x + (1 # 2 ^ Z.to_pos (prec + 1 - j)))%Q.
Proof.
  intros Hj H0 Hlt. destruct x as [n d].
  unfold Qle in H0. unfold Qlt in Hlt. simpl in H0, Hlt.
  destruct n as [|a|a]; [|  |lia].
  - unfold round64. simpl. unfold Qle. simpl. lia.
  - unfold round64. cbn [Qnum Qden].
    apply round_pos_upper_error; [lia|].
    unfold prec in *. rewrite Z2Pos.id by lia.
    pose proof (cexp_upper (Z.pos a) j d ltac:(lia) ltac:(unfold prec; lia) ltac:(lia)).
    unfold prec in *. lia.
Qed.

(** A rate exceeds the exact percentage by less than 2^-45 (41/2^51). *)
Lemma rate_upper_error (c t : Z) :
  0 <= c <= t -> 0 < t ->
  (Main.rate c t <= inject_Z c / inject_Z t * 100 + (41 # 2 ^ 51))%Q.
Proof.
  intros Hc Ht. unfold Main.rate. destruct (Z.eqb_spec t 0) as [|_]; [lia|].
  destruct (quotient_bounds c t Hc Ht) as [Hq0 Hq1].
  unfold fmul, int_truediv.
  set (x := (inject_Z c / inject_Z t)%Q) in *.
  pose proof (round64_upper_error x 1 ltac:(unfold prec; lia) Hq0
                ltac:(eapply Qle_lt_trans; [exact Hq1|done])) as Hq.
  set (q := round64 x) in *.
  assert (Hr0 : (0 <= q)%Q) by (by apply round64_nonneg).
  assert (Hr1 : (q <= 1)%Q) by (by apply (round64_le _ 1)).
  assert (Hq100 : (0 <= q * 100)%Q) by (by apply Qmult_le_0_compat).
  assert (Hq100' : (q * 100 < inject_Z (2 ^ 7))%Q).
  { apply Qle_lt_trans with (1 * 100)%Q; [by apply Qmult_le_compat_r|done]. }
  pose proof (round64_upper_error (q * 100) 7 ltac:(unfold prec; lia) Hq100 Hq100') as Hp.
  eapply Qle_trans; [exact Hp|].
  change (Z.to_pos (prec + 1 - 7)) with 47%positive.
  change (Z.to_pos (prec + 1 - 1)) with 53%positive in Hq.
  apply Qle_trans with ((x + (1 # 2 ^ 53)) * 100 + (1 # 2 ^ 47))%Q.
  - apply Qplus_le_l. by apply Qmult_le_compat_r.
  - assert (Heq : ((41 # 2 ^ 51) == (1 # 2 ^ 53) * 100 + (1 # 2 ^ 47))%Q) by done.
    rewrite Heq. apply Qle_lteq. right. ring.
Qed.

End RoundingError.

Lemma rates_sum (sc fc t : Z) :
  0 <= sc -> 0 <= fc -> sc + fc <= t ->
  (Main.rate sc t + Main.rate fc t <= 100 + (41 # 2 ^ 50))%Q.
Proof.
  intros Hs Hf Hsum. destruct (Z.eq_dec t 0) as [->|Ht].
  { unfold Main.rate. simpl. done. }
  assert (Htpos : 0 < t) by lia.
  pose proof (rate_upper_error sc t ltac:(lia) Htpos) as H1.
  pose proof (rate_upper_error fc t ltac:(lia) Htpos) as H2.
  destruct (quotient_bounds (sc + fc) t ltac:(lia) Htpos) as [_ Hq].
  assert (Htq : ~ (inject_Z t == 0)%Q).
  { intros H. unfold Qeq in H. simpl in H. lia. }
  eapply Qle_trans; [apply Qplus_le_compat; [exact H1|exact H2]|].
  assert (Heq : (inject_Z sc / inject_Z t * 100 + (41 # 2 ^ 51)
                 + (inject_Z fc / inject_Z t * 100 + (41 # 2 ^ 51))
                 == inject_Z (sc + fc) / inject_Z t * 100 + (41 # 2 ^ 50))%Q).
  { rewrite inject_Z_plus.
    assert (Hc : ((41 # 2 ^ 50) == (41 # 2 ^ 51) + (41 # 2 ^ 51))%Q) by done.
    rewrite Hc. field. exact Htq. }
  rewrite Heq. apply Qplus_le_l.
  change 100%Q with (1 * 100)%Q at 2. by apply Qmult_le_compat_r.
Qed.

(** C10 (as the code has it): when the window resolves, the query
    returns a snapshot whose success rate and failure rate each lie in
    [0,100]; an event counts toward at most one of them, so the exact
    percentages add up to at most 100, and the two floats returned add up
    to at most 100 + 41/2^50: they can pass 100 by a rounding error only. *)
Theorem C10_rates_in_range (window : option string) (E : Env) (s : State)
    (since : datetime) :
  Main.window_since (default "7d" window) (now E) = ok since ->
  let rows := Main.rows_since since (db_rows s) in
  exists out,
    Main.metrics_summary window E s = (ok out, s)
    /\ (0 <= Schemas.success_rate out <= 100)%Q
    /\ (0 <= Schemas.failure_rate out <= 100)%Q
    /\ Main.count_status "success" rows + Main.count_status "failure" rows
         <= Z.of_nat (length rows)
    /\ (Schemas.success_rate out + Schemas.failure_rate out <= 100 + (41 # 2 ^ 50))%Q.
Proof.
  intros Hsince rows. eexists. rewrite metrics_summary_run, Hsince. unfold ok.
  split; [reflexivity|]. fold rows. unfold Main.summarize. cbn [Schemas.success_rate Schemas.failure_rate].
  pose proof (count_status_bounds "success" rows).
  pose proof (count_status_bounds "failure" rows).
  pose proof (count_success_failure rows).
  repeat split; try (apply rate_bounds; lia); try done.
  apply rates_sum; lia.
Qed.

Lemma C10_rates_in_range_witness :
  exists out,
    Main.metrics_summary None calm two_of_eleven = (ok out, two_of_eleven)
    /\ (0 <= Schemas.success_rate out <= 100)%Q
    /\ (0 <= Schemas.failure_rate out <= 100)%Q
    /\ (Schemas.success_rate out + Schemas.failure_rate out <= 100 + (41 # 2 ^ 50))%Q.
Proof.
  destruct (C10_rates_in_range None calm two_of_eleven
              (utc (739244 * US_PER_DAY)) eq_refl) as (out & Hrun & Hs & Hf & _ & Hsum).
  exists out. auto.
Defined.

(** ** Latest status per pipeline *)

Lemma first_latest_unique (rows : list Build) (p : string) (i i' : nat) (b b' : Build) :
  first_latest rows p i b -> first_latest rows p i' b' -> i = i' /\ b = b'.
Proof.
  intros (Hi & Hp & Hmax & Hfirst) (Hi' & Hp' & Hmax' & Hfirst').
  destruct (Nat.lt_trichotomy i i') as [Hlt|[->|Hlt]].
  - pose proof (Hfirst' i b Hlt Hi Hp). pose proof (Hmax i' b' Hi' Hp'). lia.
  - split; [done|]. congruence.
  - pose proof (Hfirst i' b' Hlt Hi' Hp'). pose proof (Hmax' i b Hi Hp). lia.
Qed.

Lemma last_by_pipeline_snoc (rows : list Build) (r : Build) :
  Main.last_by_pipeline (rows ++ [r]) =
    Main.last_by_pipeline_step (Main.last_by_pipeline rows) r.
Proof. unfold Main.last_by_pipeline. by rewrite fold_left_app. Qed.

Lemma last_by_pipeline_spec (rows : list Build) (p : string) :
  match Main.last_by_pipeline rows !! p with
  | None => forall r, r ∈ rows -> Models.pipeline r <> p
  | Some b => exists i, first_latest rows p i b
  end.
Proof.
  induction rows as [|r rows IH] using rev_ind.
  { unfold Main.last_by_pipeline. simpl. rewrite lookup_empty.
    intros r Hr. by apply elem_of_nil in Hr. }
  rewrite last_by_pipeline_snoc. unfold Main.last_by_pipeline_step.
  set (m := Main.last_by_pipeline rows) in *.
  assert (Hold : forall i b, first_latest rows p i b -> Models.pipeline r <> p ->
                   first_latest (rows ++ [r]) p i b).
  { intros i b (Hi & Hp & Hmax & Hfirst) Hne.
    pose proof (lookup_lt_Some _ _ _ Hi) as Hlen.
    split; [by rewrite lookup_app_l|]. split; [done|]. split.
    - intros j x Hj Hx. apply lookup_app_Some in Hj as [Hj|[_ Hj]]; [by eapply Hmax|].
      apply list_lookup_singleton_Some in Hj as [_ <-]. done.
    - intros j x Hji Hj Hx. rewrite lookup_app_l in Hj by lia. by eapply Hfirst. }
  destruct (decide (Models.pipeline r = p)) as [Hrp|Hrp].
  - (* the new row belongs to pipeline [p] *)
    rewrite Hrp. destruct (m !! p) as [prev|] eqn:Hm.
    + destruct IH as (i & Hi & Hp & Hmax & Hfirst).
      pose proof (lookup_lt_Some _ _ _ Hi) as Hlen.
      unfold datetime_gtb.
      destruct (Z.ltb_spec (dt_us (Models.started_at prev)) (dt_us (Models.started_at r)))
        as [Hlt|Hge].
      * rewrite lookup_insert_eq. exists (length rows).
        split; [by rewrite lookup_app_r, Nat.sub_diag by lia|]. split; [done|]. split.
        -- intros j x Hj Hx. apply lookup_app_Some in Hj as [Hj|[_ Hj]].
           ++ pose proof (Hmax j x Hj Hx). lia.
           ++ apply list_lookup_singleton_Some in Hj as [_ <-]. lia.
        -- intros j x Hjl Hj Hx. rewrite lookup_app_l in Hj by lia.
           pose proof (Hmax j x Hj Hx). lia.
      * rewrite Hm. exists i.
        split; [by rewrite lookup_app_l|]. split; [done|]. split.
        -- intros j x Hj Hx. apply lookup_app_Some in Hj as [Hj|[_ Hj]]; [by eapply Hmax|].
           apply list_lookup_singleton_Some in Hj as [_ <-]. lia.
        -- intros j x Hji Hj Hx. rewrite lookup_app_l in Hj by lia. by eapply Hfirst.
    + rewrite lookup_insert_eq. exists (length rows).
      split; [by rewrite lookup_app_r, Nat.sub_diag by lia|]. split; [done|]. split.
      * intros j x Hj Hx. apply lookup_app_Some in Hj as [Hj|[_ Hj]].
        -- exfalso. apply (IH x); [|done]. by eapply list_elem_of_lookup_2.
        -- apply list_lookup_singleton_Some in Hj as [_ <-]. lia.
      * intros j x Hjl Hj Hx. rewrite lookup_app_l in Hj by lia.
        exfalso. apply (IH x); [|done]. by eapply list_elem_of_lookup_2.
  - (* the new row belongs to another pipeline *)
    assert (Hsame : (match m !! Models.pipeline r with
                     | Some prev =>
                         if datetime_gtb (Models.started_at r) (Models.started_at prev)
                         then <[Models.pipeline r:=r]> m else m
                     | None => <[Models.pipeline r:=r]> m
                     end) !! p = m !! p).
    { destruct (m !! Models.pipeline r) as [prev|];
        [destruct (datetime_gtb _ _)|]; by rewrite ?lookup_insert_ne. }
    rewrite Hsame. destruct (m !! p) as [b|].
    + destruct IH as (i & Hi). exists i. by apply Hold.
    + intros x [Hx|Hx]%elem_of_app; [by apply IH|].
      apply list_elem_of_singleton in Hx as ->. done.
Qed.

Lemma last_status_spec (window : string) (rows : list Build) (p : string) :
  (Schemas.last_status_by_pipeline (Main.summarize window rows) !! p = None <->
     forall r, r ∈ rows -> Models.pipeline r <> p)
  /\ (forall st,
        Schemas.last_status_by_pipeline (Main.summarize window rows) !! p = Some st <->
        exists i b, first_latest rows p i b /\ Models.status b = st).
Proof.
  unfold Main.summarize. cbn [Schemas.last_status_by_pipeline].
  rewrite lookup_fmap. pose proof (last_by_pipeline_spec rows p) as Hspec.
  destruct (Main.last_by_pipeline rows !! p) as [b|]; simpl.
  - destruct Hspec as (i & Hi). split.
    + split; [done|]. intros Hnone. exfalso.
      destruct Hi as (Hi & Hp & _). apply (Hnone b); [|done].
      by eapply list_elem_of_lookup_2.
    + intros st. split.
      * intros [= <-]. by exists i, b.
      * intros (i' & b' & Hi' & <-).
        by destruct (first_latest_unique _ _ _ _ _ _ Hi Hi') as [_ ->].
  - split; [done|]. intros st. split; [done|].
    intros (i & b & (Hi & Hp & _) & _). exfalso.
    apply (Hspec b); [|done]. by eapply list_elem_of_lookup_2.
Qed.

(** C5: when the window resolves, [last_status_by_pipeline] has an entry
    for exactly the pipelines with an event in the window, and the entry of
    a pipeline is the status of the event with the greatest [started_at]
    among that pipeline's events of the window, the one met first (the
    earlier row) when several share that greatest [started_at]; in
    particular an event that started after every other event of its
    pipeline gives the reported status, wherever it stands among the rows. *)
Theorem C5_last_status_is_first_latest (window : option string) (E : Env) (s : State)
    (since : datetime) :
  Main.window_since (default "7d" window) (now E) = ok since ->
  let rows := Main.rows_since since (db_rows s) in
  exists out,
    Main.metrics_summary window E s = (ok out, s)
    /\ (forall p,
          Schemas.last_status_by_pipeline out !! p = None <->
          forall r, r ∈ rows -> Models.pipeline r <> p)
    /\ (forall p st,
          Schemas.last_status_by_pipeline out !! p = Some st <->
          exists i b, first_latest rows p i b /\ Models.status b = st)
    /\ (forall i b,
          rows !! i = Some b ->
          (forall j r, j <> i -> rows !! j = Some r ->
                       Models.pipeline r = Models.pipeline b ->
                       dt_us (Models.started_at r) < dt_us (Models.started_at b)) ->
          Schemas.last_status_by_pipeline out !! Models.pipeline b
            = Some (Models.status b)).
Proof.
  intros Hsince rows. eexists. rewrite metrics_summary_run, Hsince. unfold ok.
  split; [reflexivity|]. fold rows.
  split; [intros p; apply last_status_spec|].
  split; [intros p; apply last_status_spec|].
  intros i b Hi Hlater. apply last_status_spec. exists i, b. split; [|done].
  split; [done|]. split; [done|]. split.
  - intros j r Hj Hr. destruct (decide (j = i)) as [->|Hne].
    + rewrite Hi in Hj. injection Hj as <-. lia.
    + pose proof (Hlater j r Hne Hj Hr). lia.
  - intros j r Hji Hj Hr. apply (Hlater j r); [lia|done|done].
Qed.

Lemma C5_last_status_witness :
  exists out,
    Main.metrics_summary None calm later_first = (ok out, later_first)
    /\ Schemas.last_status_by_pipeline out !! "A" = Some "success".
Proof.
  destruct (C5_last_status_is_first_latest None calm later_first
              (utc (739244 * US_PER_DAY)) eq_refl) as (out & Hrun & _ & _ & Hlast).
  exists out. split; [exact Hrun|].
  apply (Hlast 0%nat (build_at "A" "success" (739251 * US_PER_DAY + US_PER_HOUR)) eq_refl).
  intros [|[|j]] r Hne Hj Hr; [done| |done].
  injection Hj as <-. vm_compute. reflexivity.
Defined.

(** ** Window strings *)

Lemma endswith_char_snoc (s : string) (c : ascii) :
  Py.endswith_char (s +:+ String c EmptyString) c = true.
Proof.
  induction s as [|a s IH]; simpl.
  - by rewrite bool_decide_true.
  - destruct (s +:+ String c "") eqn:Hs; [by destruct s|]. exact IH.
Qed.

Lemma drop_last_snoc (s : string) (c : ascii) :
  Py.drop_last (s +:+ String c EmptyString) = s.
Proof.
  induction s as [|a s IH]; simpl; [done|].
  destruct (s +:+ String c "") eqn:Hs; [by destruct s|]. by rewrite IH.
Qed.

Lemma digit_not_space (c : ascii) : Py.is_digit c = true -> Py.is_space c = false.
Proof.
  unfold Py.is_digit, Py.is_space. intros H.
  apply andb_true_iff in H as [H1 H2]. apply Z.leb_le in H1, H2.
  apply orb_false_iff. split.
  - apply andb_false_iff. right. apply Z.leb_gt. lia.
  - apply Z.eqb_neq. lia.
Qed.

Lemma digit_not_underscore (c : ascii) :
  Py.is_digit c = true -> Py.is_underscore c = false.
Proof.
  unfold Py.is_digit, Py.is_underscore. intros H.
  apply andb_true_iff in H as [H1 H2]. apply Z.leb_le in H1, H2.
  apply Z.eqb_neq. lia.
Qed.

Lemma lstrip_digit (c : ascii) (l : list ascii) :
  Py.is_digit c = true -> Py.lstrip (c :: l) = c :: l.
Proof. intros H. simpl. by rewrite digit_not_space. Qed.

Lemma strip_digits (ds : list ascii) : all_digits ds -> Py.strip ds = ds.
Proof.
  intros Hd. unfold Py.strip.
  assert (Hl : forall l, all_digits l -> Py.lstrip l = l).
  { intros [|c l] Hl; [done|]. apply lstrip_digit, Hl. by left. }
  rewrite (Hl ds Hd). rewrite Hl; [apply rev_involutive|].
  intros c Hc. apply Hd. apply list_elem_of_In, in_rev. by apply list_elem_of_In.
Qed.

Lemma scan_digits_all (ds : list ascii) (acc : Z) (count : nat) :
  all_digits ds ->
  Py.scan_digits acc count ds =
    Some (fold_left (fun acc c => 10 * acc + Py.digit_value c) ds acc,
          (count + length ds)%nat).
Proof.
  revert acc count. induction ds as [|c ds IH]; intros acc count Hd.
  - simpl. by rewrite Nat.add_0_r.
  - simpl. rewrite (Hd c) by (by left).
    rewrite IH by (intros x Hx; apply Hd; by right).
    do 2 f_equal. lia.
Qed.

(** [int] reads a string of at most 4300 decimal digits as the number it
    denotes. *)
Lemma int_digits (ds : list ascii) :
  ds <> [] -> all_digits ds -> (length ds <= Py.MAX_STR_DIGITS)%nat ->
  Py.int (string_of_list_ascii ds) = ok (decimal_value ds).
Proof.
  intros Hne Hd Hlen. unfold Py.int.
  rewrite list_ascii_of_string_of_list_ascii, strip_digits by done.
  destruct ds as [|c ds]; [done|].
  assert (Hc : Py.is_digit c = true) by (apply Hd; by left).
  assert (Hu : Py.parse_unsigned (c :: ds) = Some (decimal_value (c :: ds))).
  { unfold Py.parse_unsigned. rewrite Hc.
    rewrite scan_digits_all by (intros x Hx; apply Hd; by right).
    simpl in Hlen. destruct (Nat.leb_spec (1 + length ds) Py.MAX_STR_DIGITS); [|lia].
    reflexivity. }
  assert (Hsign : c <> "+"%char /\ c <> "-"%char).
  { split; intros ->; vm_compute in Hc; discriminate. }
  destruct Hsign as [Hplus Hminus].
  assert (Hbody : match c :: ds with
                  | "+"%char :: l => Py.parse_unsigned l
                  | "-"%char :: l => Z.opp <$> Py.parse_unsigned l
                  | _ => Py.parse_unsigned (c :: ds)
                  end = Py.parse_unsigned (c :: ds)).
  { destruct c as [[] [] [] [] [] [] [] []]; try reflexivity; congruence. }
  rewrite Hbody, Hu. done.
Qed.

Lemma decimal_value_nonneg (ds : list ascii) : all_digits ds -> 0 <= decimal_value ds.
Proof.
  unfold decimal_value. intros Hd.
  assert (H : forall acc, 0 <= acc ->
            0 <= fold_left (fun acc c => 10 * acc + Py.digit_value c) ds acc); [|by apply H].
  induction ds as [|c ds IH]; intros acc Hacc; [done|]. simpl.
  apply IH; [intros x Hx; apply Hd; by right|].
  assert (Hc : Py.is_digit c = true) by (apply Hd; by left).
  unfold Py.is_digit in Hc. apply andb_true_iff in Hc as [H1 _]. apply Z.leb_le in H1.
  unfold Py.digit_value. lia.
Qed.

Lemma timedelta_of_us_small (us : Z) :
  0 <= us <= DT_MAX_US -> timedelta_of_us us = ok us.
Proof.
  intros [H0 H1]. unfold timedelta_of_us.
  assert (0 <= us / US_PER_DAY <= MAX_DELTA_DAYS).
  { unfold DT_MAX_US, MAX_ORDINAL, MAX_DELTA_DAYS, US_PER_DAY, US_PER_SECOND in *.
    split; [apply Z.div_pos; lia|].
    apply Z.lt_succ_r. apply Z.div_lt_upper_bound; lia. }
  destruct (Z.leb_spec (- MAX_DELTA_DAYS) (us / US_PER_DAY));
    [|unfold MAX_DELTA_DAYS in *; lia].
  destruct (Z.leb_spec (us / US_PER_DAY) MAX_DELTA_DAYS); [done|lia].
Qed.

Lemma datetime_sub_delta_in_range (d : datetime) (td : timedelta) :
  0 <= dt_us d - td <= DT_MAX_US ->
  datetime_sub_delta d td
    = ok (mk_datetime_tz (dt_us d - td) (dt_aware d) (dt_offset d)).
Proof.
  intros [H0 H1]. unfold datetime_sub_delta. cbv zeta.
  destruct (Z.leb_spec 0 (dt_us d - td)); [|lia].
  destruct (Z.leb_spec (dt_us d - td) DT_MAX_US); [done|lia].
Qed.

Lemma window_since_suffix (prefix : string) (unit : ascii) (per : Z)
    (n : Z) (now : datetime) :
  (unit = "h"%char /\ per = US_PER_HOUR) \/ (unit = "d"%char /\ per = US_PER_DAY) ->
  Py.int prefix = ok n ->
  0 <= n ->
  0 <= dt_us now - n * per -> dt_us now <= DT_MAX_US ->
  Main.window_since (prefix +:+ String unit EmptyString) now
    = ok (mk_datetime_tz (dt_us now - n * per) (dt_aware now) (dt_offset now)).
Proof.
  intros Hunit Hint Hn Hlo Hhi. unfold Main.window_since, Main.window_delta.
  assert (Hper : 0 < per).
  { destruct Hunit as [[_ ->]|[_ ->]]; done. }
  assert (Htd : timedelta_of_us (n * per) = ok (n * per)).
  { apply timedelta_of_us_small. nia. }
  change (timedelta_days 7) with (ok (7 * US_PER_DAY)).
  unfold mbind at 2. unfold result_bind at 1. unfold ok at 1.
  destruct Hunit as [[-> ->]|[-> ->]].
  - rewrite endswith_char_snoc, drop_last_snoc, Hint.
    unfold mbind at 2, result_bind at 2, ok at 1. unfold timedelta_hours. rewrite Htd.
    unfold mbind, result_bind, ok at 1. apply datetime_sub_delta_in_range. nia.
  - assert (Hh : Py.endswith_char (prefix +:+ "d") "h" = false).
    { clear. induction prefix as [|a s IH]; [done|]. simpl.
      destruct (s +:+ "d") eqn:Hs; [by destruct s|]. exact IH. }
    rewrite Hh, endswith_char_snoc, drop_last_snoc, Hint.
    unfold mbind at 2, result_bind at 2, ok at 1. unfold timedelta_days. rewrite Htd.
    unfold mbind, result_bind, ok at 1. apply datetime_sub_delta_in_range. nia.
Qed.

(** C4 (as stated) fails: the window ["abc"] is not rejected; the query
    answers as it does for an omitted window, over the last seven days. *)
Lemma C4_garbage_window_uses_default :
  Main.window_since "abc" (now calm) = ok (utc (739244 * US_PER_DAY))
  /\ Main.window_since "abc" (now calm) = Main.window_since (default "7d" None) (now calm)
  /\ exists out, Main.metrics_summary (Some "abc") calm empty_state = (ok out, empty_state).
Proof.
  split; [reflexivity|]. split; [reflexivity|].
  eexists. vm_compute. reflexivity.
Qed.

(** C4 (as the code has it): a window made of at most 4300 decimal digits
    denoting n and a final [h] (resp. [d]) puts the cutoff n hours (resp. n
    days) before now, as long as that date exists; an omitted window puts
    it seven days before now; a window that ends in neither [h] nor [d]
    is not rejected but silently takes the seven-day default; and a
    window that ends in [h] or [d] after something [int] does not read
    fails with [ValueError]. *)
Theorem C4_window_cutoff :
  (forall (ds : list ascii) (now : datetime),
      ds <> [] -> all_digits ds -> (length ds <= Py.MAX_STR_DIGITS)%nat ->
      dt_us now <= DT_MAX_US ->
      (0 <= dt_us now - decimal_value ds * US_PER_HOUR ->
         Main.window_since (string_of_list_ascii ds +:+ "h") now
           = ok (mk_datetime_tz (dt_us now - decimal_value ds * US_PER_HOUR)
                   (dt_aware now) (dt_offset now)))
      /\ (0 <= dt_us now - decimal_value ds * US_PER_DAY ->
            Main.window_since (string_of_list_ascii ds +:+ "d") now
              = ok (mk_datetime_tz (dt_us now - decimal_value ds * US_PER_DAY)
                      (dt_aware now) (dt_offset now))))
  /\ (forall now : datetime,
        0 <= dt_us now - 7 * US_PER_DAY -> dt_us now <= DT_MAX_US ->
        Main.window_since (default "7d" None) now
          = ok (mk_datetime_tz (dt_us now - 7 * US_PER_DAY)
                  (dt_aware now) (dt_offset now)))
  /\ (forall window : string,
        Py.endswith_char window "h" = false ->
        Py.endswith_char window "d" = false ->
        Main.window_delta window = ok (7 * US_PER_DAY))
  /\ (forall window : string,
        Py.endswith_char window "h" = true \/ Py.endswith_char window "d" = true ->
        Py.int (Py.drop_last window) = raise ValueError ->
        Main.window_delta window = raise ValueError
        /\ forall E s, Main.metrics_summary (Some window) E s = (raise ValueError, s)).
Proof.
  split; [|split; [|split]].
  - intros ds now Hne Hd Hlen Hhi.
    pose proof (int_digits ds Hne Hd Hlen) as Hint.
    pose proof (decimal_value_nonneg ds Hd) as Hn.
    split; intros Hlo.
    + apply (window_since_suffix _ "h" US_PER_HOUR (decimal_value ds)); auto.
    + apply (window_since_suffix _ "d" US_PER_DAY (decimal_value ds)); auto.
  - intros now Hlo Hhi.
    apply (window_since_suffix "7" "d" US_PER_DAY 7 now); auto. lia.
  - intros window Hh Hd. unfold Main.window_delta. by rewrite Hh, Hd.
  - intros window Hend Hint.
    assert (Hdelta : Main.window_delta window = raise ValueError).
    { unfold Main.window_delta.
      change (timedelta_days 7) with (ok (7 * US_PER_DAY)).
      unfold mbind at 1, result_bind at 1, ok at 1.
      destruct (Py.endswith_char window "h"); [by rewrite Hint|].
      destruct Hend as [|Hd]; [done|]. by rewrite Hd, Hint. }
    split; [done|]. intros E s. rewrite metrics_summary_run. simpl.
    unfold Main.window_since. by rewrite Hdelta.
Qed.

Lemma C4_window_cutoff_witness :
  Main.window_since "25h" (now calm) = ok (utc (739251 * US_PER_DAY - 25 * US_PER_HOUR))
  /\ Main.window_since "3d" (now calm) = ok (utc (739248 * US_PER_DAY))
  /\ Main.window_since (default "7d" None) (now calm) = ok (utc (739244 * US_PER_DAY))
  /\ Main.window_delta "abc" = ok (7 * US_PER_DAY)
  /\ Main.window_delta "xh" = raise ValueError.
Proof.
  destruct C4_window_cutoff as (Hnum & Hdef & Hgarbage & Hbad).
  assert (H25 : all_digits ["2"; "5"]%char).
  { intros c [->|[->|[]%elem_of_nil]%elem_of_cons]%elem_of_cons; reflexivity. }
  assert (H3 : all_digits ["3"]%char).
  { intros c [->|[]%elem_of_nil]%elem_of_cons; reflexivity. }
  split; [|split; [|split; [|split]]].
  - apply (Hnum ["2"; "5"]%char (now calm)); [done|exact H25|vm_compute; lia|done|done].
  - apply (Hnum ["3"]%char (now calm)); [done|exact H3|vm_compute; lia|done|done].
  - apply (Hdef (now calm)); done.
  - apply (Hgarbage "abc"); reflexivity.
  - apply (Hbad "xh"); [by left|reflexivity].
Defined.

(** ** Validation *)

(** C1 (as stated) fails: a body without [pipeline] is refused with a
    validation error on that field; no ["unknown"] is put in its place and
    nothing is stored. *)
Lemma C1_missing_pipeline_is_rejected :
  Schemas.validate no_pipeline = inl [Schemas.Missing "pipeline"]
  /\ Main.post_ingest_github no_pipeline calm empty_state
       = (ok (Main.Unprocessable422 [Schemas.Missing "pipeline"]), empty_state)
  /\ ~ exists payload,
         Schemas.validate no_pipeline = inr payload
         /\ Schemas.pipeline payload = "unknown".
Proof.
  split; [reflexivity|]. split; [reflexivity|].
  intros (payload & H & _). discriminate H.
Qed.

Lemma validate_accepts (p : Schemas.Payload) (payload : IngestRequest) :
  Schemas.validate p = inr payload <->
    Schemas.raw_pipeline p = Some (Schemas.pipeline payload)
    /\ Schemas.raw_repo p = Some (Schemas.repo payload)
    /\ Schemas.raw_branch p = Some (Schemas.branch payload)
    /\ Schemas.raw_status p = Some (Schemas.status payload)
    /\ Schemas.status_pattern (Schemas.status payload) = true
    /\ Schemas.raw_started_at p = Some (Schemas.started_at payload)
    /\ Schemas.raw_completed_at p = Schemas.completed_at payload
    /\ Schemas.raw_duration_seconds p = Schemas.duration_seconds payload
    /\ Schemas.raw_url p = Schemas.url payload
    /\ Schemas.raw_logs p = Schemas.logs payload.
Proof.
  unfold Schemas.validate. split.
  - destruct (Schemas.raw_pipeline p), (Schemas.raw_repo p), (Schemas.raw_branch p),
      (Schemas.raw_status p) as [st|], (Schemas.raw_started_at p); try discriminate.
    destruct (Schemas.status_pattern st) eqn:Hst; [|discriminate].
    intros [= <-]. simpl. by repeat split.
  - intros (-> & -> & -> & -> & Hst & -> & Hc & Hd & Hu & Hl). rewrite Hst.
    destruct payload. simpl in *. by subst.
Qed.

Ltac in_errors :=
  repeat first [apply list_elem_of_here | apply list_elem_of_further].

Ltac not_in_errors H :=
  exfalso;
  repeat (apply elem_of_cons in H as [H|H]; [discriminate H|]);
  by apply elem_of_nil in H.

Lemma validate_rejects (p : Schemas.Payload) (errors : list Schemas.FieldError) :
  Schemas.validate p = inl errors ->
  (Schemas.raw_pipeline p = None <-> Schemas.Missing "pipeline" ∈ errors)
  /\ (Schemas.raw_repo p = None <-> Schemas.Missing "repo" ∈ errors)
  /\ (Schemas.raw_branch p = None <-> Schemas.Missing "branch" ∈ errors)
  /\ (Schemas.raw_status p = None <-> Schemas.Missing "status" ∈ errors)
  /\ (Schemas.raw_started_at p = None <-> Schemas.Missing "started_at" ∈ errors)
  /\ errors <> [].
Proof.
  unfold Schemas.validate, Schemas.required, Schemas.check_status.
  destruct (Schemas.raw_pipeline p), (Schemas.raw_repo p), (Schemas.raw_branch p),
    (Schemas.raw_status p) as [st|], (Schemas.raw_started_at p);
    try destruct (Schemas.status_pattern st);
    intros [= <-]; simpl;
    repeat split; try done; try (intros _; solve [in_errors]);
    try (let H := fresh in intros H; solve [not_in_errors H]).
  all: intros ?; discriminate.
Qed.

(** C1 (as the code has it): a body is accepted exactly when [pipeline],
    [repo], [branch], [status] and [started_at] are all present and the
    status is one of the four canonical names, and the request then
    carries every field as the body gave it; a body that is refused names
    each absent field among the five, [pipeline], [repo] and [branch] like
    [status] and [started_at], and the handler is not run: nothing is
    stored, alerted or sent. *)
Theorem C1_required_fields (p : Schemas.Payload) :
  (forall payload, Schemas.validate p = inr payload <->
      Schemas.raw_pipeline p = Some (Schemas.pipeline payload)
      /\ Schemas.raw_repo p = Some (Schemas.repo payload)
      /\ Schemas.raw_branch p = Some (Schemas.branch payload)
      /\ Schemas.raw_status p = Some (Schemas.status payload)
      /\ Schemas.status_pattern (Schemas.status payload) = true
      /\ Schemas.raw_started_at p = Some (Schemas.started_at payload)
      /\ Schemas.raw_completed_at p = Schemas.completed_at payload
      /\ Schemas.raw_duration_seconds p = Schemas.duration_seconds payload
      /\ Schemas.raw_url p = Schemas.url payload
      /\ Schemas.raw_logs p = Schemas.logs payload)
  /\ (forall errors, Schemas.validate p = inl errors ->
        (Schemas.raw_pipeline p = None <-> Schemas.Missing "pipeline" ∈ errors)
        /\ (Schemas.raw_repo p = None <-> Schemas.Missing "repo" ∈ errors)
        /\ (Schemas.raw_branch p = None <-> Schemas.Missing "branch" ∈ errors)
        /\ (Schemas.raw_status p = None <-> Schemas.Missing "status" ∈ errors)
        /\ (Schemas.raw_started_at p = None <-> Schemas.Missing "started_at" ∈ errors)
        /\ errors <> []
        /\ forall E s, Main.post_ingest_github p E s
                       = (ok (Main.Unprocessable422 errors), s))
  /\ ((Schemas.raw_pipeline p = None \/ Schemas.raw_repo p = None
       \/ Schemas.raw_branch p = None \/ Schemas.raw_status p = None
       \/ Schemas.raw_started_at p = None) ->
      exists errors, Schemas.validate p = inl errors).
Proof.
  split; [intros payload; apply validate_accepts|]. split.
  - intros errors Hv. destruct (validate_rejects p errors Hv) as (H1 & H2 & H3 & H4 & H5 & H6).
    repeat split; try tauto.
    intros E s. unfold Main.post_ingest_github, Main.post. by rewrite Hv.
  - intros Habsent. destruct (Schemas.validate p) as [errors|payload] eqn:Hv; [by exists errors|].
    apply validate_accepts in Hv as (H1 & H2 & H3 & H4 & _ & H5 & _).
    destruct Habsent as [H|[H|[H|[H|H]]]]; congruence.
Qed.

Lemma C1_required_fields_witness :
  (exists payload, Schemas.validate full_body = inr payload
                   /\ Schemas.pipeline payload = "ci")
  /\ exists errors, Schemas.validate no_pipeline = inl errors.
Proof.
  destruct (C1_required_fields no_pipeline) as (_ & _ & Habsent).
  split; [|apply Habsent; by left].
  eexists. split; [reflexivity|reflexivity].
Defined.

(** ** Status mapping *)

Lemma github_collector_status (conclusion : option string) :
  GitHubCollector._map_conclusion_to_status conclusion ∈
    ["success"; "failure"; "cancelled"; "in_progress"]
  /\ (conclusion <> Some "success" -> conclusion <> Some "failure" ->
      conclusion <> Some "cancelled" ->
      GitHubCollector._map_conclusion_to_status conclusion = "in_progress").
Proof.
  unfold GitHubCollector._map_conclusion_to_status. split.
  - repeat case_bool_decide; in_errors.
  - intros H1 H2 H3. by rewrite !bool_decide_false.
Qed.

Lemma jenkins_collector_status (result : option string) :
  JenkinsCollector._map_result_to_status result ∈
    ["success"; "failure"; "cancelled"; "in_progress"]
  /\ (result <> Some "SUCCESS" -> result <> Some "FAILURE" ->
      result <> Some "ABORTED" ->
      JenkinsCollector._map_result_to_status result = "in_progress").
Proof.
  unfold JenkinsCollector._map_result_to_status. split.
  - repeat case_bool_decide; in_errors.
  - intros H1 H2 H3. by rewrite !bool_decide_false.
Qed.

(** The webhook handlers know two outcomes only. *)
Lemma webhook_status_never_in_progress (conclusion : option string) :
  Main.webhook_status conclusion <> "in_progress"
  /\ (conclusion <> Some "success" -> Main.webhook_status conclusion = "failure").
Proof.
  unfold Main.webhook_status. split.
  - by case_bool_decide.
  - intros H. by rewrite bool_decide_false.
Qed.

(** C2: the collector maps the conclusion [timed_out], which is none of
    its terminal codes, to [in_progress]; the GitHub webhook stores the
    same run as a [failure] and raises an alert for it. *)
Theorem C2_webhook_reports_failure :
  GitHubCollector._map_conclusion_to_status (Some "timed_out") = "in_progress"
  /\ Main.webhook_status (Some "timed_out") = "failure"
  /\ exists b s',
       Main.webhook_github timed_out_run calm empty_state = (ok Main.Processed, s')
       /\ db_rows s' = [b]
       /\ Models.status b = "failure"
       /\ alerts_in (trace s') = [("CI Pipeline", "org/app", "", "GitHub Actions run #123")].
Proof.
  split; [reflexivity|]. split; [reflexivity|].
  eexists _, _. split; [vm_compute; reflexivity|].
  split; [reflexivity|]. split; reflexivity.
Qed.

(** * Further properties of the code *)

(** ** Registry operations *)

Lemma count_occ_list_remove (x y : WebSocket) (l : list WebSocket) :
  count_occ Nat.eq_dec (Ws.list_remove x l) y =
    if decide (y = x) then pred (count_occ Nat.eq_dec l x) else count_occ Nat.eq_dec l y.
Proof.
  induction l as [|z l IH]; cbn [Ws.list_remove count_occ].
  - by case_decide.
  - destruct (decide (x = z)) as [->|Hxz].
    + destruct (Nat.eq_dec z y) as [->|Hzy].
      * rewrite decide_True by done. by destruct (Nat.eq_dec y y).
      * rewrite decide_False by done. by destruct (Nat.eq_dec z y).
    + cbn [count_occ]. rewrite IH.
      destruct (decide (y = x)) as [->|Hyx].
      * destruct (Nat.eq_dec z x) as [->|_]; [done|done].
      * done.
Qed.

(** X1: [disconnect] never raises and touches neither the table nor the
    log; for a socket that is not registered it changes nothing; for a
    registered one it drops one entry of that socket, the first (the
    registry is cut at the first entry of the socket and the two parts are
    put together again), and keeps every other entry in its order. *)
Theorem disconnect_drops_one_entry (E : Env) (s : State) (ws : WebSocket) :
  let r := Ws.disconnect ws E s in
  r.1 = ok tt
  /\ db_rows r.2 = db_rows s
  /\ trace r.2 = trace s
  /\ (ws ∉ active s -> r.2 = s)
  /\ sublist (active r.2) (active s)
  /\ (forall x, count_occ Nat.eq_dec (active r.2) x =
                 if decide (x = ws) then pred (count_occ Nat.eq_dec (active s) ws)
                 else count_occ Nat.eq_dec (active s) x)
  /\ (forall before after, active s = before ++ ws :: after -> ws ∉ before ->
        active r.2 = before ++ after)
  /\ (ws ∈ active s ->
        exists before after, active s = before ++ ws :: after /\ ws ∉ before).
Proof.
  cbv zeta. rewrite disconnect_run. cbn [fst snd with_active db_rows trace active].
  split; [done|]. split; [done|]. split; [done|]. split; [|split; [|split; [|split]]].
  - intros Hnot. rewrite bool_decide_false by done. apply state_eta.
  - case_bool_decide; [apply list_remove_sublist|done].
  - intros x. case_bool_decide as Hin; [apply count_occ_list_remove|].
    case_decide; [|done]. subst.
    assert (Hz : count_occ Nat.eq_dec (active s) ws = 0%nat).
    { apply count_occ_not_In. by rewrite <- list_elem_of_In. }
    by rewrite Hz.
  - intros before after Hcut Hfirst.
    rewrite bool_decide_true by (rewrite Hcut; apply elem_of_app; right; by left).
    rewrite Hcut. by apply list_remove_middle.
  - intros Hin. by apply list_elem_of_split_l.
Qed.

Lemma after_broadcasts_active (l : list (Env * Message)) (s : State) :
  active (after_broadcasts l s) = List.filter (survives_all l) (active s).
Proof.
  revert s. induction l as [|[E m] l IH]; intros s.
  - simpl. symmetry. apply forallb_filter_id. by apply forallb_forall.
  - unfold after_broadcasts in *. cbn [fold_left fst snd]. rewrite IH.
    rewrite broadcast_active. unfold surviving.
    clear. induction (active s) as [|x xs IHx]; [done|].
    cbn [List.filter survives_all forallb fst].
    destruct (send_fails E x); cbn [negb andb List.filter].
    + exact IHx.
    + fold (survives_all l x). destruct (survives_all l x); [by f_equal|done].
Qed.

(** X2: a socket's stay leaves no registration behind.  When [accept]
    raises, the endpoint raises and the registry is as before.  Otherwise,
    for a socket that was not registered, whatever broadcasts run between
    its [connect] and its [disconnect] (they may already have dropped it),
    the registry ends as if the socket had never come; with no broadcast in
    between, the endpoint gives back the registry it found. *)
Theorem websocket_stay_leaves_no_entry (E E' : Env) (s : State) (ws : WebSocket)
    (texts : list string) (during : list (Env * Message)) :
  (accept_fails E ws = true ->
     Main.websocket_endpoint ws texts E s = (raise TransportError, s))
  /\ (accept_fails E ws = false -> ws ∉ active s ->
        (Main.websocket_endpoint ws texts E s).1 = ok tt
        /\ active (Main.websocket_endpoint ws texts E s).2 = active s
        /\ active (Ws.disconnect ws E' (after_broadcasts during (Ws.connect ws E s).2)).2
             = active (after_broadcasts during s)).
Proof.
  split.
  - intros Hacc. unfold Main.websocket_endpoint.
    unfold mbind, M_bind. by rewrite connect_run, Hacc.
  - intros Hacc Hnew. split; [|split].
    + unfold Main.websocket_endpoint. unfold mbind, M_bind.
      rewrite connect_run, Hacc. unfold ok at 1. by rewrite disconnect_run.
    + unfold Main.websocket_endpoint. unfold mbind, M_bind.
      rewrite connect_run, Hacc. unfold ok at 1. rewrite disconnect_run.
      cbn [fst snd with_active active].
      rewrite bool_decide_true by (apply elem_of_app; right; by left).
      change (active s ++ [ws]) with (active s ++ ws :: []).
      rewrite list_remove_middle by done. apply app_nil_r.
    + rewrite disconnect_run. cbn [snd with_active active].
      rewrite !after_broadcasts_active, connect_run, Hacc. cbn [snd active].
      rewrite List.filter_app. cbn [List.filter].
      assert (Hout : ws ∉ List.filter (survives_all during) (active s)).
      { rewrite list_elem_of_In, filter_In, <- list_elem_of_In. tauto. }
      destruct (survives_all during ws).
      * rewrite bool_decide_true by (apply elem_of_app; right; by left).
        rewrite list_remove_middle by done. apply app_nil_r.
      * rewrite app_nil_r. by rewrite bool_decide_false.
Qed.

Lemma websocket_stay_witness :
  active (Main.websocket_endpoint 7%nat [] calm empty_state).2 = []
  /\ active (Ws.disconnect 7%nat calm
               (after_broadcasts [(calm, sample_message)]
                  (Ws.connect 7%nat calm empty_state).2)).2 = [].
Proof.
  destruct (websocket_stay_leaves_no_entry calm calm empty_state 7%nat []
              [(calm, sample_message)]) as [_ H].
  destruct (H eq_refl) as (_ & H1 & H2).
  { intros Hin. by apply elem_of_nil in Hin. }
  split; [exact H1|exact H2].
Defined.

(** X3: two broadcasts in a row deliver the first message to everyone
    before the second to anyone, each in the order of registration, and
    whoever receives the second message has received the first. *)
Theorem broadcasts_in_order (E1 E2 : Env) (m1 m2 : Message) (s : State) :
  let s1 := (Ws.broadcast m1 E1 s).2 in
  let s2 := (Ws.broadcast m2 E2 s1).2 in
  emitted s s2 =
    map (fun ws => Delivered ws m1) (surviving E1 (active s))
    ++ map (fun ws => Delivered ws m2) (surviving E2 (surviving E1 (active s)))
  /\ sublist (surviving E2 (surviving E1 (active s))) (surviving E1 (active s))
  /\ sublist (surviving E1 (active s)) (active s)
  /\ (forall ws, Delivered ws m2 ∈ emitted s1 s2 -> Delivered ws m1 ∈ emitted s s1).
Proof.
  cbv zeta. split; [|split; [|split]].
  - apply emitted_app. rewrite !broadcast_run. cbn [snd trace active].
    by rewrite <- app_assoc.
  - apply list_filter_sublist.
  - apply list_filter_sublist.
  - intros ws. rewrite !broadcast_emitted, broadcast_active.
    rewrite !list_elem_of_fmap. intros (x & [= ->] & Hx).
    exists x. split; [done|]. by apply elem_of_surviving in Hx as [Hx _].
Qed.

(** ** Persisting *)



Lemma persist_cases (provider : string) (data : IngestRequest) (E : Env) (s : State) :
  let mixed :=
    Schemas.duration_seconds data = None
    /\ exists c, Schemas.completed_at data = Some c
                 /\ dt_aware c <> dt_aware (Schemas.started_at data) in
  (mixed /\ Main._persist provider data E s = (raise TypeError, s))
  \/ (~ mixed /\ store_up E = false
      /\ Main._persist provider data E s = (raise StoreError, s))
  \/ (~ mixed /\ store_up E = true
      /\ exists b, Main._persist provider data E s =
            (ok b, {| db_rows := db_rows s ++ [b]; active := active s;
                      trace := trace s ++ [Committed b] |})).
Proof.
  cbv zeta. rewrite persist_run. unfold derived_duration.
  assert (Hstore : forall dur (P : Prop), ~ P ->
    (P /\ (if store_up E
           then (ok (stored_row provider data dur E s),
                 {| db_rows := db_rows s ++ [stored_row provider data dur E s];
                    active := active s;
                    trace := trace s ++ [Committed (stored_row provider data dur E s)] |})
           else (raise StoreError, s)) = (raise TypeError, s))
    \/ (~ P /\ store_up E = false
        /\ (if store_up E
            then (ok (stored_row provider data dur E s),
                 {| db_rows := db_rows s ++ [stored_row provider data dur E s];
                    active := active s;
                    trace := trace s ++ [Committed (stored_row provider data dur E s)] |})
            else (raise StoreError, s)) = (raise StoreError, s))
    \/ (~ P /\ store_up E = true
        /\ exists b,
            (if store_up E
             then (ok (stored_row provider data dur E s),
                 {| db_rows := db_rows s ++ [stored_row provider data dur E s];
                    active := active s;
                    trace := trace s ++ [Committed (stored_row provider data dur E s)] |})
             else (raise StoreError, s))
            = (ok b, {| db_rows := db_rows s ++ [b]; active := active s;
                        trace := trace s ++ [Committed b] |}))).
  { intros dur P HP. right.
    destruct (store_up E); [right|left]; split; try done. split; [done|]. by eexists. }
  destruct (Schemas.duration_seconds data) as [d|];
    [|destruct (Schemas.completed_at data) as [c|]].
  - cbn [mret result_ret ok]. apply Hstore. by intros [? _].
  - unfold datetime_sub.
    destruct (Bool.eqb (dt_aware c) (dt_aware (Schemas.started_at data))) eqn:Haw.
    + apply Bool.eqb_prop in Haw. cbn [mbind result_bind mret result_ret ok].
      apply Hstore. intros (_ & c0 & [= <-] & Hne). done.
    + apply Bool.eqb_false_iff in Haw. left. split; [|done].
      split; [done|]. by exists c.
  - cbn [mret result_ret ok]. apply Hstore. by intros (_ & c0 & ? & _).
Qed.

(** X5: [_persist] raises in two cases only: the database refuses the
    commit ([StoreError]), or the duration has to be derived from a naive
    and an aware timestamp ([TypeError]); in both the state is left as it
    was: no row, no alert, no notification.  In every other case it stores
    exactly one row, which it returns. *)
Theorem persist_raises_iff (provider : string) (data : IngestRequest)
    (E : Env) (s : State) :
  let r := Main._persist provider data E s in
  let mixed :=
    Schemas.duration_seconds data = None
    /\ exists c, Schemas.completed_at data = Some c
                 /\ dt_aware c <> dt_aware (Schemas.started_at data) in
  (r.1 = raise TypeError <-> mixed)
  /\ (r.1 = raise StoreError <-> ~ mixed /\ store_up E = false)
  /\ (forall e, r.1 = raise e -> r.2 = s /\ (e = TypeError \/ e = StoreError))
  /\ (forall b, r.1 = ok b ->
        db_rows r.2 = db_rows s ++ [b] /\ emitted s r.2 = [Committed b]
        /\ active r.2 = active s).
Proof.
  cbv zeta.
  destruct (persist_cases provider data E s)
    as [[Hm ->]|[(Hm & Hup & ->)|(Hm & Hup & b & ->)]]; cbn [fst snd].
  - split; [done|]. split; [split; [done|tauto]|]. split.
    + intros e [= <-]. split; [done|by left].
    + intros b [=].
  - split; [split; [done|tauto]|]. split; [done|]. split.
    + intros e [= <-]. split; [done|by right].
    + intros b [=].
  - split; [split; [done|tauto]|]. split; [split; [done|]|].
    { intros [_ H]. congruence. }
    split.
    + intros e [=].
    + intros b' [= <-]. split; [done|]. split; [by apply emitted_app|done].
Qed.

(** ** Ingestion paths *)

Lemma stored_row_same (provider : string) (data : IngestRequest) (dur : option float)
    (E E' : Env) (s s' : State) :
  db_now E = db_now E' -> db_rows s = db_rows s' ->
  stored_row provider data dur E s = stored_row provider data dur E' s'.
Proof. intros Hn Hr. unfold stored_row. by rewrite Hn, Hr. Qed.

(** X6: what an ingestion answers and stores does not depend on the
    sockets: with the same clock, database, table and outcome of the alert
    channels, the handler returns the same row (or raises the same error),
    leaves the same table and raises the same alerts whoever is registered
    and whichever sends fail. *)
Theorem ingest_outcome_ignores_sockets (payload : IngestRequest) (E E' : Env)
    (s s' : State) :
  store_up E = store_up E' -> db_now E = db_now E' ->
  Alerting.delivery E = Alerting.delivery E' -> db_rows s = db_rows s' ->
  (Main.ingest_github payload E s).1 = (Main.ingest_github payload E' s').1
  /\ db_rows (Main.ingest_github payload E s).2
       = db_rows (Main.ingest_github payload E' s').2
  /\ alerts_in (emitted s (Main.ingest_github payload E s).2)
       = alerts_in (emitted s' (Main.ingest_github payload E' s').2).
Proof.
  intros Hup Hnow Halert Hrows. unfold Main.ingest_github.
  rewrite !(ingest_run (fun b => b)), <- Hup.
  destruct (derived_duration payload) as [e|dur]; cbn [fst snd].
  { split; [done|]. split; [done|]. unfold emitted. by rewrite !drop_all. }
  destruct (store_up E); cbv zeta; cbn [fst snd db_rows].
  2:{ split; [done|]. split; [done|]. unfold emitted. by rewrite !drop_all. }
  rewrite <- (stored_row_same "github" payload dur E E' s s' Hnow Hrows).
  set (b := stored_row "github" payload dur E s).
  assert (Herr : alert_error E' b = alert_error E b).
  { unfold alert_error. by rewrite Halert. }
  split; [by rewrite Herr|]. split; [by rewrite Hrows|].
  by rewrite !ingest_emitted, !alerts_in_ingestion_effects.
Qed.

Lemma ingest_outcome_ignores_sockets_witness :
  (Main.ingest_github failed_request calm empty_state).1
    = (Main.ingest_github failed_request stormy two_listeners).1
  /\ alerts_in (emitted two_listeners
                  (Main.ingest_github failed_request stormy two_listeners).2)
       = [("ci", "org/app", "", "")].
Proof.
  destruct (ingest_outcome_ignores_sockets failed_request calm stormy
              empty_state two_listeners eq_refl eq_refl eq_refl eq_refl)
    as (H1 & _ & H3).
  split; [exact H1|]. rewrite <- H3. reflexivity.
Defined.

(** ** Webhooks *)

Lemma webhook_body_run (provider : string) (data : IngestRequest) (E : Env) (s : State) :
  try_except
    (build ← Main._persist provider data;
     Main.alert_and_broadcast build;; mret Main.Processed)
    (fun e => mret (Main.Failed e)) E s =
    match derived_duration data with
    | inl e => (ok (Main.Failed e), s)
    | inr dur =>
        if store_up E then
          let b := stored_row provider data dur E s in
          (ok (match alert_error E b with
               | Some e => Main.Failed e
               | None => Main.Processed
               end),
           {| db_rows := db_rows s ++ [b];
              active := registry_after E s b;
              trace := trace s ++ Committed b ::
                (if bool_decide (Models.status b = "failure")
                 then [Alerted (Models.pipeline b) (Models.repo b)
                         (Main.or_empty (Models.url b)) (Main.or_empty (Models.logs b))]
                 else [])
                ++ map (fun ws => Delivered ws (Main.build_ingested b))
                       (notified E s b) |})
        else (ok (Main.Failed StoreError), s)
    end.
Proof.
  unfold try_except. rewrite (ingest_run (fun _ => Main.Processed)).
  destruct (derived_duration data) as [e|dur]; [done|].
  destruct (store_up E); [|done]. cbv zeta. by destruct (alert_error E _).
Qed.

Lemma webhook_jenkins_run (payload : Main.WebhookPayload) (E : Env) (s : State) :
  Main.webhook_jenkins payload E s =
    try_except
      (build ← Main._persist "jenkins"
                 (Main.webhook_request E None "Jenkins build #" payload);
       Main.alert_and_broadcast build;; mret Main.Processed)
      (fun e => mret (Main.Failed e)) E s.
Proof. reflexivity. Qed.

Lemma webhook_github_run (payload : Main.WebhookPayload) (E : Env) (s : State) :
  Main.webhook_github payload E s =
    if bool_decide (Main.wh_action payload ≠ Some "completed")
    then (ok Main.Ignored, s)
    else
      try_except
        (build ← Main._persist "github"
                   (Main.webhook_request E
                      (Main.wr_head_branch (Main.wh_workflow_run payload))
                      "GitHub Actions run #" payload);
         Main.alert_and_broadcast build;; mret Main.Processed)
        (fun e => mret (Main.Failed e)) E s.
Proof. unfold Main.webhook_github, try_except. by case_bool_decide. Qed.

(** X7: the GitHub webhook acts on completed runs only: for any other
    action, or none, it answers "ignored" and changes nothing. *)
Theorem webhook_github_ignores_other_actions (payload : Main.WebhookPayload)
    (E : Env) (s : State) :
  Main.wh_action payload <> Some "completed" ->
  Main.webhook_github payload E s = (ok Main.Ignored, s).
Proof. intros H. rewrite webhook_github_run. by rewrite bool_decide_true. Qed.

Lemma webhook_request_duration (E : Env) (branch : option string) (label : string)
    (payload : Main.WebhookPayload) :
  let data := Main.webhook_request E branch label payload in
  let started := default (now E) (Main.wr_created_at (Main.wh_workflow_run payload)) in
  let completed :=
    default (now_later E) (Main.wr_updated_at (Main.wh_workflow_run payload)) in
  derived_duration data =
    if Bool.eqb (dt_aware completed) (dt_aware started)
    then ok (Some (total_seconds (utc_us completed - utc_us started)))
    else raise TypeError.
Proof.
  cbv zeta. unfold derived_duration, Main.webhook_request, datetime_sub.
  cbn [Schemas.duration_seconds Schemas.completed_at Schemas.started_at].
  by destruct (Bool.eqb _ _).
Qed.

Lemma webhook_body_spec (provider label : string) (branch : option string)
    (payload : Main.WebhookPayload) (E : Env) (s : State) :
  let r := try_except
      (build ← Main._persist provider (Main.webhook_request E branch label payload);
       Main.alert_and_broadcast build;; mret Main.Processed)
      (fun e => mret (Main.Failed e)) E s in
  (exists b, db_rows r.2 = db_rows s ++ [b] /\ webhook_row b payload
             /\ Models.provider b = provider
             /\ Models.branch b = default "main" branch
             /\ emitted s r.2 = ingestion_effects E s b
             /\ alerts_in (emitted s r.2) = expected_alerts b
             /\ r.1 = ok (match alert_error E b with
                          | Some e => Main.Failed e
                          | None => Main.Processed
                          end))
  \/ (exists e, r.1 = ok (Main.Failed e) /\ r.2 = s
                /\ (e = TypeError \/ e = StoreError)).
Proof.
  cbv zeta. rewrite webhook_body_run, webhook_request_duration. cbv zeta.
  destruct (Bool.eqb _ _); cbn [raise].
  2:{ right. exists TypeError. split; [done|]. split; [done|]. by left. }
  unfold ok. cbv beta iota. destruct (store_up E).
  2:{ right. exists StoreError. split; [done|]. split; [done|]. by right. }
  left. cbv zeta. cbn [fst snd db_rows].
  eexists. split; [reflexivity|]. split; [|split; [done|split; [done|]]].
  - unfold webhook_row, stored_row, Main.webhook_request, Main.webhook_status.
    cbn [Models.status Models.pipeline Models.repo Models.completed_at
         Models.duration_seconds Schemas.status Schemas.pipeline Schemas.repo
         Schemas.completed_at].
    case_bool_decide as Hc.
    + split; [by left|]. split; [done|]. split; [done|]. split; [done|]. split; by eexists.
    + split; [by right|]. split; [split; [discriminate|done]|].
      split; [done|]. split; [done|]. split; by eexists.
  - rewrite ingest_emitted. split; [done|]. split; [|done].
    apply alerts_in_ingestion_effects.
Qed.

(** The outcome of a webhook call, in full. *)
Lemma webhooks_never_raise_aux (payload : Main.WebhookPayload) (E : Env) (s : State) :
  (let r := Main.webhook_jenkins payload E s in
   (exists b, db_rows r.2 = db_rows s ++ [b] /\ webhook_row b payload
              /\ Models.provider b = "jenkins"
              /\ Models.branch b = "main"
              /\ emitted s r.2 = ingestion_effects E s b
              /\ alerts_in (emitted s r.2) = expected_alerts b
              /\ r.1 = ok (match alert_error E b with
                           | Some e => Main.Failed e
                           | None => Main.Processed
                           end))
   \/ (exists e, r.1 = ok (Main.Failed e) /\ r.2 = s
                 /\ (e = TypeError \/ e = StoreError)))
  /\ (let r := Main.webhook_github payload E s in
      (Main.wh_action payload = Some "completed"
       /\ exists b, db_rows r.2 = db_rows s ++ [b] /\ webhook_row b payload
                    /\ Models.provider b = "github"
                    /\ Models.branch b
                         = default "main" (Main.wr_head_branch (Main.wh_workflow_run payload))
                    /\ emitted s r.2 = ingestion_effects E s b
                    /\ alerts_in (emitted s r.2) = expected_alerts b
                    /\ r.1 = ok (match alert_error E b with
                                 | Some e => Main.Failed e
                                 | None => Main.Processed
                                 end))
      \/ (r = (ok Main.Ignored, s) /\ Main.wh_action payload <> Some "completed")
      \/ (exists e, r.1 = ok (Main.Failed e) /\ r.2 = s
                    /\ (e = TypeError \/ e = StoreError)))
  /\ (forall b e, alert_error E b = Some e ->
        e = ValueError /\ Models.status b = "failure" /\ notified E s b = []).
Proof.
  split; [|split].
  - cbv zeta. rewrite webhook_jenkins_run.
    apply (webhook_body_spec "jenkins" "Jenkins build #" None).
  - cbv zeta. rewrite webhook_github_run. case_bool_decide as Hact.
    + right. left. done.
    + destruct (webhook_body_spec "github" "GitHub Actions run #"
               (Main.wr_head_branch (Main.wh_workflow_run payload)) payload E s)
        as [(b & Hb)|He]; cbv zeta in *.
      * left. split; [done|]. by exists b.
      * right. right. done.
  - intros b e He. unfold notified. rewrite He.
    apply alert_error_value in He as (? & ? & _). done.
Qed.


Lemma webhook_ignores_witness :
  Main.webhook_github requested_run calm empty_state = (ok Main.Ignored, empty_state).
Proof.
  apply (webhook_github_ignores_other_actions requested_run calm empty_state).
  discriminate.
Defined.

(** ** The table *)

Lemma post_run (handler : IngestRequest -> M Build) (body : Schemas.Payload)
    (E : Env) (s : State) :
  Main.post handler body E s =
    match Schemas.validate body with
    | inl errors => (ok (Main.Unprocessable422 errors), s)
    | inr payload =>
        match handler payload E s with
        | (inl e, s') => (inl e, s')
        | (inr b, s') => (ok (Main.Ok200 b), s')
        end
    end.
Proof.
  unfold Main.post. destruct (Schemas.validate body) as [errors|payload]; [done|].
  unfold mbind, M_bind. by destruct (handler payload E s) as [[e|b] s'].
Qed.

Lemma status_pattern_canonical (st : string) :
  Schemas.status_pattern st = true <-> canonical_status st.
Proof.
  unfold Schemas.status_pattern, canonical_status.
  rewrite !orb_true_iff, !bool_decide_eq_true. tauto.
Qed.

Lemma post_ingest_rows (provider : string) (body : Schemas.Payload) (E : Env) (s : State) :
  let r := Main.post (fun payload => b ← Main._persist provider payload;
                                     Main.alert_and_broadcast b;; mret b) body E s in
  db_rows r.2 = db_rows s
  \/ exists b, db_rows r.2 = db_rows s ++ [b]
               /\ canonical_status (Models.status b)
               /\ Models.provider b = provider
               /\ r.1 = match alert_error E b with
                        | Some e => raise e
                        | None => ok (Main.Ok200 b)
                        end.
Proof.
  cbv zeta. rewrite post_run.
  destruct (Schemas.validate body) as [errors|payload] eqn:Hv; [by left|].
  apply validate_accepts in Hv as (_ & _ & _ & _ & Hst & _).
  rewrite (ingest_run (fun b => b)).
  destruct (derived_duration payload) as [e|dur]; [by left|].
  destruct (store_up E); [|by left].
  right. cbv zeta. exists (stored_row provider payload dur E s).
  destruct (alert_error E _); unfold ok; cbn [fst snd db_rows].
  all: split; [reflexivity|].
  all: split; [by apply status_pattern_canonical|]. all: done.
Qed.

(** X9: the table keeps its statuses canonical: if every stored status is
    one of [success], [failure], [cancelled], [in_progress], it is still so
    after any call of the two ingestion endpoints or of the two webhooks,
    whatever the body. *)
Theorem table_stays_canonical (E : Env) (s : State) :
  canonical_rows (db_rows s) ->
  (forall body, canonical_rows (db_rows (Main.post_ingest_github body E s).2))
  /\ (forall body, canonical_rows (db_rows (Main.post_ingest_jenkins body E s).2))
  /\ (forall payload, canonical_rows (db_rows (Main.webhook_github payload E s).2))
  /\ (forall payload, canonical_rows (db_rows (Main.webhook_jenkins payload E s).2)).
Proof.
  intros Hs.
  assert (Hadd : forall rows b, rows = db_rows s ++ [b] ->
                   canonical_status (Models.status b) -> canonical_rows rows).
  { intros rows b -> Hb x [Hx|Hx%list_elem_of_singleton]%elem_of_app; [by apply Hs|by subst]. }
  assert (Hhook : forall b payload, webhook_row b payload ->
                    canonical_status (Models.status b)).
  { intros b payload ([H|H] & _); unfold canonical_status; tauto. }
  split; [|split; [|split]].
  - intros body. destruct (post_ingest_rows "github" body E s) as [H|(b & H & Hb & _)].
    + unfold Main.post_ingest_github, Main.ingest_github. by rewrite H.
    + by apply (Hadd _ b).
  - intros body. destruct (post_ingest_rows "jenkins" body E s) as [H|(b & H & Hb & _)].
    + unfold Main.post_ingest_jenkins, Main.ingest_jenkins. by rewrite H.
    + by apply (Hadd _ b).
  - intros payload.
    destruct (webhooks_never_raise_aux payload E s) as (_ & H & _). cbv zeta in H.
    destruct H as [(_ & b & Hb & Hrow & _)|[[-> _]|(e & _ & -> & _)]]; [|done|done].
    apply (Hadd _ b Hb). by eapply Hhook.
  - intros payload.
    destruct (webhooks_never_raise_aux payload E s) as (H & _ & _). cbv zeta in H.
    destruct H as [(b & Hb & Hrow & _)|(e & _ & -> & _)]; [|done].
    apply (Hadd _ b Hb). by eapply Hhook.
Qed.

Lemma table_stays_canonical_witness :
  canonical_rows (db_rows (Main.webhook_github timed_out_run calm empty_state).2).
Proof.
  destruct (table_stays_canonical calm empty_state) as (_ & _ & H & _).
  - intros b Hb. by apply elem_of_nil in Hb.
  - apply H.
Defined.

(** X10: the table only grows at its end: every handler leaves the rows it
    found in place and unchanged; an ingestion endpoint or a webhook adds
    at most one row after them; the queries, the registry operations and
    the socket endpoint add none. *)
Theorem table_is_append_only (E : Env) (s : State) :
  (forall body, appends_at_most_one s (Main.post_ingest_github body E s).2)
  /\ (forall body, appends_at_most_one s (Main.post_ingest_jenkins body E s).2)
  /\ (forall payload, appends_at_most_one s (Main.webhook_github payload E s).2)
  /\ (forall payload, appends_at_most_one s (Main.webhook_jenkins payload E s).2)
  /\ (forall window, (Main.metrics_summary window E s).2 = s)
  /\ (forall limit, (Main.list_builds limit E s).2 = s)
  /\ (forall pipeline, (Main.latest_build pipeline E s).2 = s)
  /\ (forall message, db_rows (Ws.broadcast message E s).2 = db_rows s)
  /\ (forall ws, db_rows (Ws.connect ws E s).2 = db_rows s)
  /\ (forall ws, db_rows (Ws.disconnect ws E s).2 = db_rows s)
  /\ (forall ws texts, db_rows (Main.websocket_endpoint ws texts E s).2 = db_rows s).
Proof.
  repeat match goal with |- _ /\ _ => split end.
  - intros body. destruct (post_ingest_rows "github" body E s) as [H|(b & H & _)];
      [by left|right; by exists b].
  - intros body. destruct (post_ingest_rows "jenkins" body E s) as [H|(b & H & _)];
      [by left|right; by exists b].
  - intros payload.
    destruct (webhooks_never_raise_aux payload E s) as (_ & H & _). cbv zeta in H.
    destruct H as [(_ & b & Hb & _)|[[-> _]|(e & _ & -> & _)]];
      [right; by exists b|by left|by left].
  - intros payload.
    destruct (webhooks_never_raise_aux payload E s) as (H & _ & _). cbv zeta in H.
    destruct H as [(b & Hb & _)|(e & _ & -> & _)]; [right; by exists b|by left].
  - intros window. rewrite metrics_summary_run.
    by destruct (Main.window_since _ _).
  - done.
  - done.
  - intros message. by rewrite broadcast_run.
  - intros ws. rewrite connect_run. by destruct (accept_fails E ws).
  - intros ws. by rewrite disconnect_run.
  - intros ws texts. unfold Main.websocket_endpoint, mbind, M_bind.
    rewrite connect_run. destruct (accept_fails E ws); [done|].
    unfold ok at 1. by rewrite disconnect_run.
Qed.

(** ** Listings *)

#[local] Instance started_desc_trans : Transitive Main.started_desc.
Proof. intros a b c. unfold Main.started_desc. lia. Qed.

#[local] Instance started_desc_total : Total Main.started_desc.
Proof. intros a b. unfold Main.started_desc. lia. Qed.

Lemma order_by_sorted (rows : list Build) :
  StronglySorted Main.started_desc (Main.order_by_started_at_desc rows).
Proof. apply StronglySorted_merge_sort; apply _. Qed.

Lemma order_by_perm (rows : list Build) :
  Main.order_by_started_at_desc rows ≡ₚ rows.
Proof. apply merge_sort_Permutation. Qed.

Lemma sql_limit_in_range (limit : Z) (rows : list Build) :
  0 <= limit < 2 ^ 63 ->
  Main.sql_limit limit rows = ok (take (Z.to_nat limit) rows).
Proof.
  intros [H0 H1]. unfold Main.sql_limit.
  destruct (Z.leb_spec (- 2 ^ 63) limit); [|lia].
  destruct (Z.ltb_spec limit (2 ^ 63)); [|lia].
  by destruct (Z.ltb_spec limit 0); [lia|].
Qed.

(** X11: [GET /builds] with a bound n >= 0 (50 when omitted) that fits a
    64-bit integer returns min(n, number of rows) stored rows, latest
    first, and no row it leaves out started later than a row it returns;
    with a bound of 2^63 or more the query raises [OverflowError]; in both
    cases the table is not touched. *)
Theorem list_builds_latest_first (limit : option Z) (E : Env) (s : State) :
  0 <= default 50 limit ->
  (default 50 limit < 2 ^ 63 ->
     exists page rest,
       Main.list_builds limit E s = (ok page, s)
       /\ page ++ rest ≡ₚ db_rows s
       /\ length page = Nat.min (Z.to_nat (default 50 limit)) (length (db_rows s))
       /\ StronglySorted Main.started_desc page
       /\ (forall r r', r ∈ page -> r' ∈ rest ->
             dt_us (Models.started_at r') <= dt_us (Models.started_at r)))
  /\ (2 ^ 63 <= default 50 limit ->
        Main.list_builds limit E s = (raise OverflowError, s)).
Proof.
  intros Hn. set (n := default 50 limit) in *. split.
  - intros Hfit.
    set (sorted := Main.order_by_started_at_desc (db_rows s)).
    exists (take (Z.to_nat n) sorted), (drop (Z.to_nat n) sorted).
    pose proof (order_by_sorted (db_rows s)) as Hsorted. fold sorted in Hsorted.
    rewrite <- (take_drop (Z.to_nat n) sorted) in Hsorted.
    split; [|split; [|split; [|split]]].
    + unfold Main.list_builds. fold n. unfold mbind, M_bind, get. unfold ok at 1.
      cbv beta iota. unfold lift. by rewrite sql_limit_in_range.
    + rewrite take_drop. apply order_by_perm.
    + rewrite length_take. f_equal. unfold sorted. by rewrite order_by_perm.
    + by apply StronglySorted_app_1_l in Hsorted.
    + intros r r' Hr Hr'.
      apply (StronglySorted_app_1_elem_of _ _ _ r r' Hsorted Hr Hr').
  - intros Hbig. unfold Main.list_builds. fold n. unfold mbind, M_bind, get.
    unfold ok at 1. cbv beta iota. unfold lift, Main.sql_limit.
    destruct (Z.ltb_spec n (2 ^ 63)); [lia|]. by rewrite andb_false_r.
Qed.

Lemma list_builds_witness :
  exists page, Main.list_builds (Some 1) calm later_first = (ok page, later_first)
               /\ length page = 1%nat.
Proof.
  destruct (list_builds_latest_first (Some 1) calm later_first) as [H _];
    [simpl; lia|].
  destruct H as (page & rest & Hrun & _ & Hlen & _); [simpl; lia|].
  exists page. split; [exact Hrun|exact Hlen].
Defined.

(** The rows [latest_build] chooses from. *)
Lemma latest_build_run (pipeline : option string) (E : Env) (s : State) :
  Main.latest_build pipeline E s =
    (ok (head (Main.order_by_started_at_desc
                 (if Main.truthy pipeline
                  then List.filter
                         (fun r => bool_decide (Some (Models.pipeline r) = pipeline))
                         (db_rows s)
                  else db_rows s))), s).
Proof.
  unfold Main.latest_build. unfold mbind, M_bind, get. unfold ok at 1.
  cbv beta iota. unfold lift. rewrite sql_limit_in_range by lia.
  unfold ok at 1. cbv beta iota. unfold mret, M_ret.
  do 2 f_equal. by destruct (Main.order_by_started_at_desc _).
Qed.

Lemma head_of_sorted (rows : list Build) :
  match head (Main.order_by_started_at_desc rows) with
  | None => rows = []
  | Some b => b ∈ rows /\ forall r, r ∈ rows ->
                dt_us (Models.started_at r) <= dt_us (Models.started_at b)
  end.
Proof.
  pose proof (order_by_sorted rows) as Hsorted.
  pose proof (order_by_perm rows) as Hperm.
  destruct (Main.order_by_started_at_desc rows) as [|b l]; simpl.
  - symmetry in Hperm. by apply Permutation_nil_r in Hperm.
  - split; [rewrite <- Hperm; by left|].
    intros r Hr. rewrite <- Hperm in Hr.
    apply StronglySorted_cons in Hsorted as [Hall _].
    apply elem_of_cons in Hr as [->|Hr]; [lia|].
    rewrite Forall_forall in Hall. by apply Hall.
Qed.

Lemma latest_build_is_latest_aux (pipeline : option string) (E : Env) (s : State) :
  let selects (r : Build) :=
    pipeline = None \/ pipeline = Some "" \/ pipeline = Some (Models.pipeline r) in
  exists answer,
    Main.latest_build pipeline E s = (ok answer, s)
    /\ (answer = None <-> forall r, r ∈ db_rows s -> ~ selects r)
    /\ (forall b, answer = Some b ->
          b ∈ db_rows s /\ selects b
          /\ forall r, r ∈ db_rows s -> selects r ->
               dt_us (Models.started_at r) <= dt_us (Models.started_at b)).
Proof.
  cbv zeta. eexists. rewrite latest_build_run. split; [reflexivity|].
  set (rows := if Main.truthy pipeline then _ else _).
  assert (Hrows : forall r, r ∈ rows <->
            r ∈ db_rows s /\ (pipeline = None \/ pipeline = Some ""
                              \/ pipeline = Some (Models.pipeline r))).
  { intros r. unfold rows, Main.truthy. destruct pipeline as [p|].
    - case_bool_decide as Hp; simpl.
      + subst. split; [intros H; split; [done|]; right; by left|by intros [? _]].
      + rewrite list_elem_of_In, filter_In, <- list_elem_of_In, bool_decide_eq_true.
        split; intros [Hin H]; (split; [done|]).
        * right. right. done.
        * destruct H as [H|[H|H]]; congruence.
    - split; [intros H; split; [done|]; by left|by intros [? _]]. }
  pose proof (head_of_sorted rows) as Hhead.
  destruct (head (Main.order_by_started_at_desc rows)) as [b|].
  - destruct Hhead as [Hb Hmax]. split.
    + split; [done|]. intros Hnone. apply Hrows in Hb as [Hb Hsel].
      by destruct (Hnone b Hb).
    + intros b' [= <-]. apply Hrows in Hb as [Hb Hsel]. split; [done|]. split; [done|].
      intros r Hr Hsel'. apply Hmax. by apply Hrows.
  - split; [|done]. split; [|done]. intros _ r Hr Hsel.
    assert (Hin : r ∈ rows) by (by apply Hrows).
    rewrite Hhead in Hin. by apply elem_of_nil in Hin.
Qed.


(** X12: [GET /builds/latest] answers null exactly when no stored row
    matches, and otherwise a stored matching row that no matching row
    started after; a pipeline name selects the rows of that pipeline, while
    an omitted or empty name selects every row. *)
Theorem latest_build_is_latest (pipeline : option string) (E : Env) (s : State) :
  let selects (r : Build) :=
    pipeline = None \/ pipeline = Some "" \/ pipeline = Some (Models.pipeline r) in
  exists answer,
    Main.latest_build pipeline E s = (ok answer, s)
    /\ (answer = None <-> forall r, r ∈ db_rows s -> ~ selects r)
    /\ (forall b, answer = Some b ->
          b ∈ db_rows s /\ selects b
          /\ forall r, r ∈ db_rows s -> selects r ->
               dt_us (Models.started_at r) <= dt_us (Models.started_at b)).
Proof. apply latest_build_is_latest_aux. Qed.

Lemma elem_of_rows_since (since : datetime) (rows : list Build) (r : Build) :
  r ∈ Main.rows_since since rows <->
  r ∈ rows /\ dt_us since <= dt_us (Models.started_at r).
Proof.
  unfold Main.rows_since, datetime_geb.
  rewrite !list_elem_of_In, filter_In. by rewrite Z.leb_le.
Qed.

(** X13: the two views of "latest" agree: when a pipeline (of non-empty
    name) has an event inside the window and no other event of the
    pipeline started at the same time or later, [GET /builds/latest] for
    that pipeline answers that event and the metrics report its status for
    the pipeline. *)
Theorem latest_build_agrees_with_metrics (window : option string) (E : Env)
    (s : State) (since : datetime) (b : Build) :
  Main.window_since (default "7d" window) (now E) = ok since ->
  b ∈ db_rows s ->
  Models.pipeline b <> "" ->
  dt_us since <= dt_us (Models.started_at b) ->
  (forall r, r ∈ db_rows s -> Models.pipeline r = Models.pipeline b ->
             dt_us (Models.started_at b) <= dt_us (Models.started_at r) -> r = b) ->
  exists out,
    Main.metrics_summary window E s = (ok out, s)
    /\ Main.latest_build (Some (Models.pipeline b)) E s = (ok (Some b), s)
    /\ Schemas.last_status_by_pipeline out !! Models.pipeline b = Some (Models.status b).
Proof.
  intros Hsince Hb Hname Hin Hunique.
  eexists. rewrite metrics_summary_run, Hsince. unfold ok at 1.
  split; [reflexivity|]. split.
  - destruct (latest_build_is_latest_aux (Some (Models.pipeline b)) E s)
      as (answer & -> & Hnone & Hsome).
    destruct answer as [b'|].
    + destruct (Hsome b' eq_refl) as (Hb' & [?|[?|Hsel]] & Hmax); [done|congruence|].
      injection Hsel as Hsel. do 3 f_equal. apply Hunique; [done|done|].
      apply Hmax; [done|]. right. right. done.
    + exfalso. apply (proj1 Hnone eq_refl b Hb). right. right. done.
  - set (rows := Main.rows_since since (db_rows s)).
    destruct (Schemas.last_status_by_pipeline _ !! Models.pipeline b) as [st|] eqn:Hl;
      destruct (last_status_spec (default "7d" window) rows (Models.pipeline b))
        as [Hnone Hsome].
    + apply Hsome in Hl as (i & b' & (Hi & Hp & Hmax & _) & <-).
      f_equal. f_equal. apply Hunique; [|done|].
      * apply list_elem_of_lookup_2 in Hi. by apply elem_of_rows_since in Hi as [? _].
      * assert (Hbin : b ∈ rows) by (by apply elem_of_rows_since).
        apply list_elem_of_lookup_1 in Hbin as [j Hj]. by apply (Hmax j b).
    + exfalso. apply (proj1 Hnone Hl b); [by apply elem_of_rows_since|done].
Qed.

Lemma latest_build_agrees_witness :
  exists out,
    Main.metrics_summary None calm later_first = (ok out, later_first)
    /\ Main.latest_build (Some "A") calm later_first
         = (ok (Some (build_at "A" "success" (739251 * US_PER_DAY + US_PER_HOUR))),
            later_first)
    /\ Schemas.last_status_by_pipeline out !! "A" = Some "success".
Proof.
  apply (latest_build_agrees_with_metrics None calm later_first
           (utc (739244 * US_PER_DAY))
           (build_at "A" "success" (739251 * US_PER_DAY + US_PER_HOUR))).
  - reflexivity.
  - by left.
  - discriminate.
  - vm_compute. discriminate.
  - intros r [->|[->|[]%elem_of_nil]%elem_of_cons]%elem_of_cons _ Hle; [done|].
    vm_compute in Hle. by destruct Hle.
Defined.

(** ** Windows: signs and bounds *)

Lemma int_negative_digits (ds : list ascii) :
  ds <> [] -> all_digits ds -> (length ds <= Py.MAX_STR_DIGITS)%nat ->
  Py.int (String "-" (string_of_list_ascii ds)) = ok (- decimal_value ds).
Proof.
  intros Hne Hd Hlen. unfold Py.int.
  change (list_ascii_of_string (String "-" (string_of_list_ascii ds)))
    with ("-"%char :: list_ascii_of_string (string_of_list_ascii ds)).
  rewrite list_ascii_of_string_of_list_ascii.
  assert (Hstrip : Py.strip ("-"%char :: ds) = "-"%char :: ds).
  { unfold Py.strip. change (Py.lstrip ("-"%char :: ds)) with ("-"%char :: ds).
    assert (Hrev : Py.lstrip (rev ("-"%char :: ds)) = rev ("-"%char :: ds)).
    { simpl rev. destruct (rev ds) as [|c l] eqn:Hr.
      - apply (f_equal (@rev ascii)) in Hr. rewrite rev_involutive in Hr. done.
      - simpl. rewrite digit_not_space; [done|]. apply Hd.
        apply list_elem_of_In, in_rev. rewrite Hr. by left. }
    rewrite Hrev. apply rev_involutive. }
  rewrite Hstrip.
  destruct ds as [|c ds]; [done|].
  assert (Hc : Py.is_digit c = true) by (apply Hd; by left).
  unfold Py.parse_unsigned. rewrite Hc.
  rewrite scan_digits_all by (intros x Hx; apply Hd; by right).
  simpl in Hlen. destruct (Nat.leb_spec (1 + length ds) Py.MAX_STR_DIGITS); [|lia].
  reflexivity.
Qed.

Lemma timedelta_of_us_negative (us : Z) :
  - DT_MAX_US <= us <= 0 -> timedelta_of_us us = ok us.
Proof.
  intros [H0 H1]. unfold timedelta_of_us.
  assert (- MAX_DELTA_DAYS <= us / US_PER_DAY <= MAX_DELTA_DAYS).
  { unfold DT_MAX_US, MAX_ORDINAL, MAX_DELTA_DAYS, US_PER_DAY, US_PER_SECOND in *.
    split.
    - apply Z.div_le_lower_bound; lia.
    - transitivity 0; [|lia]. apply Z.div_le_upper_bound; lia. }
  destruct (Z.leb_spec (- MAX_DELTA_DAYS) (us / US_PER_DAY)); [|lia].
  destruct (Z.leb_spec (us / US_PER_DAY) MAX_DELTA_DAYS); [done|lia].
Qed.

(** X14: a window may carry a sign: ["-<n>h"] is not refused, it puts the
    cutoff n hours after now (so only events dated in the future count),
    as long as that date exists. *)
Theorem negative_window_looks_ahead (ds : list ascii) (now : datetime) :
  ds <> [] -> all_digits ds -> (length ds <= Py.MAX_STR_DIGITS)%nat ->
  0 <= dt_us now ->
  dt_us now + decimal_value ds * US_PER_HOUR <= DT_MAX_US ->
  Main.window_since (String "-" (string_of_list_ascii ds) +:+ "h") now
    = ok (mk_datetime_tz (dt_us now + decimal_value ds * US_PER_HOUR)
            (dt_aware now) (dt_offset now)).
Proof.
  intros Hne Hd Hlen Hlo Hhi.
  pose proof (decimal_value_nonneg ds Hd) as Hn.
  unfold Main.window_since, Main.window_delta.
  change (timedelta_days 7) with (ok (7 * US_PER_DAY)).
  unfold mbind at 2. unfold result_bind at 1. unfold ok at 1.
  rewrite endswith_char_snoc, drop_last_snoc, int_negative_digits by done.
  unfold mbind at 2, result_bind at 2, ok at 1. unfold timedelta_hours.
  rewrite timedelta_of_us_negative.
  2:{ unfold US_PER_HOUR, US_PER_SECOND in *. lia. }
  unfold mbind, result_bind, ok at 1.
  rewrite datetime_sub_delta_in_range.
  - do 2 f_equal. lia.
  - unfold US_PER_HOUR, US_PER_SECOND in *. lia.
Qed.

Lemma negative_window_witness :
  Main.window_since "-5h" (now calm)
    = ok (utc (739251 * US_PER_DAY + 5 * US_PER_HOUR)).
Proof.
  apply (negative_window_looks_ahead ["5"%char] (now calm)).
  - done.
  - intros c [->|[]%elem_of_nil]%elem_of_cons; reflexivity.
  - vm_compute; lia.
  - done.
  - done.
Defined.

Lemma window_delta_suffix (prefix : string) (n : Z) :
  Py.int prefix = ok n ->
  Main.window_delta (prefix +:+ "h") = timedelta_hours n
  /\ Main.window_delta (prefix +:+ "d") = timedelta_days n.
Proof.
  intros Hint.
  assert (Hh : Py.endswith_char (prefix +:+ "d") "h" = false).
  { clear. induction prefix as [|a p IH]; [done|]. simpl.
    destruct (p +:+ "d") eqn:Hs; [by destruct p|]. exact IH. }
  assert (Hdef : forall (k : timedelta -> result timedelta),
            (timedelta_days 7 ≫= k) = k (7 * US_PER_DAY)) by done.
  unfold Main.window_delta. rewrite !Hdef.
  rewrite Hh, !endswith_char_snoc, !drop_last_snoc, Hint. done.
Qed.

(** X15: a window that reaches back before the first representable date
    is not clamped: the query raises [OverflowError] and answers nothing. *)
Theorem oversized_window_overflows (ds : list ascii) (E : Env) (s : State) :
  ds <> [] -> all_digits ds -> (length ds <= Py.MAX_STR_DIGITS)%nat ->
  0 <= dt_us (now E) <= DT_MAX_US ->
  (dt_us (now E) < decimal_value ds * US_PER_HOUR ->
     Main.metrics_summary (Some (string_of_list_ascii ds +:+ "h")) E s
       = (raise OverflowError, s))
  /\ (dt_us (now E) < decimal_value ds * US_PER_DAY ->
        Main.metrics_summary (Some (string_of_list_ascii ds +:+ "d")) E s
          = (raise OverflowError, s)).
Proof.
  intros Hne Hd Hlen Hnow.
  pose proof (int_digits ds Hne Hd Hlen) as Hint.
  destruct (window_delta_suffix _ _ Hint) as [Hh Hdays].
  assert (Hsub : forall us, dt_us (now E) < us ->
            (td ← timedelta_of_us us; datetime_sub_delta (now E) td) = raise OverflowError).
  { intros us Hus. unfold timedelta_of_us.
    destruct (_ && _); [|done].
    unfold mbind, result_bind, ok. unfold datetime_sub_delta. cbv zeta.
    destruct (Z.leb_spec 0 (dt_us (now E) - us)); [lia|done]. }
  split; intros Hbig; rewrite metrics_summary_run; simpl (default _ _);
    unfold Main.window_since.
  - rewrite Hh. unfold timedelta_hours. by rewrite Hsub.
  - rewrite Hdays. unfold timedelta_days. by rewrite Hsub.
Qed.

Lemma oversized_window_witness :
  Main.metrics_summary (Some "800000d") calm empty_state
    = (raise OverflowError, empty_state).
Proof.
  destruct (oversized_window_overflows
              ["8"; "0"; "0"; "0"; "0"; "0"]%char calm empty_state) as [_ H].
  - done.
  - intros c Hc. repeat (apply elem_of_cons in Hc as [->|Hc]; [reflexivity|]).
    by apply elem_of_nil in Hc.
  - vm_compute; lia.
  - vm_compute. split; discriminate.
  - apply H. vm_compute. reflexivity.
Defined.

(** ** Exact rates *)

Lemma rate_all (t : Z) : 0 < t -> Main.rate t t = 100%Q.
Proof.
  intros Ht. unfold Main.rate. destruct (Z.eqb_spec t 0); [lia|].
  unfold fmul, int_truediv.
  rewrite (round64_int (inject_Z t / inject_Z t) 1); [by apply (round64_int _ 100)|done|].
  unfold Qeq, Qdiv, Qmult, Qinv, inject_Z. destruct t; simpl; lia.
Qed.

Lemma rate_none (t : Z) : Main.rate 0 t = 0%Q.
Proof.
  unfold Main.rate. destruct (t =? 0); [done|].
  reflexivity.
Qed.

Lemma count_status_all (st : string) (rows : list Build) :
  (forall r, r ∈ rows -> Models.status r = st) ->
  Main.count_status st rows = Z.of_nat (length rows).
Proof.
  intros H. unfold Main.count_status. f_equal. f_equal.
  apply forallb_filter_id, forallb_forall. intros r Hr.
  apply bool_decide_eq_true, H. by apply list_elem_of_In.
Qed.

Lemma count_status_none (st : string) (rows : list Build) :
  (forall r, r ∈ rows -> Models.status r <> st) ->
  Main.count_status st rows = 0.
Proof.
  intros H. unfold Main.count_status.
  induction rows as [|r rows IH]; [done|]. simpl.
  rewrite bool_decide_false by (apply H; by left).
  apply IH. intros x Hx. apply H. by right.
Qed.

(** X16: the rates are exact at the ends: when the window holds events and
    all of them succeeded the success rate is exactly 100.0 (and the
    failure rate 0.0); a status that no event of the window has gives the
    rate 0.0. *)
Theorem rates_at_the_ends (window : string) (rows : list Build) :
  (rows <> [] -> (forall r, r ∈ rows -> Models.status r = "success") ->
     Schemas.success_rate (Main.summarize window rows) = 100%Q
     /\ Schemas.failure_rate (Main.summarize window rows) = 0%Q)
  /\ (rows <> [] -> (forall r, r ∈ rows -> Models.status r = "failure") ->
        Schemas.failure_rate (Main.summarize window rows) = 100%Q
        /\ Schemas.success_rate (Main.summarize window rows) = 0%Q)
  /\ ((forall r, r ∈ rows -> Models.status r <> "success") ->
        Schemas.success_rate (Main.summarize window rows) = 0%Q)
  /\ ((forall r, r ∈ rows -> Models.status r <> "failure") ->
        Schemas.failure_rate (Main.summarize window rows) = 0%Q).
Proof.
  unfold Main.summarize. cbn [Schemas.success_rate Schemas.failure_rate].
  assert (Hlen : rows <> [] -> 0 < Z.of_nat (length rows)).
  { destruct rows; [done|]. simpl. lia. }
  split; [|split; [|split]].
  - intros Hne Hall. rewrite (count_status_all "success") by done.
    rewrite (count_status_none "failure").
    + split; [by apply rate_all, Hlen|apply rate_none].
    + intros r Hr. by rewrite Hall.
  - intros Hne Hall. rewrite (count_status_all "failure") by done.
    rewrite (count_status_none "success").
    + split; [by apply rate_all, Hlen|apply rate_none].
    + intros r Hr. by rewrite Hall.
  - intros Hnone. rewrite count_status_none by done. apply rate_none.
  - intros Hnone. rewrite count_status_none by done. apply rate_none.
Qed.

Lemma rates_at_the_ends_witness :
  Schemas.success_rate (Main.summarize "7d" (replicate 3 (sample_build "success")))
    = 100%Q.
Proof.
  destruct (rates_at_the_ends "7d" (replicate 3 (sample_build "success"))) as [H _].
  apply H; [done|].
  intros r Hr. apply elem_of_replicate in Hr as [-> _]. reflexivity.
Defined.

(** ** Ingestion seen by the metrics *)

Lemma rows_since_snoc (since : datetime) (rows : list Build) (b : Build) :
  Main.rows_since since (rows ++ [b]) =
    Main.rows_since since rows
    ++ (if datetime_geb (Models.started_at b) since then [b] else []).
Proof. unfold Main.rows_since. rewrite List.filter_app. done. Qed.

(** X17: an event stored by an ingestion (whether or not its alert raised
    afterwards) shows in the next metrics query according to the wall
    clock of its start, which is what the table keeps of it: the offset of
    an aware timestamp plays no part.  When that wall clock is before the
    one of the cutoff the snapshot is the one of the table before the
    ingestion.  When it is inside the window the snapshot counts one more
    event, and if it is after every event of its pipeline in the window the
    pipeline's reported status is the new event's. *)
Theorem ingest_then_query (payload : IngestRequest) (E E' : Env) (s : State)
    (b : Build) (window : option string) (since : datetime) :
  (Main._persist "github" payload E s).1 = ok b ->
  Main.window_since (default "7d" window) (now E') = ok since ->
  let s' := (Main.ingest_github payload E s).2 in
  let before := Main.rows_since since (db_rows s) in
  (dt_us (Schemas.started_at payload) < dt_us since ->
     (Main.metrics_summary window E' s').1 = (Main.metrics_summary window E' s).1)
  /\ (dt_us since <= dt_us (Schemas.started_at payload) ->
        exists out,
          (Main.metrics_summary window E' s').1 = ok out
          /\ Main.rows_since since (db_rows s') = before ++ [b]
          /\ ((forall r, r ∈ before -> Models.pipeline r = Schemas.pipeline payload ->
                 dt_us (Models.started_at r) < dt_us (Schemas.started_at payload)) ->
              Schemas.last_status_by_pipeline out !! Schemas.pipeline payload
                = Some (Schemas.status payload))).
Proof.
  intros Hok Hsince. cbv zeta.
  assert (Hrow : db_rows (Main.ingest_github payload E s).2 = db_rows s ++ [b]
                 /\ dt_us (Models.started_at b) = dt_us (Schemas.started_at payload)
                 /\ Models.pipeline b = Schemas.pipeline payload
                 /\ Models.status b = Schemas.status payload).
  { revert Hok. unfold Main.ingest_github.
    rewrite (ingest_run (fun b => b)), persist_run.
    destruct (derived_duration payload) as [e|dur]; [done|].
    destruct (store_up E); [|done]. cbv zeta. cbn [fst snd db_rows].
    intros [= <-]. done. }
  destruct Hrow as (Hrows & Hstart & Hpipe & Hstatus).
  rewrite !metrics_summary_run, Hsince. unfold ok. cbn [fst].
  rewrite Hrows. split.
  - intros Hold. rewrite rows_since_snoc. unfold datetime_geb. rewrite Hstart.
    destruct (Z.leb_spec (dt_us since) (dt_us (Schemas.started_at payload)));
      [lia|]. by rewrite app_nil_r.
  - intros Hin.
    assert (Heq : Main.rows_since since (db_rows s ++ [b])
                  = Main.rows_since since (db_rows s) ++ [b]).
    { rewrite rows_since_snoc. unfold datetime_geb. rewrite Hstart.
      by destruct (Z.leb_spec (dt_us since) (dt_us (Schemas.started_at payload)));
        [|lia]. }
    rewrite Heq. set (before := Main.rows_since since (db_rows s)) in *.
    eexists. split; [reflexivity|]. split; [done|].
    intros Hlater.
    apply last_status_spec. exists (length before), b. split; [|done].
    unfold first_latest.
    split; [by rewrite lookup_app_r, Nat.sub_diag by lia|]. split; [done|]. split.
    + intros j r Hj Hr. apply lookup_app_Some in Hj as [Hj|[_ Hj]].
      * apply list_elem_of_lookup_2 in Hj. pose proof (Hlater r Hj Hr). rewrite Hstart. lia.
      * apply list_lookup_singleton_Some in Hj as [_ <-]. lia.
    + intros j r Hjl Hj Hr. rewrite lookup_app_l in Hj by lia.
      apply list_elem_of_lookup_2 in Hj. rewrite Hstart. by apply Hlater.
Qed.

Lemma ingest_then_query_witness :
  exists out,
    (Main.metrics_summary None calm (Main.ingest_github failed_request calm empty_state).2).1
      = ok out
    /\ Schemas.last_status_by_pipeline out !! "ci" = Some "failure".
Proof.
  destruct (Main._persist "github" failed_request calm empty_state).1 as [e|b] eqn:Hb;
    [vm_compute in Hb; discriminate|].
  destruct (ingest_then_query failed_request calm calm empty_state b None
              (utc (739244 * US_PER_DAY)) Hb eq_refl) as [_ H].
  destruct H as (out & Hout & _ & Hlast); [vm_compute; discriminate|].
  exists out. split; [exact Hout|]. apply Hlast.
  intros r Hr. vm_compute in Hr. by apply elem_of_nil in Hr.
Defined.

(** An event whose instant is before the cutoff and whose wall clock is
    after it is counted: the table has lost the offset. *)
Lemma aware_start_is_read_on_its_wall_clock :
  utc_us (Schemas.started_at offset_request) < 739251 * US_PER_DAY
  /\ Main.window_since "7d" (now next_week) = ok (utc (739251 * US_PER_DAY))
  /\ exists out,
       (Main.metrics_summary None next_week
          (Main.ingest_github offset_request calm empty_state).2).1 = ok out
       /\ Schemas.last_status_by_pipeline out !! "ci" = Some "failure".
Proof.
  split; [by vm_compute|]. split; [reflexivity|].
  eexists. split; [vm_compute; reflexivity|]. by vm_compute.
Qed.

(** ** The collectors *)

Lemma accepted_from_app {A} (send : nat -> A -> bool) (n : nat) (l l' : list A) :
  accepted_from send n (l ++ l') =
    (accepted_from send n l + accepted_from send (n + length l) l')%nat.
Proof.
  revert n. induction l as [|a l IH]; intros n; simpl.
  - by rewrite Nat.add_0_r.
  - rewrite IH. replace (S n + length l)%nat with (n + S (length l))%nat by lia. lia.
Qed.

Lemma accepted_from_le {A} (send : nat -> A -> bool) (n : nat) (l : list A) :
  (accepted_from send n l <= length l)%nat.
Proof.
  revert n. induction l as [|a l IH]; intros n; simpl; [lia|].
  specialize (IH (S n)). destruct (send n a); lia.
Qed.

Lemma github_collect_runs (send : nat -> GitHubCollector.Body -> bool)
    (repo_name : string) (runs : list GitHubCollector.Run)
    (posted : list GitHubCollector.Body) (total : nat) :
  let bodies := map (fun run => GitHubCollector.transform_workflow_run run repo_name)
                    (List.filter GitHubCollector.is_completed runs) in
  GitHubCollector.collect_runs send repo_name runs posted total =
    (posted ++ bodies, (total + accepted_from send (length posted) bodies)%nat).
Proof.
  cbv zeta. revert posted total. induction runs as [|run runs IH]; intros posted total; simpl.
  - by rewrite app_nil_r, Nat.add_0_r.
  - destruct (GitHubCollector.is_completed run); [|apply IH].
    rewrite IH. simpl. rewrite <- app_assoc. simpl. f_equal.
    rewrite length_app. simpl. rewrite Nat.add_1_r.
    destruct (send _ _); lia.
Qed.

Lemma github_collect_repos (send : nat -> GitHubCollector.Body -> bool)
    (repos : list (string * list GitHubCollector.Run))
    (posted : list GitHubCollector.Body) (total : nat) :
  GitHubCollector.collect_repos send repos posted total =
    (posted ++ terminal_bodies repos,
     (total + accepted_from send (length posted) (terminal_bodies repos))%nat).
Proof.
  revert posted total. induction repos as [|[repo_name runs] repos IH];
    intros posted total; simpl.
  - unfold terminal_bodies. simpl. by rewrite app_nil_r, Nat.add_0_r.
  - rewrite github_collect_runs. cbv zeta. rewrite IH.
    unfold terminal_bodies. simpl. rewrite <- app_assoc. f_equal.
    rewrite accepted_from_app, length_app. lia.
Qed.

Lemma github_completed_status (run : GitHubCollector.Run) (repo_name : string) :
  GitHubCollector.is_completed run = true ->
  let data := GitHubCollector.transform_workflow_run run repo_name in
  Json.get (GitHubCollector.conclusion run) = Some (GitHubCollector.status data)
  /\ GitHubCollector.status data ∈ ["success"; "failure"; "cancelled"].
Proof.
  unfold GitHubCollector.is_completed. cbv zeta. simpl.
  unfold GitHubCollector._map_conclusion_to_status.
  intros H. repeat case_bool_decide; try done.
  all: split; [done|]. all: set_solver.
Qed.

(** X18: one collection of the GitHub collector posts exactly one body for
    each fetched run whose conclusion is success, failure or cancelled, in
    the order of the repositories and of their runs, whatever the answers;
    it returns the number of the requests that were answered with success.
    Each body posted carries its run's conclusion as its status: a run
    still in progress (or with any other conclusion) is never sent. *)
Theorem github_collector_posts_terminal_runs
    (send : nat -> GitHubCollector.Body -> bool)
    (repos : list (string * list GitHubCollector.Run)) :
  let out := GitHubCollector.collect_organization_data send repos in
  out.1 = terminal_bodies repos
  /\ out.2 = accepted_from send 0 out.1
  /\ (out.2 <= length out.1)%nat
  /\ (forall data, data ∈ out.1 ->
        exists repo_name runs run,
          (repo_name, runs) ∈ repos /\ run ∈ runs
          /\ data = GitHubCollector.transform_workflow_run run repo_name
          /\ Json.get (GitHubCollector.conclusion run) = Some (GitHubCollector.status data)
          /\ GitHubCollector.status data ∈ ["success"; "failure"; "cancelled"]).
Proof.
  cbv zeta. unfold GitHubCollector.collect_organization_data.
  rewrite github_collect_repos. simpl. repeat split.
  - apply accepted_from_le.
  - intros data Hdata. unfold terminal_bodies in Hdata.
    apply list_elem_of_In, in_concat in Hdata as (bodies & Hbodies & Hdata).
    apply in_map_iff in Hbodies as ([repo_name runs] & <- & Hrepo).
    apply in_map_iff in Hdata as (run & <- & Hrun).
    apply filter_In in Hrun as [Hrun Hdone]. simpl in *.
    exists repo_name, runs, run. split; [by apply list_elem_of_In|].
    split; [by apply list_elem_of_In|].
    split; [done|]. by apply (github_completed_status run repo_name).
Qed.

(** X19: what the dashboard makes of a finished run the GitHub collector
    posts, when the database is up and the body can be decoded (the run has
    a creation time).  A run with both timestamps of the same awareness is
    stored with its conclusion as status and the duration the collector
    computed, which is the difference of the two instants; a run with no
    update time is stored without duration; the stored start is the wall
    clock of the creation time.  The request is answered with the row,
    unless the alert of a failed run raises, after the row is stored.  When
    one timestamp is naive and the other aware the collector swallows the
    error and sends no duration, and the dashboard, deriving the duration
    itself, raises [TypeError] and stores nothing. *)
Theorem github_run_reaches_table (run : GitHubCollector.Run) (repo_name : string)
    (start : datetime) (body : Schemas.Payload) (E : Env) (s : State) :
  GitHubCollector.is_completed run = true ->
  GitHubCollector.created_at run = Some (Some start) ->
  GitHubCollector.decoded (GitHubCollector.transform_workflow_run run repo_name)
    = Some body ->
  store_up E = true ->
  let data := GitHubCollector.transform_workflow_run run repo_name in
  let r := Main.post_ingest_github body E s in
  let stored (dur : option float) :=
    exists b, db_rows r.2 = db_rows s ++ [b]
              /\ r.1 = match alert_error E b with
                       | Some e => raise e
                       | None => ok (Main.Ok200 b)
                       end
              /\ Json.get (GitHubCollector.conclusion run) = Some (Models.status b)
              /\ Models.provider b = "github"
              /\ Models.repo b = repo_name
              /\ Models.started_at b = naive start
              /\ GitHubCollector.duration_seconds data = dur
              /\ Models.duration_seconds b = dur in
  match GitHubCollector.updated_at run with
  | Some (Some end_) =>
      if Bool.eqb (dt_aware end_) (dt_aware start)
      then stored (Some (total_seconds (utc_us end_ - utc_us start)))
      else GitHubCollector.duration_seconds data = None
           /\ r.1 = raise TypeError /\ r.2 = s
  | _ => stored None
  end.
Proof.
  intros Hdone Hcreated Hbody Hup. cbv zeta.
  pose proof (github_completed_status run repo_name Hdone) as [Hconc Hin].
  cbv zeta in Hconc, Hin.
  assert (Hst : Schemas.status_pattern
                  (GitHubCollector.status
                     (GitHubCollector.transform_workflow_run run repo_name)) = true).
  { apply status_pattern_canonical. unfold canonical_status.
    apply elem_of_cons in Hin as [->|Hin]; [tauto|].
    apply elem_of_cons in Hin as [->|Hin]; [tauto|].
    apply list_elem_of_singleton in Hin as ->. tauto. }
  clear Hin Hdone.
  destruct run as [nm hb c cr up hu rn].
  unfold GitHubCollector.decoded in Hbody.
  simpl in Hcreated, Hbody, Hconc, Hst |- *. subst cr.
  unfold Main.post_ingest_github, Main.ingest_github.
  destruct nm, hb, up as [[end_|]|]; simpl in Hbody;
    try discriminate; injection Hbody as <-.
  all: rewrite post_run; unfold Schemas.validate; simpl; rewrite ?Hst.
  all: rewrite (ingest_run (fun b => b)); unfold derived_duration; simpl.
  all: unfold GitHubCollector._calculate_duration; simpl.
  all: unfold datetime_sub; try destruct (Bool.eqb (dt_aware end_) (dt_aware start)).
  all: simpl; rewrite ?Hup; cbv zeta; try done.
  all: match goal with
       | |- context [alert_error ?E0 ?b] => destruct (alert_error E0 b) eqn:Herr
       end; cbn [fst snd db_rows].
  all: eexists; split; [reflexivity|]; split; [by rewrite Herr|].
  all: repeat split; done.
Qed.

Lemma github_run_reaches_table_witness :
  exists b, (Main.post_ingest_github finished_body calm empty_state).1 = ok (Main.Ok200 b)
            /\ Models.status b = "failure"
            /\ Models.duration_seconds b = Some 90%Q.
Proof.
  pose proof (github_run_reaches_table finished_run "org/app" _ finished_body calm
                empty_state eq_refl eq_refl eq_refl eq_refl) as H.
  hnf in H. destruct H as (b & _ & H2 & H3 & _ & _ & _ & _ & H8).
  exists b. split; [|split; [by injection H3|]].
  - rewrite H2. unfold alert_error. by destruct (bool_decide _).
  - rewrite H8. vm_compute. reflexivity.
Defined.

Lemma fromtimestamp_aware (t : float) (d : datetime) :
  JenkinsCollector.fromtimestamp_utc t = inr d -> dt_aware d = true.
Proof.
  unfold JenkinsCollector.fromtimestamp_utc. cbv zeta.
  match goal with |- context [rne ?a ?b] => generalize (rne a b) end.
  generalize (JenkinsCollector.trunc t). intros ip us.
  destruct (US_PER_SECOND <=? us); [|destruct (us <? 0)].
  all: match goal with
       | |- (if ?c then _ else _) = _ -> _ => destruct c
       end; [intros [= <-]; reflexivity|discriminate].
Qed.

Lemma jenkins_timestamp_aware (now : Z) (timestamp : option Z) (d : datetime) :
  JenkinsCollector._timestamp_to_iso now timestamp = inr d -> dt_aware d = true.
Proof.
  unfold JenkinsCollector._timestamp_to_iso.
  destruct timestamp as [ts|]; [destruct ts|]; cbv beta iota.
  1, 4: intros [= <-]; reflexivity.
  all: apply fromtimestamp_aware.
Qed.

Lemma jenkins_status_canonical (result : option string) :
  Schemas.status_pattern (JenkinsCollector._map_result_to_status result) = true.
Proof.
  unfold JenkinsCollector._map_result_to_status. by repeat case_bool_decide.
Qed.

(** X20: the dashboard stores every body the Jenkins collector makes of a
    build.  When [transform_build] returns and the database is up, the
    ingestion endpoint does not refuse the body: it stores one row for the
    job, of provider jenkins, on branch main, whose repository is unknown
    unless the first change message mentions github.com or gitlab.com,
    whose status is the mapped result and whose duration is the collector's
    quotient of the milliseconds by 1000.0, or, for a build without
    duration, the difference of the two timestamps, which the dashboard
    derives by itself.  The request is answered with the row, unless the
    alert of a failed build raises, after the row is stored. *)
Theorem jenkins_build_reaches_table (now now' : Z) (build : JenkinsCollector.JBuild)
    (job_name : string) (data : JenkinsCollector.Body) (E : Env) (s : State) :
  JenkinsCollector.transform_build now now' build job_name = inr data ->
  store_up E = true ->
  let r := Main.post_ingest_jenkins (JenkinsCollector.decoded data) E s in
  exists b,
    db_rows r.2 = db_rows s ++ [b]
    /\ r.1 = match alert_error E b with
             | Some e => raise e
             | None => ok (Main.Ok200 b)
             end
    /\ Models.provider b = "jenkins"
    /\ Models.pipeline b = job_name
    /\ Models.branch b = "main"
    /\ Models.repo b =
         match JenkinsCollector.changeSet_items build with
         | Some msg :: _ =>
             if Py.contains msg "github.com" || Py.contains msg "gitlab.com"
             then "extracted-from-commit" else "unknown"
         | _ => "unknown"
         end
    /\ Models.status b =
         JenkinsCollector._map_result_to_status
           (Json.get (JenkinsCollector.result_ build))
    /\ Models.duration_seconds b =
         match JenkinsCollector.duration build with
         | Json.Given d => Some (fdiv (of_Z d) (inject_Z 1000))
         | _ => Some (total_seconds
                        (utc_us (JenkinsCollector.completed_at data)
                         - utc_us (JenkinsCollector.started_at data)))
         end.
Proof.
  intros Hdata Hup. cbv zeta.
  unfold JenkinsCollector.transform_build in Hdata.
  destruct (JenkinsCollector._timestamp_to_iso now (JenkinsCollector.timestamp build))
    as [e|started] eqn:Hstart; [done|].
  destruct (JenkinsCollector.timestamp build) as [ts|]; [|done].
  destruct (Json.get_or 0 (JenkinsCollector.duration build)) as [d|] eqn:Hd; [|done].
  destruct (JenkinsCollector._timestamp_to_iso now' (Some (ts + d)))
    as [e|completed] eqn:Hcompl; [done|].
  injection Hdata as <-.
  apply jenkins_timestamp_aware in Hstart, Hcompl.
  unfold Main.post_ingest_jenkins, Main.ingest_jenkins.
  rewrite post_run. unfold Schemas.validate, JenkinsCollector.decoded. simpl.
  rewrite jenkins_status_canonical.
  rewrite (ingest_run (fun b => b)). unfold derived_duration. simpl.
  unfold datetime_sub. rewrite Hstart, Hcompl. simpl.
  assert (Hrepo : (JenkinsCollector._extract_repo_info build).1 =
                    match JenkinsCollector.changeSet_items build with
                    | Some msg :: _ =>
                        if Py.contains msg "github.com" || Py.contains msg "gitlab.com"
                        then "extracted-from-commit" else "unknown"
                    | _ => "unknown"
                    end
                  /\ (JenkinsCollector._extract_repo_info build).2 = "main").
  { unfold JenkinsCollector._extract_repo_info.
    destruct (JenkinsCollector.changeSet_items build) as [|[msg|] items]; simpl; [done| |done].
    by destruct (_ || _). }
  destruct Hrepo as [Hrepo Hbranch].
  destruct (JenkinsCollector.duration build) as [| |dur]; simpl in Hd |- *; [|done|].
  all: rewrite Hup; cbv zeta.
  all: match goal with
       | |- context [alert_error ?E0 ?b] => destruct (alert_error E0 b) eqn:Herr
       end; cbn [fst snd db_rows].
  all: eexists; split; [reflexivity|]; split; [by rewrite Herr|].
  all: repeat split; done.
Qed.

Lemma jenkins_build_reaches_table_witness :
  exists b,
    (Main.post_ingest_jenkins
       {| Schemas.raw_pipeline := Some "nightly";
          Schemas.raw_repo := Some "extracted-from-commit";
          Schemas.raw_branch := Some "main";
          Schemas.raw_status := Some "failure";
          Schemas.raw_started_at := Some (utc (739251 * US_PER_DAY));
          Schemas.raw_completed_at :=
            Some (utc (739251 * US_PER_DAY + 90 * US_PER_SECOND));
          Schemas.raw_duration_seconds := Some 90%Q;
          Schemas.raw_url := None;
          Schemas.raw_logs := Some "Jenkins build #17 - FAILURE" |}
       calm empty_state).1 = ok (Main.Ok200 b)
    /\ Models.repo b = "extracted-from-commit"
    /\ Models.status b = "failure"
    /\ Models.duration_seconds b = Some 90%Q.
Proof.
  destruct (JenkinsCollector.transform_build 0 0 failed_build "nightly")
    as [e|data] eqn:Hdata; [vm_compute in Hdata; discriminate|].
  pose proof Hdata as Hvalue. vm_compute in Hvalue. injection Hvalue as <-.
  destruct (jenkins_build_reaches_table 0 0 failed_build "nightly" _ calm empty_state
              Hdata eq_refl) as (b & _ & H2 & _ & _ & _ & H6 & H7 & H8).
  assert (Hnone : alert_error calm b = None).
  { unfold alert_error. by destruct (bool_decide _). }
  rewrite Hnone in H2.
  exists b. split; [exact H2|]. split; [exact H6|]. split; [exact H7|].
  rewrite H8. vm_compute. reflexivity.
Defined.

Lemma transform_undated (now now' : Z) (build : JenkinsCollector.JBuild)
    (job_name : string) :
  JenkinsCollector.timestamp build = None ->
  JenkinsCollector.transform_build now now' build job_name
    = inl JenkinsCollector.NoneOperand.
Proof. intros H. unfold JenkinsCollector.transform_build. by rewrite H. Qed.

Lemma collect_builds_stops (clock : nat -> Z)
    (send : nat -> JenkinsCollector.Body -> bool) (job_name : string)
    (builds : list JenkinsCollector.JBuild) (build : JenkinsCollector.JBuild) :
  build ∈ builds ->
  JenkinsCollector.is_completed build = true ->
  JenkinsCollector.timestamp build = None ->
  forall posted total,
    exists e, (JenkinsCollector.collect_builds clock send job_name builds posted total).2
              = inl e.
Proof.
  intros Hin Hdone Hts. induction builds as [|a builds IH]; [by apply elem_of_nil in Hin|].
  intros posted total. cbn [JenkinsCollector.collect_builds].
  apply elem_of_cons in Hin as [<-|Hin].
  - rewrite Hdone, transform_undated by done. by eexists.
  - destruct (JenkinsCollector.is_completed a); [|by apply IH].
    destruct (JenkinsCollector.transform_build _ _ a job_name) as [e|data];
      [by eexists|by apply IH].
Qed.

(** X21: a finished Jenkins build without a timestamp ends the whole
    collection.  The start of such a build is taken from the clock, but the
    completion adds the duration to the missing timestamp, which raises
    inside [transform_build]; nothing catches it, so whatever the clock and
    the answers of the dashboard, [collect_jenkins_data] returns no count
    once any job lists such a build: it stops there, or at an earlier
    error. *)
Theorem jenkins_undated_build_stops_collection (clock : nat -> Z)
    (send : nat -> JenkinsCollector.Body -> bool)
    (jobs : list (string * list JenkinsCollector.JBuild))
    (job_name : string) (builds : list JenkinsCollector.JBuild)
    (build : JenkinsCollector.JBuild) :
  (job_name, builds) ∈ jobs ->
  build ∈ builds ->
  JenkinsCollector.is_completed build = true ->
  JenkinsCollector.timestamp build = None ->
  (forall now now', JenkinsCollector.transform_build now now' build job_name
                    = inl JenkinsCollector.NoneOperand)
  /\ exists e, (JenkinsCollector.collect_jenkins_data clock send jobs).2 = inl e.
Proof.
  intros Hjob Hin Hdone Hts. split; [intros; by apply transform_undated|].
  unfold JenkinsCollector.collect_jenkins_data.
  generalize (@nil JenkinsCollector.Body) as posted. generalize 0%nat as total.
  induction jobs as [|[name bs] jobs IH]; [by apply elem_of_nil in Hjob|].
  intros total posted. cbn [JenkinsCollector.collect_jobs].
  apply elem_of_cons in Hjob as [[= <- <-]|Hjob].
  - destruct (collect_builds_stops clock send job_name builds build Hin Hdone Hts
                posted total) as [e He].
    destruct (JenkinsCollector.collect_builds _ _ _ _ _ _) as [posted' [e'|total']];
      [by eexists|done].
  - destruct (JenkinsCollector.collect_builds _ _ _ _ _ _) as [posted' [e'|total']];
      [by eexists|by apply IH].
Qed.

Lemma jenkins_undated_build_witness :
  exists e, (JenkinsCollector.collect_jenkins_data still_clock always_accepted
               [("nightly", [failed_build; undated_build])]).2 = inl e.
Proof.
  apply (jenkins_undated_build_stops_collection still_clock always_accepted
           [("nightly", [failed_build; undated_build])] "nightly"
           [failed_build; undated_build] undated_build).
  - apply list_elem_of_singleton. reflexivity.
  - apply elem_of_cons. right. apply list_elem_of_singleton. reflexivity.
  - reflexivity.
  - reflexivity.
Defined.

(** ** Jenkins timestamps and durations *)

Lemma rne_lower_error (a : Z) (b : positive) :
  2 * a <= 2 * (rne a b * Zpos b) + Zpos b.
Proof.
  unfold rne.
  pose proof (Z.div_mod a (Zpos b) ltac:(lia)) as Hdm.
  pose proof (Z.mod_pos_bound a (Zpos b) ltac:(lia)) as Hr.
  set (q := a / Zpos b) in *. set (r := a mod Zpos b) in *.
  destruct (Z.compare_spec (2 * r) (Zpos b)); [destruct (Z.even q)| |]; nia.
Qed.

Lemma rne_nearest (a n : Z) (b : positive) :
  2 * n * Zpos b - Zpos b < 2 * a < 2 * n * Zpos b + Zpos b -> rne a b = n.
Proof.
  intros [Hlo Hhi].
  pose proof (rne_lower_error a b). pose proof (rne_upper_error a b).
  nia.
Qed.

Lemma round_pos_lower_error (a : Z) (b p : positive) :
  0 < a -> cexp a b <= 1 - Zpos p ->
  ((a # b) <= round_pos a b + (1 # 2 ^ p))%Q.
Proof.
  intros Ha He.
  rewrite round_pos_unfold_nonpos by lia. rewrite Qred_correct.
  rewrite pow2_nonpos_eq by lia.
  set (e := cexp a b) in *.
  pose proof (rne_lower_error (a * 2 ^ (- e)) b) as Hrne.
  set (m := rne (a * 2 ^ (- e)) b) in *.
  assert (HP : 0 < 2 ^ (- e)) by (apply Z.pow_pos_nonneg; lia).
  assert (HD : 2 ^ Zpos p <= 2 * 2 ^ (- e)).
  { replace (2 * 2 ^ (- e)) with (2 ^ (1 + - e)).
    - apply Z.pow_le_mono_r; lia.
    - rewrite Z.pow_add_r by lia. done. }
  assert (HDpos : 0 < 2 ^ Zpos p) by (apply Z.pow_pos_nonneg; lia).
  unfold Qle, Qplus, Qmult, inject_Z. cbn [Qnum Qden].
  rewrite !Pos2Z.inj_mul, Pos2Z.inj_pow, Z2Pos.id by done.
  set (P := 2 ^ (- e)) in *. set (D := 2 ^ Z.pos p) in *.
  assert (Hb : 0 < Zpos b) by lia. set (B := Zpos b) in *.
  assert (H1 : 2 * a * P * D <= (2 * m * B + B) * D) by nia.
  assert (H2 : B * D <= 2 * P * B) by nia.
  assert (H3 : a * P * D <= m * B * D + B * P) by nia.
  nia.
Qed.

Lemma round64_lower_error (x : Q) (j : Z) :
  1 <= j <= prec -> (0 <= x)%Q -> (x < inject_Z (2 ^ j))%Q ->
  (x <= round64 x + (1 # 2 ^ Z.to_pos (prec + 1 - j)))%Q.
Proof.
  intros Hj H0 Hlt. destruct x as [n d].
  unfold Qle in H0. unfold Qlt in Hlt. simpl in H0, Hlt.
  destruct n as [|a|a]; [|  |lia].
  - unfold round64. simpl. unfold Qle. simpl. lia.
  - unfold round64. cbn [Qnum Qden].
    apply round_pos_lower_error; [lia|].
    unfold prec in *. rewrite Z2Pos.id by lia.
    pose proof (cexp_upper (Z.pos a) j d ltac:(lia) ltac:(unfold prec; lia) ltac:(lia)).
    unfold prec in *. lia.
Qed.

Lemma floor_unique (x : Q) (q : Z) :
  (inject_Z q <= x)%Q -> (x < inject_Z (q + 1))%Q -> Qfloor x = q.
Proof.
  intros Hlo Hhi.
  pose proof (Qfloor_le x) as H1. pose proof (Qlt_floor x) as H2.
  assert (Qfloor x < q + 1).
  { rewrite Zlt_Qlt. eapply Qle_lt_trans; [exact H1|exact Hhi]. }
  assert (q < Qfloor x + 1).
  { rewrite Zlt_Qlt. eapply Qle_lt_trans; [exact Hlo|exact H2]. }
  lia.
Qed.

Lemma rne_Q_nearest (f : Q) (n : Z) :
  (inject_Z n - (1 # 2) < f)%Q -> (f < inject_Z n + (1 # 2))%Q ->
  rne (Qnum f) (Qden f) = n.
Proof.
  destruct f as [a b]. unfold Qlt, Qminus, Qplus, Qopp, inject_Z. simpl.
  intros Hlo Hhi. apply rne_nearest. lia.
Qed.

Lemma fromtimestamp_millis (ts : Z) :
  0 < ts < 2 ^ 33 * 1000 ->
  JenkinsCollector.fromtimestamp_utc (int_truediv ts 1000)
    = inr (mk_datetime (JenkinsCollector.EPOCH_US + ts * 1000) true).
Proof.
  intros [Hts0 Hts1].
  pose proof (Z.div_mod ts 1000 ltac:(lia)) as Hdm.
  pose proof (Z.mod_pos_bound ts 1000 ltac:(lia)) as Hr.
  set (q := ts / 1000) in *. set (r := ts mod 1000) in *.
  assert (Hq : 0 <= q < 2 ^ 33) by lia.
  unfold int_truediv.
  set (X := (inject_Z ts / inject_Z 1000)%Q).
  assert (HX : (X == inject_Z q + inject_Z r * (1 # 1000))%Q).
  { unfold X. rewrite Hdm, inject_Z_plus, inject_Z_mult.
    change (inject_Z 1000) with 1000%Q. field. }
  assert (Hr0 : (0 <= inject_Z r)%Q) by (change 0%Q with (inject_Z 0); rewrite <- Zle_Qle; lia).
  assert (Hr1 : (inject_Z r <= 999)%Q) by (change 999%Q with (inject_Z 999); rewrite <- Zle_Qle; lia).
  assert (Hq0 : (0 <= inject_Z q)%Q) by (change 0%Q with (inject_Z 0); rewrite <- Zle_Qle; lia).
  assert (Hq1 : (inject_Z q <= inject_Z (2 ^ 33 - 1))%Q) by (rewrite <- Zle_Qle; lia).
  change (inject_Z (2 ^ 33 - 1)) with 8589934591%Q in Hq1.
  assert (HX0 : (0 <= X)%Q) by lra.
  assert (HX1 : (X < inject_Z (2 ^ 33))%Q).
  { change (inject_Z (2 ^ 33)) with 8589934592%Q. lra. }
  pose proof (round64_upper_error X 33 ltac:(unfold prec; lia) HX0 HX1) as Hup.
  pose proof (round64_lower_error X 33 ltac:(unfold prec; lia) HX0 HX1) as Hlo.
  change (Z.to_pos (prec + 1 - 33)) with 21%positive in Hup, Hlo.
  change (1 # 2 ^ 21)%Q with (1 # 2097152)%Q in Hup, Hlo.
  assert (Hbox : (inject_Z q <= round64 X)%Q /\ (round64 X < inject_Z (q + 1))%Q).
  { rewrite inject_Z_plus. change (inject_Z 1) with 1%Q.
    destruct (Z.eq_dec r 0) as [Hz|Hnz].
    - rewrite (round64_int X q).
      + split; lra.
      + unfold prec. lia.
      + rewrite HX, Hz. change (inject_Z 0) with 0%Q. lra.
    - assert (Hr2 : (1 <= inject_Z r)%Q)
        by (change 1%Q with (inject_Z 1); rewrite <- Zle_Qle; lia).
      split; lra. }
  set (x := round64 X) in *. destruct Hbox as [Hx0 Hx1].
  assert (Htrunc : JenkinsCollector.trunc x = q).
  { unfold JenkinsCollector.trunc.
    assert (Hpos : Qle_bool 0 x = true) by (apply Qle_bool_iff; lra).
    rewrite Hpos. by apply floor_unique. }
  unfold JenkinsCollector.fromtimestamp_utc. cbv zeta. rewrite Htrunc.
  unfold fmul. change (inject_Z US_PER_SECOND) with 1000000%Q.
  set (y := ((x - inject_Z q) * 1000000)%Q).
  assert (Hy : (y == (x - inject_Z q) * 1000000)%Q) by reflexivity.
  rewrite inject_Z_plus in Hx1. change (inject_Z 1) with 1%Q in Hx1.
  assert (Hy0 : (0 <= y)%Q) by lra.
  assert (Hy1 : (y < inject_Z (2 ^ 20))%Q).
  { change (inject_Z (2 ^ 20)) with 1048576%Q. lra. }
  pose proof (round64_upper_error y 20 ltac:(unfold prec; lia) Hy0 Hy1) as Hup2.
  pose proof (round64_lower_error y 20 ltac:(unfold prec; lia) Hy0 Hy1) as Hlo2.
  change (Z.to_pos (prec + 1 - 20)) with 34%positive in Hup2, Hlo2.
  change (1 # 2 ^ 34)%Q with (1 # 17179869184)%Q in Hup2, Hlo2.
  assert (Hus : rne (Qnum (round64 y)) (Qden (round64 y)) = 1000 * r).
  { apply rne_Q_nearest; rewrite inject_Z_mult; change (inject_Z 1000) with 1000%Q; lra. }
  rewrite Hus.
  destruct (Z.leb_spec US_PER_SECOND (1000 * r)) as [Hbig|_];
    [unfold US_PER_SECOND in Hbig; lia|].
  destruct (Z.ltb_spec (1000 * r) 0) as [Hneg|_]; [lia|].
  assert (Heq : JenkinsCollector.EPOCH_US + q * US_PER_SECOND + 1000 * r
                = JenkinsCollector.EPOCH_US + ts * 1000)
    by (unfold US_PER_SECOND; lia).
  rewrite Heq.
  assert (Hrange : (0 <=? JenkinsCollector.EPOCH_US + ts * 1000)
                   && (JenkinsCollector.EPOCH_US + ts * 1000 <=? DT_MAX_US) = true).
  { apply andb_true_iff. rewrite Z.leb_le, Z.leb_le.
    unfold JenkinsCollector.EPOCH_US, DT_MAX_US, MAX_ORDINAL, US_PER_DAY, US_PER_SECOND.
    lia. }
  by rewrite Hrange.
Qed.

Lemma pow2_Qpower (e : Z) : (pow2 e == 2 ^ e)%Q.
Proof.
  destruct e as [|p|p].
  - reflexivity.
  - unfold pow2. rewrite Zpower_Qpower by lia. reflexivity.
  - transitivity (/ inject_Z (2 ^ Z.pos p))%Q.
    + unfold pow2. rewrite <- Pos2Z.inj_pow. reflexivity.
    + rewrite Zpower_Qpower by lia. reflexivity.
Qed.

Lemma pow2_add (x y : Z) : (pow2 (x + y) == pow2 x * pow2 y)%Q.
Proof. rewrite !pow2_Qpower. by apply Qpower_plus. Qed.

Lemma pow2_lt (x y : Z) : x < y -> (pow2 x < pow2 y)%Q.
Proof. intros H. rewrite !pow2_Qpower. by apply Qpower_lt_compat_l. Qed.

Lemma pow2_le (x y : Z) : x <= y -> (pow2 x <= pow2 y)%Q.
Proof. intros H. rewrite !pow2_Qpower. by apply Qpower_le_compat_l. Qed.

Lemma pow2_nonneg_eq (e : Z) : 0 <= e -> pow2 e = inject_Z (2 ^ e).
Proof. intros He. destruct e as [|p|p]; [done|done|lia]. Qed.

(** The comparison of [ilog2], read on fractions. *)
Lemma ilog2_test (a d : Z) (b : positive) :
  a * 2 ^ Z.max 0 (- d) < Zpos b * 2 ^ Z.max 0 d <-> ((a # b) < pow2 d)%Q.
Proof.
  destruct d as [|p|p]; unfold Qlt, pow2; cbn [Qnum Qden inject_Z].
  - change (2 ^ Z.max 0 (- 0)) with 1. change (2 ^ Z.max 0 0) with 1. lia.
  - rewrite Z.max_l, Z.max_r by lia. rewrite Z.pow_0_r. lia.
  - rewrite Z.max_r, Z.max_l by lia. change (- Z.neg p) with (Z.pos p).
    rewrite Z.pow_0_r, Pos2Z.inj_pow. lia.
Qed.

Lemma ilog2_spec (a : Z) (b : positive) :
  0 < a -> (pow2 (ilog2 a b) <= (a # b))%Q /\ ((a # b) < pow2 (ilog2 a b + 1))%Q.
Proof.
  intros Ha. unfold ilog2.
  set (d := Z.log2 a - Z.log2 (Zpos b)).
  destruct (Z.log2_spec a Ha) as [Hla Hua].
  destruct (Z.log2_spec (Zpos b) ltac:(lia)) as [Hlb Hub].
  pose proof (Z.log2_nonneg a) as Hna. pose proof (Z.log2_nonneg (Zpos b)) as Hnb.
  set (la := Z.log2 a) in *. set (lb := Z.log2 (Z.pos b)) in *.
  assert (Qa : (pow2 la <= inject_Z a)%Q /\ (inject_Z a < pow2 (la + 1))%Q).
  { rewrite !pow2_nonneg_eq by lia. rewrite <- Zle_Qle, <- Zlt_Qlt.
    replace (la + 1) with (Z.succ la) by lia. done. }
  assert (Qb : (pow2 lb <= inject_Z (Zpos b))%Q /\ (inject_Z (Zpos b) < pow2 (lb + 1))%Q).
  { rewrite !pow2_nonneg_eq by lia. rewrite <- Zle_Qle, <- Zlt_Qlt.
    replace (lb + 1) with (Z.succ lb) by lia. done. }
  assert (Hab : ((a # b) * inject_Z (Zpos b) == inject_Z a)%Q).
  { unfold Qeq, Qmult, inject_Z. simpl. lia. }
  assert (Hbpos : (0 < inject_Z (Zpos b))%Q) by done.
  assert (Hlow : (pow2 (d - 1) <= (a # b))%Q).
  { apply Qmult_le_r with (inject_Z (Zpos b)); [done|]. rewrite Hab.
    apply Qle_trans with (pow2 (d - 1) * pow2 (lb + 1))%Q.
    - apply Qmult_le_l; [apply pow2_pos|]. apply Qlt_le_weak. apply Qb.
    - rewrite <- pow2_add. replace (d - 1 + (lb + 1)) with la by (unfold d; lia). apply Qa. }
  assert (Hhigh : ((a # b) < pow2 (d + 1))%Q).
  { apply Qmult_lt_r with (inject_Z (Zpos b)); [done|]. rewrite Hab.
    apply Qlt_le_trans with (pow2 (la + 1)); [apply Qa|].
    replace (la + 1) with (d + 1 + lb) by (unfold d; lia). rewrite pow2_add.
    apply Qmult_le_l; [apply pow2_pos|]. apply Qb. }
  destruct (Z.ltb_spec (a * 2 ^ Z.max 0 (- d)) (Zpos b * 2 ^ Z.max 0 d)) as [Hlt|Hge].
  - apply ilog2_test in Hlt. replace (d - 1 + 1) with d by lia. done.
  - split; [|done]. apply Qnot_lt_le. intros Hlt. apply ilog2_test in Hlt. lia.
Qed.

Lemma ilog2_unique (a k : Z) (b : positive) :
  0 < a -> (pow2 k <= (a # b))%Q -> ((a # b) < pow2 (k + 1))%Q -> ilog2 a b = k.
Proof.
  intros Ha Hlo Hhi. destruct (ilog2_spec a b Ha) as [Hlo' Hhi'].
  destruct (Z.lt_trichotomy (ilog2 a b) k) as [Hlt|[Heq|Hgt]]; [|done|].
  - pose proof (pow2_le (ilog2 a b + 1) k ltac:(lia)). lra.
  - pose proof (pow2_le (k + 1) (ilog2 a b) ltac:(lia)). lra.
Qed.

Lemma ilog2_scale (a : Z) (b c : positive) :
  0 < a -> ilog2 (a * Zpos c) (b * c) = ilog2 a b.
Proof.
  intros Ha. destruct (ilog2_spec a b Ha) as [Hlo Hhi].
  assert (Heq : ((a * Zpos c # b * c) == (a # b))%Q).
  { unfold Qeq. simpl. lia. }
  apply ilog2_unique; [lia| |]; by rewrite Heq.
Qed.

Lemma rne_scale (a : Z) (b c : positive) : rne (a * Zpos c) (b * c) = rne a b.
Proof.
  unfold rne. rewrite Pos2Z.inj_mul.
  rewrite Z.div_mul_cancel_r by lia. rewrite Zmult_mod_distr_r.
  rewrite Z.mul_assoc.
  assert (Hc : (2 * (a mod Z.pos b) * Z.pos c ?= Z.pos b * Z.pos c)
               = (2 * (a mod Z.pos b) ?= Z.pos b)).
  { symmetry. apply Zmult_compare_compat_r. lia. }
  by rewrite Hc.
Qed.

Lemma round_pos_scale (a : Z) (b c : positive) :
  0 < a -> round_pos (a * Zpos c) (b * c) = round_pos a b.
Proof.
  intros Ha. unfold round_pos, cexp. rewrite ilog2_scale by done.
  set (e := Z.max (ilog2 a b - (prec - 1)) emin).
  replace (a * Z.pos c * 2 ^ Z.max 0 (- e)) with (a * 2 ^ Z.max 0 (- e) * Zpos c) by lia.
  replace (b * c * Z.to_pos (2 ^ Z.max 0 e))%positive
    with (b * Z.to_pos (2 ^ Z.max 0 e) * c)%positive by lia.
  by rewrite rne_scale.
Qed.

Lemma round_pos_ratio (a a' : Z) (b b' : positive) :
  0 < a -> a * Zpos b' = a' * Zpos b -> round_pos a b = round_pos a' b'.
Proof.
  intros Ha Heq.
  rewrite <- (round_pos_scale a b b') by done.
  rewrite <- (round_pos_scale a' b' b) by nia.
  rewrite Heq. f_equal. lia.
Qed.

(** Equal numbers round to the same float, however they are written. *)
Lemma round64_Qeq (x y : Q) : (x == y)%Q -> round64 x = round64 y.
Proof.
  destruct x as [n d], y as [n' d']. unfold Qeq. simpl. intros Heq.
  unfold round64. simpl.
  destruct n as [|a|a], n' as [|a'|a']; try lia; [done| |].
  - by apply round_pos_ratio.
  - f_equal. apply round_pos_ratio; lia.
Qed.

Lemma timestamp_to_iso_millis (now ts : Z) :
  0 < ts < 2 ^ 33 * 1000 ->
  JenkinsCollector._timestamp_to_iso now (Some ts)
    = inr (mk_datetime (JenkinsCollector.EPOCH_US + ts * 1000) true).
Proof.
  intros Hts. unfold JenkinsCollector._timestamp_to_iso.
  destruct ts as [|p|p]; [lia| |lia]. by apply fromtimestamp_millis.
Qed.

(** X22: a Jenkins timestamp, in milliseconds since 1970, becomes exactly
    that instant.  The conversion goes through a float number of seconds
    and back to microseconds, and for every timestamp after the epoch and
    below 2^33 seconds (year 2242) the two roundings cancel: the result is
    the aware datetime [ts] milliseconds after 1970-01-01T00:00:00Z,
    whatever the clock shows. *)
Theorem jenkins_timestamps_exact (now ts : Z) :
  0 < ts < 2 ^ 33 * 1000 ->
  JenkinsCollector._timestamp_to_iso now (Some ts)
    = inr (mk_datetime (JenkinsCollector.EPOCH_US + ts * 1000) true).
Proof. apply timestamp_to_iso_millis. Qed.

Lemma jenkins_timestamps_exact_witness :
  JenkinsCollector._timestamp_to_iso 0 (Some 1735689600123)
    = inr (utc (739251 * US_PER_DAY + 123000)).
Proof.
  rewrite (jenkins_timestamps_exact 0 1735689600123) by lia. reflexivity.
Defined.

(** Beyond that range the conversion is no longer exact: the last
    millisecond of year 9999 comes out 7 microseconds early. *)
Lemma jenkins_timestamp_far_future :
  JenkinsCollector._timestamp_to_iso 0 (Some 253402300799999)
    = inr (utc (JenkinsCollector.EPOCH_US + 253402300799999 * 1000 - 7)).
Proof. vm_compute. reflexivity. Qed.

(** X23: the duration the Jenkins collector sends is the one its two
    timestamps give.  For a build that started after the epoch, with a
    duration of [d >= 0] milliseconds, ending before year 2242,
    [transform_build] returns a body whose [completed_at] is exactly [d]
    milliseconds after its [started_at], and whose [duration_seconds], the
    float quotient [d / 1000.0], is the very float the dashboard would
    derive from the difference of the two timestamps. *)
Theorem jenkins_duration_consistent (now now' : Z) (build : JenkinsCollector.JBuild)
    (job_name : string) (ts d : Z) :
  JenkinsCollector.timestamp build = Some ts ->
  JenkinsCollector.duration build = Json.Given d ->
  0 < ts -> 0 <= d -> ts + d < 2 ^ 33 * 1000 ->
  exists data,
    JenkinsCollector.transform_build now now' build job_name = inr data
    /\ JenkinsCollector.started_at data
         = mk_datetime (JenkinsCollector.EPOCH_US + ts * 1000) true
    /\ dt_us (JenkinsCollector.completed_at data)
         - dt_us (JenkinsCollector.started_at data) = d * 1000
    /\ JenkinsCollector.duration_seconds data
         = Some (total_seconds (dt_us (JenkinsCollector.completed_at data)
                                - dt_us (JenkinsCollector.started_at data))).
Proof.
  intros Hts Hd Hts0 Hd0 Hend. unfold JenkinsCollector.transform_build.
  rewrite Hts, Hd. cbn [Json.get_or Json.get].
  rewrite !timestamp_to_iso_millis by lia.
  eexists. split; [reflexivity|]. unfold mk_datetime.
  cbn [JenkinsCollector.started_at
    JenkinsCollector.completed_at JenkinsCollector.duration_seconds dt_us].
  split; [done|]. split; [lia|].
  unfold JenkinsCollector._duration_to_seconds. f_equal.
  replace (JenkinsCollector.EPOCH_US + (ts + d) * 1000
           - (JenkinsCollector.EPOCH_US + ts * 1000)) with (d * 1000) by lia.
  unfold fdiv, of_Z, total_seconds, int_truediv.
  rewrite (round64_int (inject_Z d) d); [| unfold prec; lia | reflexivity].
  apply round64_Qeq. rewrite inject_Z_mult.
  change (inject_Z US_PER_SECOND) with 1000000%Q. change (inject_Z 1000) with 1000%Q.
  field.
Qed.

Lemma jenkins_duration_consistent_witness :
  exists data,
    JenkinsCollector.transform_build 0 0 failed_build "nightly" = inr data
    /\ JenkinsCollector.duration_seconds data = Some 90%Q.
Proof.
  destruct (jenkins_duration_consistent 0 0 failed_build "nightly" 1735689600000 90000
              eq_refl eq_refl) as (data & H1 & _ & H3 & H4); [lia|lia|lia|].
  exists data. split; [exact H1|]. rewrite H4, H3. vm_compute. reflexivity.
Defined.

(** ** Alert delivery *)

Lemma int_raises_value_error (s : string) (e : exn) :
  Py.int s = raise e -> e = ValueError.
Proof.
  unfold Py.int. cbv zeta.
  match goal with |- match ?p with _ => _ end = _ -> _ => destruct p end;
    [discriminate|by intros [= <-]].
Qed.

(** X24: the email alert fails on an unreadable port, and on nothing else.
    [SMTP_PORT] is parsed before the configuration is looked at and outside
    of the handler of the delivery errors: when it is set to a text [int]
    cannot read, [_send_email_alert] raises [ValueError], and so does the
    sending of an alert as a whole, even when no email is configured at all
    and whatever Slack answered.  In every other case it returns: with
    [SMTP_PORT] unset the port is 587, nothing is sent unless the host, the
    sender and the recipient are all set, and then the outcome is that of
    the SMTP session, which logs in only when user and password are both
    set. *)
Theorem email_alert_fails_only_on_port (env : Alerting.Environ)
    (post : string -> Alerting.Reply) (session : string -> Z -> bool -> bool) :
  (forall p, Alerting.SMTP_PORT env = Some p -> Py.int p = raise ValueError ->
     Alerting._send_email_alert env session = raise ValueError
     /\ Alerting.send_alerts env post session = raise ValueError)
  /\ (forall e, Alerting._send_email_alert env session = raise e ->
        e = ValueError
        /\ exists p, Alerting.SMTP_PORT env = Some p /\ Py.int p = raise ValueError)
  /\ (forall port, Py.int (default "587" (Alerting.SMTP_PORT env)) = ok port ->
        Alerting._send_email_alert env session =
          ok (email_configured env
              && session (default "" (Alerting.SMTP_HOST env)) port
                   (Alerting.truthy (Alerting.SMTP_USER env)
                    && Alerting.truthy (Alerting.SMTP_PASS env))))
  /\ (Alerting.SMTP_PORT env = None ->
        Py.int (default "587" (Alerting.SMTP_PORT env)) = ok 587).
Proof.
  unfold Alerting.send_alerts, Alerting._send_email_alert, email_configured.
  repeat match goal with |- _ /\ _ => split end.
  - intros p Hp Hint. rewrite Hp. simpl (default _ _). by rewrite Hint.
  - intros e. destruct (Py.int _) as [e'|port] eqn:Hint.
    + intros [= <-]. pose proof (int_raises_value_error _ _ Hint) as ->.
      split; [done|]. destruct (Alerting.SMTP_PORT env) as [p|]; [by exists p|].
      vm_compute in Hint. discriminate.
    + simpl. by destruct (negb _).
  - intros port ->. simpl. by destruct (_ && _ && _).
  - intros ->. vm_compute. reflexivity.
Qed.

(** The port is read even when there is nothing to send. *)
Lemma email_alert_bad_port :
  forall post session, Alerting.send_alerts bad_port post session = raise ValueError.
Proof. intros post session. reflexivity. Qed.
